(** * gemini-code-security-review: the structured-output decoder and the findings filter

    A shallow embedding of [geminicli/json_parser.py] and
    [geminicli/findings_filter.py], with the properties of the two components
    stated and proved over it.

    Conventions of the embedding.
    - A Python [str] is a Rocq [string]; each character stands for one code
      point below 256 (the Latin-1 block), on which [str.lower], [str.isspace]
      and case-insensitive regex matching are given exactly. Beyond that block
      [re.IGNORECASE] lets a few more characters match a letter (the long s,
      the Kelvin sign, the dotted and the dotless i), so where a property
      says which texts a pattern matches, it gives a sufficient condition.
    - [json.loads] is a parameter of the decoder: on each text it returns a
      value or raises, [JSONDecodeError] or anything else.
    - A Python [dict] with string keys is a [gmap string value]; key order is
      not recorded (no function below depends on it).
    - Objects that the code copies or appends by reference (the findings) live
      in a heap [gmap loc (gmap string value)], and lists of findings are lists
      of locations, so that identity and mutation are visible.
    - Code that can raise returns a [result]; [try ... except E] is [try_except].
    - Python floats are idealised as rationals; [time.time()] readings are
      explicit inputs. Calls to the logger have no effect on results and are
      left out. *)

From Stdlib Require Import Ascii String QArith Qround.
From stdpp Require Import gmap strings list fin_maps.

Set Warnings "-register-all".

Local Open Scope string_scope.

(** ** Python values, exceptions and the error monad *)

Inductive value : Type :=
  | VNone
  | VBool (b : bool)
  | VInt (n : Z)
  | VFloat (q : Q)
  | VStr (s : string)
  | VList (l : list value)
  | VDict (kv : list (string * value)).

Inductive exn : Type :=
  | AttributeError
  | TypeError
  | IndexError
  | ValueError
  | RecursionError
  | JSONDecodeError
  | SystemError.

Global Instance exn_eq_dec : EqDecision exn.
Proof. solve_decision. Defined.

Inductive result (A : Type) : Type :=
  | Ok (a : A)
  | Raise (e : exn).
Arguments Ok {A} a.
Arguments Raise {A} e.

Global Instance result_ret : MRet result := λ A a, Ok a.
Global Instance result_bind : MBind result := λ A B f x,
  match x with
  | Ok a => f a
  | Raise e => Raise e
  end.

(** [try: body except E: handler] *)
Definition try_except {A} (body : result A) (E : exn) (handler : result A) : result A :=
  match body with
  | Ok a => Ok a
  | Raise e => if decide (e = E) then handler else Raise e
  end.

(** ** The [str] methods the two modules call *)

Module PyStr.

Definition chr (n : nat) : ascii := ascii_of_nat n.
Definition newline : ascii := chr 10.
Definition dquote : ascii := chr 34.
Definition backslash : ascii := chr 92.

Definition in_range (lo hi : N) (a : ascii) : bool :=
  let n := N_of_ascii a in (lo <=? n)%N && (n <=? hi)%N.

(** [c.isspace()]: TAB..CR, FS..US, SPACE, NEL, NBSP. *)
Definition isspace (a : ascii) : bool :=
  in_range 9 13 a || in_range 28 32 a || in_range 133 133 a || in_range 160 160 a.

(** [c.lower()]: A-Z, and the upper-case letters of Latin-1 (all of
    0xC0..0xDE but the multiplication sign 0xD7). *)
Definition lower_char (a : ascii) : ascii :=
  if in_range 65 90 a || in_range 192 214 a || in_range 216 222 a
  then ascii_of_N (N_of_ascii a + 32)
  else a.

Fixpoint lower (s : string) : string :=
  match s with
  | EmptyString => EmptyString
  | String a s' => String (lower_char a) (lower s')
  end.

(** [s.replace(old, new)] for one-character [old] and [new]. *)
Fixpoint replace (old new : ascii) (s : string) : string :=
  match s with
  | EmptyString => EmptyString
  | String a s' => String (if Ascii.eqb a old then new else a) (replace old new s')
  end.

Fixpoint startswith (s p : string) : bool :=
  match p, s with
  | EmptyString, _ => true
  | String b p', String a s' => Ascii.eqb a b && startswith s' p'
  | String _ _, EmptyString => false
  end.

(** [p in s] *)
Fixpoint contains (p s : string) : bool :=
  startswith s p ||
  match s with
  | EmptyString => false
  | String _ s' => contains p s'
  end.

Fixpoint drop (n : nat) (s : string) : string :=
  match n, s with
  | O, _ => s
  | S n', String _ s' => drop n' s'
  | S _, EmptyString => EmptyString
  end.

Fixpoint take (n : nat) (s : string) : string :=
  match n, s with
  | S n', String a s' => String a (take n' s')
  | _, _ => EmptyString
  end.

Definition endswith (s suf : string) : bool :=
  (String.length suf <=? String.length s)%nat &&
  String.eqb (drop (String.length s - String.length suf) s) suf.

(** [s.endswith((suf1, suf2, ...))] *)
Definition endswith_any (s : string) (sufs : list string) : bool :=
  existsb (endswith s) sufs.

Fixpoint lstrip (s : string) : string :=
  match s with
  | EmptyString => EmptyString
  | String a s' => if isspace a then lstrip s' else s
  end.

Fixpoint rstrip (s : string) : string :=
  match s with
  | EmptyString => EmptyString
  | String a s' =>
      match rstrip s' with
      | EmptyString => if isspace a then EmptyString else String a EmptyString
      | r => String a r
      end
  end.

Definition strip (s : string) : string := rstrip (lstrip s).

(** [s.find(sub)]: the lowest index where [sub] starts, or -1. *)
Fixpoint find_from (sub s : string) (i : Z) : Z :=
  if startswith s sub then i
  else match s with
       | EmptyString => (-1)%Z
       | String _ s' => find_from sub s' (i + 1)%Z
       end.

Definition find (s sub : string) : Z := find_from sub s 0%Z.

(** [s[i]] for [0 <= i]; out of range raises. *)
Definition index (s : string) (i : nat) : result ascii :=
  match String.get i s with
  | Some a => Ok a
  | None => Raise IndexError
  end.

(** [s[a:b]] for [0 <= a], [0 <= b]; slices clamp and never raise. *)
Definition slice (s : string) (a b : nat) : string := take (b - a) (drop a s).

(** [not s] *)
Definition is_empty (s : string) : bool :=
  match s with EmptyString => true | _ => false end.

End PyStr.

(** ** The fragment of [re] the two modules use

    A backtracking matcher in continuation-passing style: alternatives are
    tried left to right, [\s*] is greedy, [[\s\S]*?] is lazy, and [search]
    tries the start positions from left to right, so the match found is the
    one Python's engine finds. Repetition is only ever applied to a character
    class in the source patterns, which keeps the matcher structural. *)

Module Re.

Inductive re : Type :=
  | Chr (c : ascii)                 (* a literal character *)
  | Dot                             (* [.] *)
  | Cls (p : ascii → bool)          (* [\s], [[\s\S]] *)
  | Eol                             (* [$] *)
  | Eps
  | Seq (r1 r2 : re)
  | Alt (r1 r2 : re)                (* [r1|r2] *)
  | Star (p : ascii → bool)         (* [c*] on a class, greedy *)
  | LazyStar (p : ascii → bool)     (* [c*?] on a class *)
  | Group (r : re).                 (* [( r )], group 1 *)

Record pattern : Type := Pattern {
  regex : re;
  IGNORECASE : bool;
  DOTALL : bool
}.

Record match_obj : Type := Match { group1 : option string }.

(** A literal character of the pattern against a character of the text.
    With [re.IGNORECASE] two code points below 256 match when their lower
    cases are equal. *)
Definition chr_matches (ic : bool) (c a : ascii) : bool :=
  if ic then Ascii.eqb (PyStr.lower_char a) (PyStr.lower_char c) else Ascii.eqb a c.

Definition dot_matches (dotall : bool) (a : ascii) : bool :=
  dotall || negb (Ascii.eqb a PyStr.newline).

(** [$] without MULTILINE: at the end, or just before a final newline. *)
Definition at_eol (s : string) : bool :=
  match s with
  | EmptyString => true
  | String a EmptyString => Ascii.eqb a PyStr.newline
  | _ => false
  end.

Section Exec.
Context {A : Type} (ic dotall : bool).

Definition step (ok : ascii → bool) (s : string) (k : string → option A) : option A :=
  match s with
  | String a s' => if ok a then k s' else None
  | EmptyString => None
  end.

Fixpoint greedy (p : ascii → bool) (s : string) (k : string → option A) : option A :=
  match s with
  | String a s' =>
      if p a then
        match greedy p s' k with
        | Some x => Some x
        | None => k s
        end
      else k s
  | EmptyString => k s
  end.

Fixpoint lazy (p : ascii → bool) (s : string) (k : string → option A) : option A :=
  match k s with
  | Some x => Some x
  | None =>
      match s with
      | String a s' => if p a then lazy p s' k else None
      | EmptyString => None
      end
  end.

Fixpoint exec (r : re) (s : string) (cap : option string)
    (k : string → option string → option A) : option A :=
  match r with
  | Chr c => step (chr_matches ic c) s (λ s', k s' cap)
  | Dot => step (dot_matches dotall) s (λ s', k s' cap)
  | Cls p => step p s (λ s', k s' cap)
  | Eol => if at_eol s then k s cap else None
  | Eps => k s cap
  | Seq r1 r2 => exec r1 s cap (λ s' cap', exec r2 s' cap' k)
  | Alt r1 r2 =>
      match exec r1 s cap k with
      | Some x => Some x
      | None => exec r2 s cap k
      end
  | Star p => greedy p s (λ s', k s' cap)
  | LazyStar p => lazy p s (λ s', k s' cap)
  | Group r1 =>
      exec r1 s cap
        (λ s' _, k s' (Some (PyStr.take (String.length s - String.length s') s)))
  end.
End Exec.

(** [pattern.match(s)] at the start of [s] *)
Definition match_here (p : pattern) (s : string) : option match_obj :=
  exec (IGNORECASE p) (DOTALL p) (regex p) s None (λ _ cap, Some (Match cap)).

(** [pattern.search(s)] *)
Fixpoint search (p : pattern) (s : string) : option match_obj :=
  match match_here p s with
  | Some m => Some m
  | None =>
      match s with
      | EmptyString => None
      | String _ s' => search p s'
      end
  end.

(** A pattern text made of literal characters only. *)
Fixpoint lit (s : string) : re :=
  match s with
  | EmptyString => Eps
  | String c s' => Seq (Chr c) (lit s')
  end.

(** A pattern text made of literal characters and [.]. *)
Fixpoint phrase (s : string) : re :=
  match s with
  | EmptyString => Eps
  | String c s' => Seq (if Ascii.eqb c "." then Dot else Chr c) (phrase s')
  end.

Fixpoint any_of (r : re) (rs : list re) : re :=
  match rs with
  | [] => r
  | r' :: rs' => Alt r (any_of r' rs')
  end.

(** [re.compile("p1|p2|...", re.IGNORECASE)] for alternatives that are phrases *)
Definition phrases_ic (p : string) (ps : list string) : pattern :=
  Pattern (any_of (phrase p) (map phrase ps)) true false.

End Re.

(** ** The heap of finding objects *)

Definition loc : Type := positive.

(** A Python reference always points to a live object; a lookup outside the
    heap has no counterpart in the source and is reported as [SystemError]. *)
Definition deref (h : gmap loc (gmap string value)) (l : loc) : result (gmap string value) :=
  match h !! l with
  | Some d => Ok d
  | None => Raise SystemError
  end.

(** Allocation of a new object: any location not in use. *)
Definition alloc (h : gmap loc (gmap string value)) (d : gmap string value)
    : loc * gmap loc (gmap string value) :=
  let l := fresh (dom h) in (l, <[l := d]> h).

(** [d.get(key, default)] *)
Definition dict_get {V} (d : gmap string V) (key : string) (default : V) : V :=
  match d !! key with
  | Some v => v
  | None => default
  end.

(** A method of [str] called on an arbitrary object: anything but a [str]
    has no such attribute. *)
Definition str_method {A} (f : string → A) (v : value) : result A :=
  match v with
  | VStr s => Ok (f s)
  | _ => Raise AttributeError
  end.

(** [pattern.search(v)]: anything but a [str] is a [TypeError]. *)
Definition re_search (p : Re.pattern) (v : value) : result (option Re.match_obj) :=
  match v with
  | VStr s => Ok (Re.search p s)
  | _ => Raise TypeError
  end.

(** [round(x, 2)]: to the nearest hundredth, ties to even. *)
Definition round2 (x : Q) : Q :=
  let y := (x * 100)%Q in
  let f := Qfloor y in
  let n := match (y - inject_Z f ?= 1 # 2)%Q with
           | Lt => f
           | Gt => (f + 1)%Z
           | Eq => if Z.even f then f else (f + 1)%Z
           end in
  (n # 100)%Q.

(** ** [geminicli/findings_filter.py] *)

Module findings_filter.

Record FilterStats : Type := mkFilterStats {
  total_findings : Z;
  hard_excluded : Z;
  kept_findings : Z;
  exclusion_breakdown : gmap string Z;
  runtime_seconds : Q
}.

Module HardExclusionRules.

Definition DOS_PATTERNS : Re.pattern :=
  Re.phrases_ic "denial.of.service"
    ["dos.attack"; "resource.exhaust"; "cpu.exhaust";
     "memory.exhaust"; "bandwidth.exhaust"; "disk.exhaust"].

Definition RATE_LIMITING_PATTERNS : Re.pattern :=
  Re.phrases_ic "rate.limit" ["throttl"; "brute.force.protection"; "request.flood"].

Definition RESOURCE_PATTERNS : Re.pattern :=
  Re.phrases_ic "memory.leak"
    ["file.descriptor.leak"; "resource.leak"; "unclosed.resource"; "connection.leak"].

Definition OPEN_REDIRECT_PATTERNS : Re.pattern :=
  Re.phrases_ic "open.redirect" ["unvalidated.redirect"].

Definition MEMORY_SAFETY_PATTERNS : Re.pattern :=
  Re.phrases_ic "buffer.overflow"
    ["use.after.free"; "out.of.bounds"; "heap.overflow"; "stack.overflow";
     "dangling.pointer"].

Definition REGEX_INJECTION_PATTERNS : Re.pattern :=
  Re.phrases_ic "regex.injection" ["regexp.injection"; "redos"; "regex.dos"].

Definition LOG_SPOOFING_PATTERNS : Re.pattern :=
  Re.phrases_ic "log.spoofing" ["log.injection"; "log.forging"].

Definition MISSING_AUDIT_LOG_PATTERNS : Re.pattern :=
  Re.phrases_ic "audit.log" ["missing.log"; "insufficient.log"].

Definition HARDENING_PATTERNS : Re.pattern :=
  Re.phrases_ic "lack.of.hardening"
    ["missing.hardening"; "should.implement"; "recommended.to.add"; "best.practice"].

(** [re.compile(r"\.(rs|go)$", re.IGNORECASE)] *)
Definition MEMORY_SAFE_LANGS : Re.pattern :=
  Re.Pattern
    (Re.Seq (Re.Chr ".") (Re.Seq (Re.Group (Re.Alt (Re.lit "rs") (Re.lit "go"))) Re.Eol))
    true false.

Definition EXCLUDED_CATEGORIES : gset string :=
  {[ "dos"; "denial_of_service"; "rate_limiting"; "resource_exhaustion";
     "memory_leak"; "regex_injection"; "regex_dos"; "log_spoofing";
     "open_redirect"; "missing_audit_log" ]}.

End HardExclusionRules.
Import HardExclusionRules.

Definition _is_test_file (file_path : value) : result bool :=
  lower ← str_method PyStr.lower file_path;
  let test_patterns :=
    ["/test/"; "/tests/"; "/spec/"; "/specs/";
     "_test."; ".test."; ".spec.";
     "test_"; "_spec."] in
  Ok (existsb (λ p, PyStr.contains p lower) test_patterns).

(** One [if pattern.search(description): return reason] of the rule chain;
    [rest] is the code after it. *)
Definition rule (p : Re.pattern) (description : value) (reason : string)
    (rest : result (option string)) : result (option string) :=
  m ← re_search p description;
  if bool_decide (is_Some m) then Ok (Some reason) else rest.

Definition get_exclusion_reason (finding : gmap string value) : result (option string) :=
  lowered ← str_method PyStr.lower (dict_get finding "category" (VStr ""));
  let category := PyStr.replace "-" "_" lowered in
  let description := dict_get finding "description" (VStr "") in
  let file_path := dict_get finding "file" (VStr "") in
  if bool_decide (category ∈ EXCLUDED_CATEGORIES) then
    Ok (Some ("excluded_category:" +:+ category))
  else
  rule DOS_PATTERNS description "dos_pattern" (
  rule RATE_LIMITING_PATTERNS description "rate_limiting_pattern" (
  rule RESOURCE_PATTERNS description "resource_leak_pattern" (
  rule OPEN_REDIRECT_PATTERNS description "open_redirect_pattern" (
  rule REGEX_INJECTION_PATTERNS description "regex_injection_pattern" (
  rule LOG_SPOOFING_PATTERNS description "log_spoofing_pattern" (
  rule MISSING_AUDIT_LOG_PATTERNS description "missing_audit_log_pattern" (
  rule HARDENING_PATTERNS description "hardening_best_practice" (
    m1 ← re_search MEMORY_SAFETY_PATTERNS description;
    m2 ← (if bool_decide (is_Some m1)
          then re_search MEMORY_SAFE_LANGS file_path
          else Ok None);
    if bool_decide (is_Some m1) && bool_decide (is_Some m2) then
      Ok (Some "memory_safety_in_safe_language")
    else
    is_test ← _is_test_file file_path;
    if is_test : bool then Ok (Some "test_file_only") else
    is_doc ← str_method (λ s, PyStr.endswith_any s [".md"; ".rst"; ".txt"; ".adoc"]) file_path;
    if is_doc : bool then Ok (Some "documentation_file") else
    Ok None)))))))).

Record FindingsFilter : Type := mkFindingsFilter {
  use_hard_exclusions : bool
}.

(** The state of the loop of [filter_findings]: the heap and the locals
    [kept], [excluded] and [stats]. *)
Record loop_state : Type := mkLoop {
  heap : gmap loc (gmap string value);
  kept : list loc;
  excluded : list loc;
  stats : FilterStats
}.

Definition exclude (st : loop_state) (finding : gmap string value) (reason : string)
    : loop_state :=
  (* finding = dict(finding) *)
  let '(copy, h1) := alloc (heap st) finding in
  (* finding["exclusion_reason"] = reason *)
  let h2 := <[copy := <["exclusion_reason" := VStr reason]> finding]> h1 in
  let s := stats st in
  {| heap := h2;
     kept := kept st;
     excluded := excluded st ++ [copy];
     stats := {| total_findings := total_findings s;
                 hard_excluded := (hard_excluded s + 1)%Z;
                 kept_findings := kept_findings s;
                 exclusion_breakdown :=
                   <[reason := (dict_get (exclusion_breakdown s) reason 0 + 1)%Z]>
                     (exclusion_breakdown s);
                 runtime_seconds := runtime_seconds s |} |}.

Definition keep (st : loop_state) (finding : loc) : loop_state :=
  {| heap := heap st;
     kept := kept st ++ [finding];
     excluded := excluded st;
     stats := stats st |}.

(** The body of [for finding in findings] *)
Definition loop_body (self : FindingsFilter) (st : loop_state) (finding : loc)
    : result loop_state :=
  if use_hard_exclusions self then
    d ← deref (heap st) finding;
    reason ← get_exclusion_reason d;
    match reason with
    | Some r =>
        (* [if reason:] an empty string is false too *)
        if PyStr.is_empty r then Ok (keep st finding) else Ok (exclude st d r)
    | None => Ok (keep st finding)
    end
  else Ok (keep st finding).

Fixpoint loop (self : FindingsFilter) (st : loop_state) (findings : list loc)
    : result loop_state :=
  match findings with
  | [] => Ok st
  | finding :: rest => st' ← loop_body self st finding; loop self st' rest
  end.

Record summary : Type := mkSummary {
  summary_total_findings : Z;
  summary_kept_findings : Z;
  summary_excluded_findings : Z;
  summary_exclusion_breakdown : gmap string Z;
  summary_runtime_seconds : Q
}.

Record filtered_results : Type := mkResults {
  filtered_findings : list loc;
  excluded_findings : list loc;
  analysis_summary : summary
}.

(** [filter_findings(self, findings)]; [start_time] and [end_time] are the
    two readings of [time.time()]. The heap after the call is returned next
    to the tuple [(success, filtered_results, stats)]. *)
Definition filter_findings (self : FindingsFilter)
    (h : gmap loc (gmap string value)) (findings : list loc) (start_time end_time : Q)
    : result (gmap loc (gmap string value) * (bool * filtered_results * FilterStats)) :=
  let stats0 := {| total_findings := Z.of_nat (length findings);
                   hard_excluded := 0%Z; kept_findings := 0%Z;
                   exclusion_breakdown := ∅; runtime_seconds := 0 |} in
  st ← loop self {| heap := h; kept := []; excluded := []; stats := stats0 |} findings;
  let stats1 := {| total_findings := total_findings (stats st);
                   hard_excluded := hard_excluded (stats st);
                   kept_findings := Z.of_nat (length (kept st));
                   exclusion_breakdown := exclusion_breakdown (stats st);
                   runtime_seconds := (end_time - start_time)%Q |} in
  let result :=
    {| filtered_findings := kept st;
       excluded_findings := excluded st;
       analysis_summary :=
         {| summary_total_findings := total_findings stats1;
            summary_kept_findings := kept_findings stats1;
            summary_excluded_findings := Z.of_nat (length (excluded st));
            summary_exclusion_breakdown := exclusion_breakdown stats1;
            summary_runtime_seconds := round2 (runtime_seconds stats1) |} |} in
  Ok (heap st, (true, result, stats1)).

End findings_filter.

(** ** [geminicli/json_parser.py] *)

Module json_parser.

(** What a loop body tells its loop. *)
Inductive control (S R : Type) : Type :=
  | Continue (st : S)
  | Break
  | Return (r : R).
Arguments Continue {S R} st.
Arguments Break {S R}.
Arguments Return {S R} r.

(** The locals of the bracket scan. *)
Record scan_state : Type := mkScan {
  depth : Z;
  in_string : bool;
  escape_next : bool
}.

(** [r"```json\s*([\s\S]*?)\s*```"] and [r"```\s*([\s\S]*?)\s*```"] *)
Definition fenced (opening : string) : Re.re :=
  Re.Seq (Re.lit opening)
    (Re.Seq (Re.Star PyStr.isspace)
      (Re.Seq (Re.Group (Re.LazyStar (λ a, PyStr.isspace a || negb (PyStr.isspace a))))
        (Re.Seq (Re.Star PyStr.isspace) (Re.lit "```")))).

Definition code_block_patterns : list Re.re := [fenced "```json"; fenced "```"].

Section Decoder.

(** [json.loads] on a [str]: the parsed document, or the exception it
    raises. For text that is not a JSON document that is [JSONDecodeError];
    an integer literal beyond the interpreter's digit limit gives
    [ValueError], and nesting beyond its recursion limit [RecursionError]. *)
Variable json_loads : string → result value.

(** [try: result = json.loads(candidate); return True, result
     except json.JSONDecodeError: <otherwise>] *)
Definition try_loads {C} (candidate : string) (returned : bool * value → C)
    (otherwise : C) : result C :=
  try_except (result ← json_loads candidate; Ok (returned (true, result)))
    JSONDecodeError (Ok otherwise).

(** Strategy 1: direct parse. [None] means that control falls through. *)
Definition direct_parse (text : string) : result (option (bool * value)) :=
  try_loads (PyStr.strip text) Some None.

(** [match.group(1).strip()] *)
Definition group1_strip (m : Re.match_obj) : result string :=
  match Re.group1 m with
  | Some s => Ok (PyStr.strip s)
  | None => Raise AttributeError
  end.

(** Strategy 2: the loop over [code_block_patterns]. *)
Fixpoint code_blocks (patterns : list Re.re) (text : string)
    : result (option (bool * value)) :=
  match patterns with
  | [] => Ok None
  | pattern :: rest =>
      match Re.search (Re.Pattern pattern false true) text with
      | Some m =>
          candidate ← group1_strip m;
          r ← try_loads candidate Some None;
          match r with
          | Some x => Ok (Some x)
          | None => code_blocks rest text
          end
      | None => code_blocks rest text
      end
  end.

(** The body of [for i in range(start_idx, len(text))]. *)
Definition scan_body (text : string) (start_char end_char : ascii) (start_idx : nat)
    (st : scan_state) (i : nat) : result (control scan_state (bool * value)) :=
  char ← PyStr.index text i;
  if escape_next st then
    Ok (Continue {| depth := depth st; in_string := in_string st; escape_next := false |})
  else if Ascii.eqb char PyStr.backslash && in_string st then
    Ok (Continue {| depth := depth st; in_string := in_string st; escape_next := true |})
  else if Ascii.eqb char PyStr.dquote && negb (escape_next st) then
    Ok (Continue {| depth := depth st; in_string := negb (in_string st);
                    escape_next := escape_next st |})
  else if in_string st then
    Ok (Continue st)
  else if Ascii.eqb char start_char then
    Ok (Continue {| depth := (depth st + 1)%Z; in_string := in_string st;
                    escape_next := escape_next st |})
  else if Ascii.eqb char end_char then
    let st' := {| depth := (depth st - 1)%Z; in_string := in_string st;
                  escape_next := escape_next st |} in
    if (depth st' =? 0)%Z then
      let candidate := PyStr.slice text start_idx (i + 1) in
      try_loads candidate Return Break
    else Ok (Continue st')
  else Ok (Continue st).

(** The inner loop; [None] when it ends by [break] or by exhaustion. *)
Fixpoint scan (text : string) (start_char end_char : ascii) (start_idx : nat)
    (st : scan_state) (range : list nat) : result (option (bool * value)) :=
  match range with
  | [] => Ok None
  | i :: range' =>
      c ← scan_body text start_char end_char start_idx st i;
      match c with
      | Continue st' => scan text start_char end_char start_idx st' range'
      | Break => Ok None
      | Return r => Ok (Some r)
      end
  end.

(** Strategy 3: the loop over the two pairs of delimiters. *)
Fixpoint bracket_matching (pairs : list (ascii * ascii)) (text : string)
    : result (option (bool * value)) :=
  match pairs with
  | [] => Ok None
  | (start_char, end_char) :: rest =>
      let start_idx := PyStr.find text (String start_char EmptyString) in
      if (start_idx =? -1)%Z then bracket_matching rest text
      else
        let start := Z.to_nat start_idx in
        r ← scan text start_char end_char start
              {| depth := 0; in_string := false; escape_next := false |}
              (seq start (String.length text - start));
        match r with
        | Some x => Ok (Some x)
        | None => bracket_matching rest text
        end
  end.

Definition parse_json_with_fallbacks (text : string) : result (bool * value) :=
  if PyStr.is_empty text || PyStr.is_empty (PyStr.strip text) then Ok (false, VNone)
  else
    r1 ← direct_parse text;
    match r1 with
    | Some x => Ok x
    | None =>
        r2 ← code_blocks code_block_patterns text;
        match r2 with
        | Some x => Ok x
        | None =>
            r3 ← bracket_matching [("{"%char, "}"%char); ("["%char, "]"%char)] text;
            match r3 with
            | Some x => Ok x
            | None => Ok (false, VNone)
            end
        end
    end.

End Decoder.

End json_parser.

(** ** Vocabulary of the statements

    Definitions used to state the properties: well-formed inputs, the verdict
    of the rules on a finding, views of the two functions that name their
    parts, the grammar of balanced text, and the data of the examples. *)

Local Open Scope list_scope.

(** *** Findings filter *)

(** [key] is absent from the finding or holds a [str]. *)
Definition str_field (d : gmap string value) (key : string) : bool :=
  match d !! key with
  | Some (VStr _) | None => true
  | Some _ => false
  end.

(** The fields that the rules read are strings where present, as in the data
    model of a finding. *)
Definition typed_finding (d : gmap string value) : bool :=
  str_field d "category" && str_field d "description" && str_field d "file".

(** Every element of the list refers to a live, typed finding. *)
Definition well_formed (h : gmap loc (gmap string value)) (findings : list loc) : bool :=
  forallb (λ l, match h !! l with Some d => typed_finding d | None => false end) findings.

Definition live (h : gmap loc (gmap string value)) (findings : list loc) : bool :=
  forallb (λ l, bool_decide (is_Some (h !! l))) findings.

(** [sum(breakdown.values())] *)
Definition sum_values (m : gmap string Z) : Z :=
  map_fold (λ _ v acc, (v + acc)%Z) 0%Z m.

Definition normalise (category : string) : string :=
  PyStr.replace "-" "_" (PyStr.lower category).

(** The category of a finding as the rules see it. *)
Definition norm_category (d : gmap string value) : result string :=
  str_method normalise (dict_get d "category" (VStr "")).

(** The reason, if any, for which the filter [self] excludes a finding. *)
Definition verdict (self : findings_filter.FindingsFilter) (d : gmap string value)
    : option string :=
  if findings_filter.use_hard_exclusions self then
    match findings_filter.get_exclusion_reason d with
    | Ok (Some r) => Some r
    | _ => None
    end
  else None.

Definition is_excluded (self : findings_filter.FindingsFilter)
    (h : gmap loc (gmap string value)) (l : loc) : bool :=
  match h !! l with
  | Some d => bool_decide (is_Some (verdict self d))
  | None => false
  end.

(** [copy] holds the finding at [original] with its exclusion reason added. *)
Definition tagged_copy (self : findings_filter.FindingsFilter)
    (h h' : gmap loc (gmap string value)) (original copy : loc) : Prop :=
  ∃ d r, h !! original = Some d ∧ verdict self d = Some r ∧
         h' !! copy = Some (<["exclusion_reason" := VStr r]> d).

(** A finding that no rule excludes under the configuration [self]. *)
Definition passes (self : findings_filter.FindingsFilter)
    (h : gmap loc (gmap string value)) (l : loc) : Prop :=
  findings_filter.use_hard_exclusions self = false ∨
  ∃ d, h !! l = Some d ∧ findings_filter.get_exclusion_reason d = Ok None.

(** A finding on which the rules give a verdict instead of raising. *)
Definition judged (self : findings_filter.FindingsFilter)
    (h : gmap loc (gmap string value)) (l : loc) : Prop :=
  findings_filter.use_hard_exclusions self = false ∨
  ∃ d r, h !! l = Some d ∧ findings_filter.get_exclusion_reason d = Ok r.

(** A finding without the three fields the rules read. *)
Definition lacks_rule_fields (d : gmap string value) : Prop :=
  d !! "category" = None ∧ d !! "description" = None ∧ d !! "file" = None.

(** Two findings that differ at most in the spelling of their category. *)
Definition same_but_category (d1 d2 : gmap string value) : Prop :=
  norm_category d1 = norm_category d2 ∧
  ∀ key, key ≠ "category" → d1 !! key = d2 !! key.

Definition heap_rel (h1 h2 : gmap loc (gmap string value)) : Prop :=
  ∀ l, option_Forall2 same_but_category (h1 !! l) (h2 !! l).

(** Two runs end alike: both return, with related results, or both raise the
    same exception. *)
Definition result_rel {A} (R : A → A → Prop) (x y : result A) : Prop :=
  match x, y with
  | Ok a, Ok b => R a b
  | Raise e1, Raise e2 => e1 = e2
  | _, _ => False
  end.

Definition state_rel (st1 st2 : findings_filter.loop_state) : Prop :=
  heap_rel (findings_filter.heap st1) (findings_filter.heap st2) ∧
  findings_filter.kept st1 = findings_filter.kept st2 ∧
  findings_filter.excluded st1 = findings_filter.excluded st2 ∧
  findings_filter.stats st1 = findings_filter.stats st2.

Section FilterViews.
Import findings_filter findings_filter.HardExclusionRules.

(** The part of [get_exclusion_reason] after the category test. *)
Definition after_category (description file_path : value) : result (option string) :=
  rule DOS_PATTERNS description "dos_pattern" (
  rule RATE_LIMITING_PATTERNS description "rate_limiting_pattern" (
  rule RESOURCE_PATTERNS description "resource_leak_pattern" (
  rule OPEN_REDIRECT_PATTERNS description "open_redirect_pattern" (
  rule REGEX_INJECTION_PATTERNS description "regex_injection_pattern" (
  rule LOG_SPOOFING_PATTERNS description "log_spoofing_pattern" (
  rule MISSING_AUDIT_LOG_PATTERNS description "missing_audit_log_pattern" (
  rule HARDENING_PATTERNS description "hardening_best_practice" (
    m1 ← re_search MEMORY_SAFETY_PATTERNS description;
    m2 ← (if bool_decide (is_Some m1)
          then re_search MEMORY_SAFE_LANGS file_path
          else Ok None);
    if bool_decide (is_Some m1) && bool_decide (is_Some m2) then
      Ok (Some "memory_safety_in_safe_language")
    else
    is_test ← _is_test_file file_path;
    if is_test : bool then Ok (Some "test_file_only") else
    is_doc ← str_method (λ s, PyStr.endswith_any s [".md"; ".rst"; ".txt"; ".adoc"]) file_path;
    if is_doc : bool then Ok (Some "documentation_file") else
    Ok None)))))))).

(** The part of [get_exclusion_reason] from the memory-safety rule on. *)
Definition memory_rule_tail (description file_path : value) : result (option string) :=
  m1 ← re_search MEMORY_SAFETY_PATTERNS description;
  m2 ← (if bool_decide (is_Some m1)
        then re_search MEMORY_SAFE_LANGS file_path
        else Ok None);
  if bool_decide (is_Some m1) && bool_decide (is_Some m2) then
    Ok (Some "memory_safety_in_safe_language")
  else
  is_test ← _is_test_file file_path;
  if is_test : bool then Ok (Some "test_file_only") else
  is_doc ← str_method (λ s, PyStr.endswith_any s [".md"; ".rst"; ".txt"; ".adoc"]) file_path;
  if is_doc : bool then Ok (Some "documentation_file") else
  Ok None.

(** The description patterns tried before the memory-safety rule. *)
Definition phrase_rules : list Re.pattern :=
  [DOS_PATTERNS; RATE_LIMITING_PATTERNS; RESOURCE_PATTERNS; OPEN_REDIRECT_PATTERNS;
   REGEX_INJECTION_PATTERNS; LOG_SPOOFING_PATTERNS; MISSING_AUDIT_LOG_PATTERNS;
   HARDENING_PATTERNS].

Definition matches_phrase_rule (description : string) : bool :=
  existsb (λ p, bool_decide (is_Some (Re.search p description))) phrase_rules.

(** The outcome of the category test. *)
Definition category_excluded (d : gmap string value) : result bool :=
  category ← norm_category d; Ok (bool_decide (category ∈ EXCLUDED_CATEGORIES)).

(** The loop state at the start of [filter_findings]. *)
Definition initial_state (h : gmap loc (gmap string value)) (findings : list loc)
    : loop_state :=
  {| heap := h; kept := []; excluded := [];
     stats := {| total_findings := Z.of_nat (length findings);
                 hard_excluded := 0; kept_findings := 0;
                 exclusion_breakdown := ∅; runtime_seconds := 0 |} |}.

(** What [filter_findings] returns from the loop state at the end. *)
Definition final_stats (st : loop_state) (start_time end_time : Q) : FilterStats :=
  {| total_findings := total_findings (stats st);
     hard_excluded := hard_excluded (stats st);
     kept_findings := Z.of_nat (length (kept st));
     exclusion_breakdown := exclusion_breakdown (stats st);
     runtime_seconds := (end_time - start_time)%Q |}.

Definition final_results (st : loop_state) (start_time end_time : Q) : filtered_results :=
  {| filtered_findings := kept st;
     excluded_findings := excluded st;
     analysis_summary :=
       {| summary_total_findings := total_findings (stats st);
          summary_kept_findings := Z.of_nat (length (kept st));
          summary_excluded_findings := Z.of_nat (length (excluded st));
          summary_exclusion_breakdown := exclusion_breakdown (stats st);
          summary_runtime_seconds := round2 (end_time - start_time)%Q |} |}.

(** What the loop of [filter_findings] establishes from [st] to [st'] over
    the findings [fs], all live in the heap [h0] of the call. *)
Definition loop_post (self : FindingsFilter) (h0 : gmap loc (gmap string value))
    (fs : list loc) (st st' : loop_state) : Prop :=
  h0 ⊆ heap st' ∧ heap st ⊆ heap st' ∧
  kept st' = kept st ++ filter (λ l, is_excluded self h0 l = false) fs ∧
  ∃ copies,
    excluded st' = excluded st ++ copies ∧
    Forall2 (tagged_copy self h0 (heap st'))
      (filter (λ l, is_excluded self h0 l = true) fs) copies ∧
    Forall (λ c, heap st !! c = None) copies ∧
    NoDup copies ∧
    dom (heap st') = dom (heap st) ∪ list_to_set copies ∧
    total_findings (stats st') = total_findings (stats st) ∧
    hard_excluded (stats st') = (hard_excluded (stats st) + Z.of_nat (length copies))%Z ∧
    kept_findings (stats st') = kept_findings (stats st) ∧
    sum_values (exclusion_breakdown (stats st')) =
      (sum_values (exclusion_breakdown (stats st)) + Z.of_nat (length copies))%Z ∧
    Forall (judged self h0) fs.

End FilterViews.

(** The findings of the example scenario. *)
Definition finding_dos : gmap string value :=
  {[ "category" := VStr "dos"; "description" := VStr "x" ]}.

Definition finding_sqli : gmap string value :=
  {[ "category" := VStr "sqli";
     "description" := VStr "SQL injection via unescaped input";
     "file" := VStr "app.py" ]}.

Definition sample_heap : gmap loc (gmap string value) :=
  {[ 1%positive := finding_dos; 2%positive := finding_sqli ]}.

Definition dos_only_heap : gmap loc (gmap string value) := {[ 1%positive := finding_dos ]}.

(** A finding that has none of the fields the rules read. *)
Definition bare_finding : gmap string value :=
  {[ "severity" := VStr "HIGH"; "line" := VInt 3 ]}.

Definition bare_heap : gmap loc (gmap string value) := {[ 1%positive := bare_finding ]}.

(** A finding with a memory-safety description, in the file [file]. *)
Definition finding_overflow (description file : string) : gmap string value :=
  {[ "category" := VStr "memory_corruption";
     "description" := VStr description;
     "file" := VStr file ]}.

(** [FindingsFilter()] *)
Definition default_filter : findings_filter.FindingsFilter :=
  {| findings_filter.use_hard_exclusions := true |}.

(** *** Reasons, counts and the fields the rules read *)

Section ReasonViews.
Import findings_filter findings_filter.HardExclusionRules.

(** The reason for which the filter [self] excludes the finding at [l]. *)
Definition reason_of (self : FindingsFilter) (h : gmap loc (gmap string value)) (l : loc)
    : option string :=
  match h !! l with
  | Some d => verdict self d
  | None => None
  end.

(** How many findings of [fs] the filter excludes for the reason [r]. *)
Definition count_reason (self : FindingsFilter) (h : gmap loc (gmap string value))
    (fs : list loc) (r : string) : nat :=
  length (filter (λ l, reason_of self h l = Some r) fs).

(** The reasons of the rules that read the description and the file. *)
Definition reason_tokens : list string :=
  ["dos_pattern"; "rate_limiting_pattern"; "resource_leak_pattern";
   "open_redirect_pattern"; "regex_injection_pattern"; "log_spoofing_pattern";
   "missing_audit_log_pattern"; "hardening_best_practice";
   "memory_safety_in_safe_language"; "test_file_only"; "documentation_file"].

(** The reasons that [get_exclusion_reason] can give. *)
Definition known_reason (r : string) : Prop :=
  r ∈ reason_tokens ∨
  ∃ c, c ∈ EXCLUDED_CATEGORIES ∧ r = "excluded_category:" +:+ c.

(** A bucket of the breakdown after [n] more exclusions for its reason. *)
Definition bucket_after (before : option Z) (n : nat) : option Z :=
  match n with
  | O => before
  | S _ => Some (default 0 before + Z.of_nat n)%Z
  end.

(** Two findings that agree on the three fields the rules read. *)
Definition same_rule_fields (d1 d2 : gmap string value) : Prop :=
  d1 !! "category" = d2 !! "category" ∧
  d1 !! "description" = d2 !! "description" ∧
  d1 !! "file" = d2 !! "file".

(** Two heaps with the same locations, whose objects are related by [R]. *)
Definition heap_sim (R : gmap string value → gmap string value → Prop)
    (h1 h2 : gmap loc (gmap string value)) : Prop :=
  ∀ l, option_Forall2 R (h1 !! l) (h2 !! l).

(** Two loop states that differ at most in related objects. *)
Definition state_sim (R : gmap string value → gmap string value → Prop)
    (st1 st2 : loop_state) : Prop :=
  heap_sim R (heap st1) (heap st2) ∧ kept st1 = kept st2 ∧
  excluded st1 = excluded st2 ∧ stats st1 = stats st2.

(** [FindingsFilter(use_hard_exclusions=False)] *)
Definition disabled_filter : FindingsFilter := {| use_hard_exclusions := false |}.

End ReasonViews.

(** *** Paths and phrases *)

(** [test_patterns] of [_is_test_file] *)
Definition test_markers : list string :=
  ["/test/"; "/tests/"; "/spec/"; "/specs/";
   "_test."; ".test."; ".spec.";
   "test_"; "_spec."].

(** The text of one newline. *)
Definition newline_string : string := String PyStr.newline "".

(** The extensions of [MEMORY_SAFE_LANGS], in any case. *)
Definition safe_ext (ext : string) : Prop :=
  PyStr.lower ext = ".rs" ∨ PyStr.lower ext = ".go".

(** The text [m] is an instance of the phrase [q]: of the same length, with
    any character but a newline where [q] has a dot, and the character of
    [q] up to case elsewhere. *)
Fixpoint phrase_matches (q m : string) : bool :=
  match q, m with
  | EmptyString, EmptyString => true
  | String c q', String a m' =>
      (if Ascii.eqb c "." then negb (Ascii.eqb a PyStr.newline)
       else Ascii.eqb (PyStr.lower_char a) (PyStr.lower_char c))
      && phrase_matches q' m'
  | _, _ => false
  end.

(** Some instance of one of the phrases occurs in [s]. *)
Definition phrase_occurs (phrases : list string) (s : string) : Prop :=
  ∃ pre m post q, s = pre +:+ m +:+ post ∧ q ∈ phrases ∧ phrase_matches q m = true.

Definition dos_phrases : list string :=
  ["denial.of.service"; "dos.attack"; "resource.exhaust"; "cpu.exhaust";
   "memory.exhaust"; "bandwidth.exhaust"; "disk.exhaust"].

(** *** Decoder *)

Fixpoint last_char (s : string) : option ascii :=
  match s with
  | EmptyString => None
  | String a s' =>
      match last_char s' with
      | None => Some a
      | r => r
      end
  end.

(** Empty or whitespace-only text. *)
Fixpoint all_space (s : string) : bool :=
  match s with
  | EmptyString => true
  | String a s' => PyStr.isspace a && all_space s'
  end.

(** The characters between the quotes of a string literal. *)
Inductive str_body : string → Prop :=
  | str_body_nil : str_body ""
  | str_body_char a s :
      a ≠ PyStr.dquote → a ≠ PyStr.backslash → str_body s → str_body (String a s)
  | str_body_escape a s :
      str_body s → str_body (String PyStr.backslash (String a s)).

(** Text in which the delimiters [sc] and [ec] are balanced, those inside
    string literals not counted. *)
Inductive balanced (sc ec : ascii) : string → Prop :=
  | balanced_nil : balanced sc ec ""
  | balanced_char a s :
      a ≠ sc → a ≠ ec → a ≠ PyStr.dquote → balanced sc ec s →
      balanced sc ec (String a s)
  | balanced_string body s :
      str_body body → balanced sc ec s →
      balanced sc ec (String PyStr.dquote (body +:+ String PyStr.dquote s))
  | balanced_nest inner s :
      balanced sc ec inner → balanced sc ec s →
      balanced sc ec (String sc (inner +:+ String ec s)).

(** A bracketed region: an opening delimiter, balanced text, the closing one. *)
Definition region (sc ec : ascii) (inner : string) : string :=
  String sc (inner +:+ String ec "").

Definition is_bracket (a : ascii) : bool :=
  Ascii.eqb a "{" || Ascii.eqb a "}" || Ascii.eqb a "[" || Ascii.eqb a "]".

(** Prose: text whose brackets all sit inside quoted string literals. *)
Inductive prose : string → Prop :=
  | prose_nil : prose ""
  | prose_char a s :
      is_bracket a = false → a ≠ PyStr.dquote → prose s → prose (String a s)
  | prose_string body s :
      str_body body → prose s →
      prose (String PyStr.dquote (body +:+ String PyStr.dquote s)).

Definition quoted (s : string) : string :=
  String PyStr.dquote (s +:+ String PyStr.dquote "").

(** The documents of the examples: an object with the member a = 1, and one
    whose member a is the string of a closing and an opening brace. *)
Definition doc_a_1 : string := "{" +:+ quoted "a" +:+ ": 1}".
Definition doc_a_braces : string := "{" +:+ quoted "a" +:+ ": " +:+ quoted "}{" +:+ "}".

(** [json.loads] on the strings that the examples hand to it: the two
    documents parse, every other candidate of the examples is not JSON. *)
Definition sample_loads (s : string) : result value :=
  if String.eqb s doc_a_1 then Ok (VDict [("a", VInt 1)])
  else if String.eqb s doc_a_braces then Ok (VDict [("a", VStr "}{")])
  else Raise JSONDecodeError.

(** *** Unclosed regions, fences and parts of a text *)

(** The characters after an opening quote that is never closed. *)
Inductive open_body : string → Prop :=
  | open_body_chars body : str_body body → open_body body
  | open_body_backslash body :
      str_body body → open_body (body +:+ String PyStr.backslash "").

(** Text after an opening delimiter [sc] that never closes it: it ends
    inside the region, inside a nested region or inside a string literal. *)
Inductive unclosed (sc ec : ascii) : string → Prop :=
  | unclosed_end b : balanced sc ec b → unclosed sc ec b
  | unclosed_nested b s :
      balanced sc ec b → unclosed sc ec s → unclosed sc ec (b +:+ String sc s)
  | unclosed_string b body :
      balanced sc ec b → open_body body →
      unclosed sc ec (b +:+ String PyStr.dquote body).

(** No triple backtick begins inside [s], even when backticks follow it. *)
Definition fence_free (s : string) : bool :=
  negb (PyStr.contains "```" (s +:+ "``")).

(** No part of [s] up to its end is made of whitespace only. *)
Definition ends_nonspace (s : string) : Prop :=
  ∀ s1 s2, s = s1 +:+ s2 → s2 ≠ "" → all_space s2 = false.

(** [c] is a contiguous part of [s]. *)
Definition occurs_in (c s : string) : Prop := ∃ pre post, s = pre +:+ c +:+ post.

(** How a strategy can end: with nothing, with the value that [json.loads]
    gives for a part of the text, or with an exception other than
    [JSONDecodeError] that [json.loads] raises on a part of the text. *)
Definition traced (json_loads : string → result value) (text : string)
    (r : result (option (bool * value))) : Prop :=
  match r with
  | Ok None => True
  | Ok (Some x) => ∃ c v, x = (true, v) ∧ occurs_in c text ∧ json_loads c = Ok v
  | Raise e => e ≠ JSONDecodeError ∧ ∃ c, occurs_in c text ∧ json_loads c = Raise e
  end.

(** How the decoder can end: with [(True, v)] for the value [v] of a part of
    the text, with [(False, None)], or with an exception other than
    [JSONDecodeError] that [json.loads] raises on a part of the text. *)
Definition decoded (json_loads : string → result value) (text : string)
    (r : result (bool * value)) : Prop :=
  match r with
  | Ok (true, v) => ∃ c, occurs_in c text ∧ json_loads c = Ok v
  | Ok (false, v) => v = VNone
  | Raise e => e ≠ JSONDecodeError ∧ ∃ c, occurs_in c text ∧ json_loads c = Raise e
  end.

(** The pass over braces finds nothing: the text has no opening brace, or
    the region that its first brace opens never closes, or that region is
    balanced and [json.loads] rejects it. *)
Inductive brace_pass_fails (json_loads : string → result value) (text : string) : Prop :=
  | no_brace :
      PyStr.contains "{" text = false → brace_pass_fails json_loads text
  | unclosed_brace pre x :
      text = pre +:+ String "{" x →
      PyStr.contains "{" pre = false →
      unclosed "{" "}" x →
      brace_pass_fails json_loads text
  | rejected_brace pre inner post :
      text = pre +:+ region "{" "}" inner +:+ post →
      PyStr.contains "{" pre = false →
      balanced "{" "}" inner →
      json_loads (region "{" "}" inner) = Raise JSONDecodeError →
      brace_pass_fails json_loads text.

(** An array whose one element is the string of an opening and a closing
    brace. *)
Definition doc_array : string := "[" +:+ quoted "{}" +:+ "]".

(** [json.loads] on the strings that the examples with arrays hand to it:
    the array of 1 and 2, the array of the string, and the empty object
    parse; every other candidate of these examples is not JSON. *)
Definition array_loads (s : string) : result value :=
  if String.eqb s "[1, 2]" then Ok (VList [VInt 1; VInt 2])
  else if String.eqb s doc_array then Ok (VList [VStr "{}"])
  else if String.eqb s "{}" then Ok (VDict [])
  else Raise JSONDecodeError.






(** * Properties *)

Import findings_filter findings_filter.HardExclusionRules json_parser.

(** ** The rules, one finding at a time *)

Lemma str_field_get d key :
  str_field d key = true → ∃ s, dict_get d key (VStr "") = VStr s.
Proof.
  unfold str_field, dict_get. destruct (d !! key) as [[]|]; try discriminate; eauto.
Qed.

Lemma rule_str p s reason rest :
  rule p (VStr s) reason rest =
  if bool_decide (is_Some (Re.search p s)) then Ok (Some reason) else rest.
Proof. reflexivity. Qed.

Lemma rule_returns p s reason rest :
  (∃ r, rest = Ok r) → ∃ r, rule p (VStr s) reason rest = Ok r.
Proof. intros [r ->]. rewrite rule_str. case_bool_decide; eauto. Qed.

Lemma get_exclusion_reason_returns d :
  typed_finding d = true → ∃ r, get_exclusion_reason d = Ok r.
Proof.
  unfold typed_finding. rewrite !andb_true_iff. intros [[Hc Hd] Hf].
  apply str_field_get in Hc as [c Hc], Hd as [de Hd], Hf as [f Hf].
  unfold get_exclusion_reason. rewrite Hc, Hd, Hf. cbn [str_method mbind result_bind].
  case_bool_decide; [eauto|].
  do 8 apply rule_returns.
  cbn [re_search mbind result_bind].
  destruct (bool_decide (is_Some (Re.search MEMORY_SAFETY_PATTERNS de)));
    cbn [re_search mbind result_bind andb];
    [destruct (bool_decide (is_Some (Re.search MEMORY_SAFE_LANGS f))); [eauto|]|];
    unfold _is_test_file; cbn [str_method mbind result_bind];
    repeat (match goal with |- context [if ?b then _ else _] => destruct b end; eauto).
Qed.

Lemma rule_inv p v reason rest r :
  rule p v reason rest = Ok r →
  ∃ s, v = VStr s ∧
    ((is_Some (Re.search p s) ∧ r = Some reason) ∨ (Re.search p s = None ∧ rest = Ok r)).
Proof.
  destruct v; try discriminate. rewrite rule_str. intros H. eexists; split; [done|].
  case_bool_decide as Hm.
  - left. split; [done|congruence].
  - right. split; [|done]. destruct (Re.search p s); [|done]. exfalso; eauto.
Qed.

Lemma get_exclusion_reason_unfold d :
  get_exclusion_reason d =
  match dict_get d "category" (VStr "") with
  | VStr c =>
      if bool_decide (normalise c ∈ EXCLUDED_CATEGORIES)
      then Ok (Some ("excluded_category:" +:+ normalise c))
      else after_category (dict_get d "description" (VStr "")) (dict_get d "file" (VStr ""))
  | _ => Raise AttributeError
  end.
Proof.
  unfold get_exclusion_reason. destruct (dict_get d "category" (VStr "")); reflexivity.
Qed.

Lemma reason_truthy d r :
  get_exclusion_reason d = Ok (Some r) → PyStr.is_empty r = false.
Proof.
  rewrite get_exclusion_reason_unfold.
  destruct (dict_get d "category" (VStr "")); try discriminate.
  case_bool_decide as Hcat; [intros [= <-]; reflexivity|].
  unfold after_category. intros H.
  repeat (apply rule_inv in H as (? & ? & [[_ [= ->]] | [_ H]]); [reflexivity|]).
  destruct (dict_get d "description" (VStr "")); try discriminate.
  cbn [re_search mbind result_bind] in H.
  destruct (bool_decide (is_Some (Re.search MEMORY_SAFETY_PATTERNS s0)));
    cbn [andb] in H.
  - destruct (dict_get d "file" (VStr "")); try discriminate.
    cbn [re_search mbind result_bind _is_test_file str_method] in H.
    repeat (match type of H with context [if ?b then _ else _] => destruct b end;
            try discriminate; try (injection H as <-; reflexivity)).
  - destruct (dict_get d "file" (VStr "")); try discriminate.
    cbn [re_search mbind result_bind _is_test_file str_method] in H.
    repeat (match type of H with context [if ?b then _ else _] => destruct b end;
            try discriminate; try (injection H as <-; reflexivity)).
Qed.

(** ** The loop of [filter_findings] *)

Local Open Scope Z_scope.

Lemma sum_values_empty : sum_values ∅ = 0.
Proof. apply map_fold_empty. Qed.

Lemma sum_values_insert_fresh (m : gmap string Z) k v :
  m !! k = None → sum_values (<[k := v]> m) = v + sum_values m.
Proof. intros H. unfold sum_values. apply map_fold_insert_L; [intros; lia | done]. Qed.

Lemma sum_values_bump (m : gmap string Z) k :
  sum_values (<[k := dict_get m k 0 + 1]> m) = sum_values m + 1.
Proof.
  unfold dict_get. destruct (m !! k) as [v|] eqn:Hk.
  - rewrite <- insert_delete_eq, sum_values_insert_fresh by apply lookup_delete_eq.
    unfold sum_values at 2.
    rewrite (map_fold_delete_L _ _ k v m); [fold (sum_values (delete k m)) | intros | done]; lia.
  - rewrite sum_values_insert_fresh by done. lia.
Qed.

Lemma live_cons h l fs : live h (l :: fs) = true ↔ is_Some (h !! l) ∧ live h fs = true.
Proof. cbn. rewrite andb_true_iff, bool_decide_eq_true. done. Qed.

Lemma well_formed_live h fs : well_formed h fs = true → live h fs = true.
Proof.
  induction fs as [|l fs IH]; [done|]. cbn. rewrite !andb_true_iff.
  intros [Hl Hfs]. split; [|auto]. apply bool_decide_eq_true.
  destruct (h !! l); [eauto | discriminate].
Qed.

Lemma alloc_fresh (h : gmap loc (gmap string value)) : h !! fresh (dom h) = None.
Proof. apply not_elem_of_dom, is_fresh. Qed.

Lemma exclude_heap st d r :
  heap (exclude st d r) =
  <[fresh (dom (heap st)) := <["exclusion_reason" := VStr r]> d]> (heap st).
Proof. unfold exclude, alloc. cbn. apply insert_insert_eq. Qed.

Lemma exclude_heap_subseteq st d r : heap st ⊆ heap (exclude st d r).
Proof. rewrite exclude_heap. apply insert_subseteq, alloc_fresh. Qed.

(** What one iteration does, when it returns. *)
Lemma loop_body_inv self st l st' :
  loop_body self st l = Ok st' →
  (use_hard_exclusions self = false ∧ st' = keep st l) ∨
  (use_hard_exclusions self = true ∧ ∃ d, heap st !! l = Some d ∧
     ((get_exclusion_reason d = Ok None ∧ st' = keep st l) ∨
      (∃ r, get_exclusion_reason d = Ok (Some r) ∧ st' = exclude st d r))).
Proof.
  unfold loop_body, deref. destruct (use_hard_exclusions self); [|intros [= <-]; auto].
  destruct (heap st !! l) as [d|] eqn:Hl; [|discriminate]. cbn [mbind result_bind].
  destruct (get_exclusion_reason d) as [[r|]|] eqn:Hr; cbn [mbind result_bind]; [| |discriminate].
  - rewrite (reason_truthy _ _ Hr). intros [= <-]. right. split; [done|].
    exists d. split; [done|]. right. by exists r.
  - intros [= <-]. right. split; [done|]. exists d. auto.
Qed.

Lemma verdict_of_reason self d r :
  use_hard_exclusions self = true → get_exclusion_reason d = Ok r → verdict self d = r.
Proof. unfold verdict. intros -> ->. by destruct r. Qed.

Lemma verdict_disabled self d : use_hard_exclusions self = false → verdict self d = None.
Proof. unfold verdict. by intros ->. Qed.

Lemma loop_body_returns self st l d :
  heap st !! l = Some d → typed_finding d = true → ∃ st', loop_body self st l = Ok st'.
Proof.
  intros Hl Ht. unfold loop_body, deref. destruct (use_hard_exclusions self); [|eauto].
  rewrite Hl. cbn [mbind result_bind].
  destruct (get_exclusion_reason_returns d Ht) as [[r|] ->]; cbn [mbind result_bind]; [|eauto].
  destruct (PyStr.is_empty r); eauto.
Qed.

Lemma is_excluded_lookup self h0 l d :
  h0 !! l = Some d → is_excluded self h0 l = bool_decide (is_Some (verdict self d)).
Proof. unfold is_excluded. by intros ->. Qed.

Lemma exclude_fields st d r :
  kept (exclude st d r) = kept st ∧
  excluded (exclude st d r) = excluded st ++ [fresh (dom (heap st))] ∧
  total_findings (stats (exclude st d r)) = total_findings (stats st) ∧
  hard_excluded (stats (exclude st d r)) = hard_excluded (stats st) + 1 ∧
  kept_findings (stats (exclude st d r)) = kept_findings (stats st) ∧
  exclusion_breakdown (stats (exclude st d r)) =
    <[r := dict_get (exclusion_breakdown (stats st)) r 0 + 1]> (exclusion_breakdown (stats st)).
Proof. done. Qed.

Lemma loop_spec self h0 fs : ∀ st st',
  h0 ⊆ heap st → live h0 fs = true → loop self st fs = Ok st' →
  loop_post self h0 fs st st'.
Proof.
  induction fs as [|l fs IH]; intros st st' Hsub Hlive Hloop.
  - injection Hloop as <-. unfold loop_post. rewrite !filter_nil, app_nil_r.
    repeat split; [done..|]. exists []. rewrite app_nil_r. cbn.
    repeat split; try done; try constructor; try lia.
    by rewrite (right_id_L ∅ (∪)).
  - apply live_cons in Hlive as [[d0 Hl0] Hlive].
    cbn [loop mbind result_bind] in Hloop.
    destruct (loop_body self st l) as [st1|] eqn:Hbody; [|discriminate].
    cbn in Hloop.
    assert (Hkeep : st1 = keep st l → verdict self d0 = None → judged self h0 l →
                    loop_post self h0 (l :: fs) st st').
    { intros -> Hv Hj.
      assert (Hex : is_excluded self h0 l = false).
      { rewrite (is_excluded_lookup _ _ _ _ Hl0), Hv. apply bool_decide_eq_false.
        by intros []. }
      specialize (IH (keep st l) st' Hsub Hlive Hloop).
      destruct IH as (H1 & H2 & H3 & copies & H4 & H5 & H6 & H7 & H8 & H9 & H10 & H11
                      & H12 & H13).
      unfold loop_post. cbn [keep heap kept excluded stats] in *.
      rewrite filter_cons_True by done. rewrite filter_cons_False by (rewrite Hex; done).
      repeat split; [done|done|by rewrite H3, <- app_assoc|].
      exists copies. repeat split; try done. by constructor. }
    apply loop_body_inv in Hbody as [[Huse ->] | [Huse (d & Hl & Hcase)]].
    + apply Hkeep; [done|by apply verdict_disabled|by left].
    + assert (d = d0) as -> by (eapply lookup_weaken in Hl0; [|done]; congruence).
      destruct Hcase as [[Hr ->] | (r & Hr & ->)].
      * apply Hkeep; [done|by apply verdict_of_reason|right; eauto].
      * pose proof (verdict_of_reason self d0 _ Huse Hr) as Hv.
        assert (Hex : is_excluded self h0 l = true).
        { rewrite (is_excluded_lookup _ _ _ _ Hl0), Hv. apply bool_decide_eq_true. eauto. }
        pose proof (exclude_heap_subseteq st d0 r) as Hgrow.
        specialize (IH (exclude st d0 r) st' (transitivity Hsub Hgrow) Hlive Hloop).
        destruct IH as (H1 & H2 & H3 & copies & H4 & H5 & H6 & H7 & H8 & H9 & H10 & H11
                        & H12 & H13).
        set (c := fresh (dom (heap st))) in *.
        assert (Hc : heap (exclude st d0 r) !! c
                     = Some (<["exclusion_reason" := VStr r]> d0)).
        { rewrite exclude_heap. apply lookup_insert_eq. }
        assert (Hfresh : heap st !! c = None) by apply alloc_fresh.
        destruct (exclude_fields st d0 r) as (E1 & E2 & E3 & E4 & E5 & E6).
        fold c in E2. rewrite E1 in H3. rewrite E2 in H4. rewrite E3 in H9.
        rewrite E4 in H10. rewrite E5 in H11. rewrite E6, sum_values_bump in H12.
        unfold loop_post.
        rewrite filter_cons_False by (rewrite Hex; done). rewrite filter_cons_True by done.
        repeat split; [done|by etrans|done|].
        exists (c :: copies). repeat split.
        -- by rewrite H4, <- app_assoc.
        -- constructor; [|done]. exists d0, r. repeat split; [done..|].
           by eapply lookup_weaken.
        -- constructor; [done|]. eapply Forall_impl; [exact H6|]. cbn. intros c' Hc'.
           eapply lookup_weaken_None; [exact Hc'|exact Hgrow].
        -- constructor; [|done]. intros Hin.
           eapply Forall_forall in H6; [|exact Hin]. congruence.
        -- rewrite H8, exclude_heap, dom_insert_L. fold c. cbn [list_to_set].
           by rewrite (comm_L (∪) {[c]} (dom (heap st))), (assoc_L (∪)).
        -- done.
        -- rewrite H10. cbn [length]. lia.
        -- done.
        -- rewrite H12. cbn [length]. lia.
        -- constructor; [|done]. right. eauto.
Qed.

Lemma loop_returns self h0 fs : ∀ st,
  h0 ⊆ heap st → well_formed h0 fs = true → ∃ st', loop self st fs = Ok st'.
Proof.
  induction fs as [|l fs IH]; intros st Hsub Hwf; [by eexists|].
  cbn in Hwf. apply andb_true_iff in Hwf as [Hl Hwf].
  destruct (h0 !! l) as [d|] eqn:Hd; [|discriminate].
  eapply lookup_weaken in Hd; [|exact Hsub].
  destruct (loop_body_returns self st l d Hd Hl) as [st1 Hbody].
  cbn [loop mbind result_bind]. rewrite Hbody. cbn. apply IH; [|done].
  apply loop_body_inv in Hbody as [[_ ->] | [_ (d' & _ & [[_ ->] | (r & _ & ->)])]];
    try done.
  etrans; [exact Hsub|apply exclude_heap_subseteq].
Qed.

Lemma filter_findings_loop self h fs t0 t1 :
  filter_findings self h fs t0 t1 =
  match loop self (initial_state h fs) fs with
  | Ok st => Ok (heap st, (true, final_results st t0 t1, final_stats st t0 t1))
  | Raise e => Raise e
  end.
Proof.
  unfold filter_findings. fold (initial_state h fs).
  destruct (loop self (initial_state h fs) fs); reflexivity.
Qed.

Lemma loop_all_pass self fs : ∀ st,
  Forall (passes self (heap st)) fs →
  loop self st fs =
  Ok {| heap := heap st; kept := kept st ++ fs; excluded := excluded st; stats := stats st |}.
Proof.
  induction fs as [|l fs IH]; intros st Hall.
  - cbn. rewrite app_nil_r. by destruct st.
  - apply Forall_cons in Hall as [Hl Hall]. cbn [loop mbind result_bind].
    assert (loop_body self st l = Ok (keep st l)) as ->.
    { unfold loop_body, deref. destruct Hl as [-> | (d & -> & Hd)]; [done|].
      destruct (use_hard_exclusions self); [|done]. cbn. by rewrite Hd. }
    cbn. rewrite IH by done. cbn. by rewrite <- app_assoc.
Qed.

Lemma filter_findings_returns self h fs t0 t1 :
  well_formed h fs = true → ∃ r, filter_findings self h fs t0 t1 = Ok r.
Proof.
  intros Hwf. destruct (loop_returns self h fs (initial_state h fs)) as [st Hst]; [done..|].
  rewrite filter_findings_loop, Hst. eauto.
Qed.

Lemma filter_findings_inv self h fs t0 t1 h' success res stats :
  live h fs = true →
  filter_findings self h fs t0 t1 = Ok (h', (success, res, stats)) →
  ∃ st, h' = heap st ∧ success = true ∧
        res = final_results st t0 t1 ∧ stats = final_stats st t0 t1 ∧
        loop_post self h fs (initial_state h fs) st.
Proof.
  intros Hlive. rewrite filter_findings_loop.
  destruct (loop self (initial_state h fs) fs) as [st|] eqn:Hst; [|discriminate].
  intros [= <- <- <- <-]. exists st. do 4 (split; [done|]). by apply loop_spec.
Qed.

Lemma filter_partition {A} (P : A → bool) (l : list A) :
  l ≡ₚ filter (λ x, P x = false) l ++ filter (λ x, P x = true) l.
Proof.
  induction l as [|x l IH]; [done|]. destruct (P x) eqn:Hx.
  - rewrite filter_cons_False, filter_cons_True by (done || congruence).
    rewrite <- Permutation_middle. by constructor.
  - rewrite filter_cons_True, filter_cons_False by (done || congruence).
    cbn. by constructor.
Qed.

(** ** Partition, idempotence, copies and statistics *)

Lemma finding_dos_reason : get_exclusion_reason finding_dos = Ok (Some "excluded_category:dos").
Proof. vm_compute. reflexivity. Qed.
Lemma finding_sqli_reason : get_exclusion_reason finding_sqli = Ok None.
Proof. vm_compute. reflexivity. Qed.

(** C1, as amended: on every list of typed findings [filter_findings]
    returns, and whenever it returns, each input finding lands in exactly one
    of the two output sequences: the findings that no rule excludes are in
    [filtered_findings], as themselves and in input order; each of the others
    is represented in [excluded_findings], in input order, by a new object
    that is a tagged copy of it (so the union of the outputs is not the input
    set by identity); and the two lengths add up to [total_findings]. *)
Theorem filter_findings_partition self h fs t0 t1 :
  live h fs = true →
  (well_formed h fs = true → ∃ r, filter_findings self h fs t0 t1 = Ok r) ∧
  ∀ h' success res stats,
    filter_findings self h fs t0 t1 = Ok (h', (success, res, stats)) →
    filtered_findings res = filter (λ l, is_excluded self h l = false) fs ∧
    Forall2 (tagged_copy self h h')
      (filter (λ l, is_excluded self h l = true) fs) (excluded_findings res) ∧
    Forall (λ c, c ∉ dom h) (excluded_findings res) ∧
    NoDup (excluded_findings res) ∧
    fs ≡ₚ filtered_findings res ++ filter (λ l, is_excluded self h l = true) fs ∧
    Z.of_nat (length (filtered_findings res)) + Z.of_nat (length (excluded_findings res))
      = total_findings stats.
Proof.
  intros Hlive. split; [apply filter_findings_returns|].
  intros h' success res stats Hret.
  destruct (filter_findings_inv _ _ _ _ _ _ _ _ _ Hlive Hret)
    as (st & -> & _ & -> & -> & Hpost).
  destruct Hpost as (_ & _ & Hk & copies & He & Hc & Hf & Hnd & _ & Ht & _).
  cbn in Hk, He, Hf, Ht. subst copies. cbn.
  repeat split; [done|done| |done| |].
  - eapply Forall_impl; [exact Hf|]. intros c ?. by apply not_elem_of_dom.
  - rewrite Hk. apply filter_partition.
  - rewrite Ht, Hk, <- (Forall2_length _ _ _ Hc), <- Nat2Z.inj_add, <- length_app.
    f_equal. symmetry. apply Permutation_length, filter_partition.
Qed.

(** The example scenario is such an input. *)
Lemma filter_findings_partition_witness :
  ∃ h' success res stats,
    filter_findings default_filter sample_heap [1%positive; 2%positive] 0 1
      = Ok (h', (success, res, stats)) ∧
    Z.of_nat (length (filtered_findings res)) + Z.of_nat (length (excluded_findings res))
      = total_findings stats.
Proof.
  destruct (filter_findings_partition default_filter sample_heap [1%positive; 2%positive] 0 1)
    as [Hreturns Hpartition]; [reflexivity|].
  destruct Hreturns as [[h' [[success res] stats]] Hr]; [reflexivity|].
  exists h', success, res, stats. split; [exact Hr|].
  apply (Hpartition h' success res stats Hr).
Defined.

(** The claim with "by identity" fails: the one finding of the input, at
    location 1, is excluded, and the excluded sequence holds the new object at
    location 2, which differs from it in identity and in content. *)
Lemma partition_by_identity_fails :
  ∃ h' res stats,
    filter_findings default_filter dos_only_heap [1%positive] 0 1
      = Ok (h', (true, res, stats)) ∧
    filtered_findings res = [] ∧
    excluded_findings res = [2%positive] ∧
    h' !! 2%positive = Some (<["exclusion_reason" := VStr "excluded_category:dos"]> finding_dos) ∧
    (list_to_set (filtered_findings res ++ excluded_findings res) : gset loc)
      ≠ list_to_set [1%positive].
Proof.
  eexists _, _, _. split; [vm_compute; reflexivity|]. cbn.
  split; [reflexivity|]. split; [reflexivity|]. split; [vm_compute; reflexivity|].
  intros H%(f_equal (λ X : gset loc, bool_decide (2%positive ∈ X))).
  vm_compute in H. discriminate.
Qed.

Lemma kept_findings_pass self h fs st :
  live h fs = true → loop_post self h fs (initial_state h fs) st →
  Forall (passes self (heap st)) (kept st).
Proof.
  intros Hlive (Hsub & _ & Hk & copies & _ & _ & _ & _ & _ & _ & _ & _ & _ & Hj).
  cbn in Hk. rewrite Hk. apply Forall_forall. intros l [Hex Hl]%list_elem_of_filter.
  eapply Forall_forall in Hj; [|exact Hl].
  destruct Hj as [Huse | (d & r & Hd & Hr)]; [by left|].
  destruct (use_hard_exclusions self) eqn:Huse; [|by left].
  right. exists d. split; [by eapply lookup_weaken|].
  rewrite (is_excluded_lookup _ _ _ _ Hd), (verdict_of_reason _ _ _ Huse Hr) in Hex.
  apply bool_decide_eq_false in Hex. destruct r as [r|]; [exfalso; eauto|done].
Qed.

(** C4: filtering is idempotent on the kept sequence. A second call, on the
    heap and the kept sequence that a first call returned, with the same
    configuration, returns that same sequence, excludes nothing and leaves
    the heap as it is. *)
Theorem filter_findings_idempotent self h fs t0 t1 t2 t3 h' success res stats :
  live h fs = true →
  filter_findings self h fs t0 t1 = Ok (h', (success, res, stats)) →
  ∃ res' stats',
    filter_findings self h' (filtered_findings res) t2 t3 = Ok (h', (true, res', stats')) ∧
    filtered_findings res' = filtered_findings res ∧
    excluded_findings res' = [] ∧
    hard_excluded stats' = 0 ∧
    exclusion_breakdown stats' = ∅.
Proof.
  intros Hlive Hret.
  destruct (filter_findings_inv _ _ _ _ _ _ _ _ _ Hlive Hret)
    as (st & -> & _ & -> & -> & Hpost).
  pose proof (kept_findings_pass self h fs st Hlive Hpost) as Hpass.
  eexists _, _. rewrite filter_findings_loop. cbn [filtered_findings final_results].
  rewrite loop_all_pass by exact Hpass. cbn. done.
Qed.

(** The example scenario, filtered twice. *)
Lemma filter_findings_idempotent_witness :
  ∃ h' success res stats res' stats',
    filter_findings default_filter sample_heap [1%positive; 2%positive] 0 1
      = Ok (h', (success, res, stats)) ∧
    filter_findings default_filter h' (filtered_findings res) 2 3
      = Ok (h', (true, res', stats')) ∧
    filtered_findings res' = filtered_findings res ∧
    excluded_findings res' = [] ∧
    hard_excluded stats' = 0 ∧
    exclusion_breakdown stats' = ∅.
Proof.
  destruct (filter_findings default_filter sample_heap [1%positive; 2%positive] 0 1)
    as [[h' [[success res] stats]]|] eqn:Hfirst; [|vm_compute in Hfirst; discriminate].
  destruct (filter_findings_idempotent default_filter sample_heap [1%positive; 2%positive]
              0 1 2 3 h' success res stats) as (res' & stats' & Hsecond);
    [reflexivity|exact Hfirst|].
  exists h', success, res, stats, res', stats'. split; [reflexivity|exact Hsecond].
Defined.

(** C9: every entry of [excluded_findings] is a new object, a copy of the
    input finding it stands for, that carries [exclusion_reason] and agrees
    with the original on every other key; and every object of the input heap,
    the originals among them, is unchanged after the call. *)
Theorem excluded_entries_are_tagged_copies self h fs t0 t1 h' success res stats :
  live h fs = true →
  filter_findings self h fs t0 t1 = Ok (h', (success, res, stats)) →
  (∀ l d, h !! l = Some d → h' !! l = Some d) ∧
  Forall2
    (λ original copy,
       (copy ∉ dom h) ∧
       (∃ d d' r,
          h !! original = Some d ∧ h' !! copy = Some d' ∧
          get_exclusion_reason d = Ok (Some r) ∧
          d' !! "exclusion_reason" = Some (VStr r) ∧
          (∀ key, key ≠ "exclusion_reason" → d' !! key = d !! key)))
    (filter (λ l, is_excluded self h l = true) fs) (excluded_findings res).
Proof.
  intros Hlive Hret.
  destruct (filter_findings_inv _ _ _ _ _ _ _ _ _ Hlive Hret)
    as (st & -> & _ & -> & -> & Hpost).
  destruct Hpost as (Hsub & _ & _ & copies & He & Hc & Hf & _). cbn in He, Hf. subst copies.
  cbn. split.
  - intros l d Hl. by eapply lookup_weaken.
  - eapply Forall2_impl with
      (P := λ o c, tagged_copy self h (heap st) o c ∧ heap (initial_state h fs) !! c = None).
    + clear -Hc Hf. revert Hf. induction Hc; intros Hf; [constructor|].
      apply Forall_cons in Hf as [? ?]. constructor; auto.
    + cbn. intros o c [(d & r & Ho & Hv & Hcopy) Hfresh]. split; [by apply not_elem_of_dom|].
      exists d, (<["exclusion_reason" := VStr r]> d), r. repeat split; [done..| | |].
      * unfold verdict in Hv. destruct (use_hard_exclusions self); [|discriminate].
        destruct (get_exclusion_reason d) as [[r'|]|]; congruence.
      * apply lookup_insert_eq.
      * intros key Hkey. by apply lookup_insert_ne.
Qed.

(** In the example scenario both input findings are as they were. *)
Lemma excluded_entries_are_tagged_copies_witness :
  ∃ h' success res stats,
    filter_findings default_filter sample_heap [1%positive; 2%positive] 0 1
      = Ok (h', (success, res, stats)) ∧
    (∀ l d, sample_heap !! l = Some d → h' !! l = Some d).
Proof.
  destruct (filter_findings default_filter sample_heap [1%positive; 2%positive] 0 1)
    as [[h' [[success res] stats]]|] eqn:Hret; [|vm_compute in Hret; discriminate].
  exists h', success, res, stats. split; [reflexivity|].
  apply (excluded_entries_are_tagged_copies default_filter sample_heap
           [1%positive; 2%positive] 0 1 h' success res stats); [reflexivity|exact Hret].
Defined.

(** C10: the returned statistics are consistent. [hard_excluded] and
    [kept_findings] add up to [total_findings], the values of
    [exclusion_breakdown] sum to [hard_excluded], and the counts of
    [analysis_summary] are the lengths of the two returned sequences. *)
Theorem filter_stats_consistent self h fs t0 t1 h' success res stats :
  live h fs = true →
  filter_findings self h fs t0 t1 = Ok (h', (success, res, stats)) →
  hard_excluded stats + kept_findings stats = total_findings stats ∧
  sum_values (exclusion_breakdown stats) = hard_excluded stats ∧
  summary_total_findings (analysis_summary res) = total_findings stats ∧
  summary_kept_findings (analysis_summary res)
    = Z.of_nat (length (filtered_findings res)) ∧
  summary_excluded_findings (analysis_summary res)
    = Z.of_nat (length (excluded_findings res)) ∧
  kept_findings stats = Z.of_nat (length (filtered_findings res)) ∧
  hard_excluded stats = Z.of_nat (length (excluded_findings res)) ∧
  total_findings stats = Z.of_nat (length fs) ∧
  summary_exclusion_breakdown (analysis_summary res) = exclusion_breakdown stats.
Proof.
  intros Hlive Hret.
  destruct (filter_findings_inv _ _ _ _ _ _ _ _ _ Hlive Hret)
    as (st & -> & _ & -> & -> & Hpost).
  destruct Hpost as (_ & _ & Hk & copies & He & Hc & _ & _ & _ & Ht & Hh & _ & Hs & _).
  cbn in Hk, He, Ht, Hh, Hs. subst copies. rewrite sum_values_empty in Hs.
  assert (Hlen : length fs = (length (kept st) + length (excluded st))%nat).
  { rewrite Hk, <- (Forall2_length _ _ _ Hc), <- length_app.
    apply Permutation_length, filter_partition. }
  cbn. repeat split; try done; lia.
Qed.

(** The statistics of the example scenario. *)
Lemma filter_stats_consistent_witness :
  ∃ h' success res stats,
    filter_findings default_filter sample_heap [1%positive; 2%positive] 0 1
      = Ok (h', (success, res, stats)) ∧
    hard_excluded stats + kept_findings stats = total_findings stats ∧
    sum_values (exclusion_breakdown stats) = hard_excluded stats.
Proof.
  destruct (filter_findings default_filter sample_heap [1%positive; 2%positive] 0 1)
    as [[h' [[success res] stats]]|] eqn:Hret; [|vm_compute in Hret; discriminate].
  exists h', success, res, stats. split; [reflexivity|].
  destruct (filter_stats_consistent default_filter sample_heap
              [1%positive; 2%positive] 0 1 h' success res stats) as (H1 & H2 & _);
    [reflexivity|exact Hret|].
  split; [exact H1|exact H2].
Defined.

(** C6: the example scenario. On the list of the dos finding and the sqli
    finding, a filter with the default configuration keeps exactly the sqli
    finding, excludes exactly a copy of the dos finding tagged
    [excluded_category:dos], and counts total 2, kept 1, hard-excluded 1. *)
Theorem example_scenario h l1 l2 t0 t1 :
  h !! l1 = Some finding_dos →
  h !! l2 = Some finding_sqli →
  ∃ h' res stats copy,
    filter_findings default_filter h [l1; l2] t0 t1 = Ok (h', (true, res, stats)) ∧
    filtered_findings res = [l2] ∧
    excluded_findings res = [copy] ∧
    (copy ∉ dom h) ∧
    h' !! copy
      = Some (<["exclusion_reason" := VStr "excluded_category:dos"]> finding_dos) ∧
    h' !! l1 = Some finding_dos ∧
    h' !! l2 = Some finding_sqli ∧
    total_findings stats = 2 ∧
    kept_findings stats = 1 ∧
    hard_excluded stats = 1 ∧
    exclusion_breakdown stats = {[ "excluded_category:dos" := 1 ]}.
Proof.
  intros H1 H2.
  set (c := fresh (dom h)).
  assert (Hc : h !! c = None) by apply alloc_fresh.
  assert (Hl1 : c ≠ l1) by congruence.
  assert (Hl2 : c ≠ l2) by congruence.
  set (st1 := exclude (initial_state h [l1; l2]) finding_dos "excluded_category:dos").
  assert (Hb1 : loop_body default_filter (initial_state h [l1; l2]) l1 = Ok st1).
  { unfold loop_body, deref. cbn [use_hard_exclusions default_filter initial_state heap].
    rewrite H1. cbn [mbind result_bind]. rewrite finding_dos_reason. reflexivity. }
  assert (Hh1 : heap st1 = <[c := <["exclusion_reason" := VStr "excluded_category:dos"]>
                                    finding_dos]> h) by apply exclude_heap.
  assert (Hb2 : loop_body default_filter st1 l2 = Ok (keep st1 l2)).
  { unfold loop_body, deref. cbn [use_hard_exclusions default_filter].
    rewrite Hh1, lookup_insert_ne, H2 by done. cbn [mbind result_bind].
    rewrite finding_sqli_reason. reflexivity. }
  exists (heap st1), (final_results (keep st1 l2) t0 t1), (final_stats (keep st1 l2) t0 t1), c.
  split.
  { rewrite filter_findings_loop. cbn [loop mbind result_bind]. rewrite Hb1.
    cbn [mbind result_bind]. rewrite Hb2. reflexivity. }
  rewrite Hh1.
  repeat split; try reflexivity.
  - by apply not_elem_of_dom.
  - apply lookup_insert_eq.
  - by rewrite lookup_insert_ne.
  - by rewrite lookup_insert_ne.
Qed.

(** The scenario with the two findings at locations 1 and 2. *)
Lemma example_scenario_witness :
  ∃ h' res stats copy,
    filter_findings default_filter sample_heap [1%positive; 2%positive] 0 1
      = Ok (h', (true, res, stats)) ∧
    filtered_findings res = [2%positive] ∧
    excluded_findings res = [copy] ∧
    (copy ∉ dom sample_heap) ∧
    h' !! copy
      = Some (<["exclusion_reason" := VStr "excluded_category:dos"]> finding_dos) ∧
    h' !! 1%positive = Some finding_dos ∧
    h' !! 2%positive = Some finding_sqli ∧
    total_findings stats = 2 ∧
    kept_findings stats = 1 ∧
    hard_excluded stats = 1 ∧
    exclusion_breakdown stats = {[ "excluded_category:dos" := 1 ]}.
Proof.
  apply (example_scenario sample_heap 1%positive 2%positive 0 1); reflexivity.
Defined.

Lemma lacks_rule_fields_reason d :
  lacks_rule_fields d → get_exclusion_reason d = Ok None.
Proof.
  intros (Hc & Hd & Hf). rewrite get_exclusion_reason_unfold. unfold dict_get.
  rewrite Hc, Hd, Hf. vm_compute. reflexivity.
Qed.

(** C8: malformed findings fail open. A finding without [category],
    [description] and [file] is judged as if the three were empty strings, no
    rule matches it and none raises, and whenever the call returns (it does
    when the other findings are typed) the finding is kept: it is in
    [filtered_findings], not in [excluded_findings], and unchanged in the
    heap. *)
Theorem malformed_findings_fail_open self h fs t0 t1 l d :
  live h fs = true → l ∈ fs → h !! l = Some d → lacks_rule_fields d →
  get_exclusion_reason d
    = get_exclusion_reason
        (<["category" := VStr ""]> (<["description" := VStr ""]>
           (<["file" := VStr ""]> d))) ∧
  get_exclusion_reason d = Ok None ∧
  (well_formed h fs = true → ∃ r, filter_findings self h fs t0 t1 = Ok r) ∧
  ∀ h' success res stats,
    filter_findings self h fs t0 t1 = Ok (h', (success, res, stats)) →
    l ∈ filtered_findings res ∧
    (l ∉ excluded_findings res) ∧
    h' !! l = Some d.
Proof.
  intros Hlive Hl Hd Hlack. pose proof (lacks_rule_fields_reason d Hlack) as Hr.
  split; [|split; [done|split; [apply filter_findings_returns|]]].
  { rewrite Hr, get_exclusion_reason_unfold. unfold dict_get.
    rewrite lookup_insert_eq, lookup_insert_ne, lookup_insert_eq by done.
    rewrite !lookup_insert_ne, lookup_insert_eq by done. vm_compute. reflexivity. }
  intros h' success res stats Hret.
  destruct (filter_findings_inv _ _ _ _ _ _ _ _ _ Hlive Hret)
    as (st & -> & _ & -> & -> & Hpost).
  destruct Hpost as (Hsub & _ & Hk & copies & He & _ & Hf & _). cbn in Hk, He, Hf.
  subst copies. cbn. repeat split.
  - rewrite Hk. apply list_elem_of_filter. split; [|done].
    rewrite (is_excluded_lookup _ _ _ _ Hd). apply bool_decide_eq_false.
    unfold verdict. rewrite Hr. destruct (use_hard_exclusions self); by intros [].
  - intros Hin. eapply Forall_forall in Hf; [|exact Hin]. congruence.
  - by eapply lookup_weaken.
Qed.

(** A finding that has only a severity and a line. *)
Lemma malformed_findings_fail_open_witness :
  get_exclusion_reason bare_finding = Ok None ∧
  ∃ h' success res stats,
    filter_findings default_filter bare_heap [1%positive] 0 1
      = Ok (h', (success, res, stats)) ∧
    1%positive ∈ filtered_findings res ∧
    h' !! 1%positive = Some bare_finding.
Proof.
  destruct (malformed_findings_fail_open default_filter bare_heap [1%positive] 0 1
              1%positive bare_finding) as (_ & Hreason & Hreturns & Hkept).
  - reflexivity.
  - apply list_elem_of_here.
  - reflexivity.
  - repeat split; reflexivity.
  - split; [exact Hreason|].
    destruct Hreturns as [[h' [[success res] stats]] Hret]; [reflexivity|].
    exists h', success, res, stats. split; [exact Hret|].
    destruct (Hkept h' success res stats Hret) as (H1 & _ & H2). split; [exact H1|exact H2].
Defined.

Lemma get_exclusion_reason_norm d :
  get_exclusion_reason d =
  category ← norm_category d;
  if bool_decide (category ∈ EXCLUDED_CATEGORIES)
  then Ok (Some ("excluded_category:" +:+ category))
  else after_category (dict_get d "description" (VStr "")) (dict_get d "file" (VStr "")).
Proof.
  rewrite get_exclusion_reason_unfold. unfold norm_category.
  destruct (dict_get d "category" (VStr "")); reflexivity.
Qed.

Lemma same_but_category_reason d1 d2 :
  same_but_category d1 d2 → get_exclusion_reason d1 = get_exclusion_reason d2.
Proof.
  intros [Hc Hk]. rewrite !get_exclusion_reason_norm, Hc. unfold dict_get.
  by rewrite !(Hk "description"), !(Hk "file").
Qed.

Lemma same_but_category_tag d1 d2 r :
  same_but_category d1 d2 →
  same_but_category (<["exclusion_reason" := VStr r]> d1) (<["exclusion_reason" := VStr r]> d2).
Proof.
  intros [Hc Hk]. split.
  - unfold norm_category, dict_get in *. by rewrite !lookup_insert_ne.
  - intros key Hkey. destruct (decide (key = "exclusion_reason")) as [->|].
    + by rewrite !lookup_insert_eq.
    + rewrite !lookup_insert_ne by done. auto.
Qed.

Lemma heap_rel_dom h1 h2 : heap_rel h1 h2 → dom h1 = dom h2.
Proof.
  intros H. apply set_eq. intros l. rewrite !elem_of_dom.
  specialize (H l). destruct H; split; intros [? ?]; eauto; discriminate.
Qed.

Lemma heap_rel_insert h1 h2 l d1 d2 :
  heap_rel h1 h2 → same_but_category d1 d2 → heap_rel (<[l := d1]> h1) (<[l := d2]> h2).
Proof.
  intros H Hd l'. destruct (decide (l = l')) as [->|].
  - rewrite !lookup_insert_eq. by constructor.
  - rewrite !lookup_insert_ne by done. apply H.
Qed.

Lemma loop_body_sim self st1 st2 l :
  state_rel st1 st2 →
  result_rel state_rel (loop_body self st1 l) (loop_body self st2 l).
Proof.
  intros (Hh & Hk & He & Hs). unfold loop_body, deref.
  assert (Hkeep : state_rel (keep st1 l) (keep st2 l)).
  { unfold keep, state_rel. cbn. by rewrite Hk. }
  destruct (use_hard_exclusions self); [|exact Hkeep].
  destruct (Hh l) as [d1 d2 Hd|]; cbn [mbind result_bind]; [|done].
  rewrite (same_but_category_reason d1 d2 Hd).
  destruct (get_exclusion_reason d2) as [[r|]|]; cbn [mbind result_bind result_rel]; [| |done].
  - destruct (PyStr.is_empty r); [exact Hkeep|].
    split; [|by rewrite !(proj1 (exclude_fields _ _ _)),
                      !(proj1 (proj2 (exclude_fields _ _ _))), Hk, He, (heap_rel_dom _ _ Hh);
                unfold exclude; cbn; rewrite Hs].
    rewrite !exclude_heap, (heap_rel_dom _ _ Hh).
    by apply heap_rel_insert, same_but_category_tag.
  - exact Hkeep.
Qed.

Lemma loop_sim self fs : ∀ st1 st2,
  state_rel st1 st2 → result_rel state_rel (loop self st1 fs) (loop self st2 fs).
Proof.
  induction fs as [|l fs IH]; intros st1 st2 Hst; [exact Hst|].
  cbn [loop mbind result_bind]. pose proof (loop_body_sim self st1 st2 l Hst) as Hb.
  destruct (loop_body self st1 l), (loop_body self st2 l); cbn in Hb |- *; try done.
  by apply IH.
Qed.

(** C5: category matching is insensitive to case and to the choice between
    hyphen and underscore. Two calls on heaps whose findings differ at most in
    the spelling of categories that normalise to the same string end alike:
    the same findings kept, the same ones excluded for the same reasons, the
    same statistics, and copies that again differ at most in that spelling
    (or the same exception on both sides). *)
Theorem category_matching_normalised self h1 h2 fs t0 t1 :
  heap_rel h1 h2 →
  result_rel (λ r1 r2, r1.2 = r2.2 ∧ heap_rel r1.1 r2.1)
    (filter_findings self h1 fs t0 t1) (filter_findings self h2 fs t0 t1).
Proof.
  intros Hh. rewrite !filter_findings_loop.
  pose proof (loop_sim self fs (initial_state h1 fs) (initial_state h2 fs)) as Hl.
  destruct (loop self (initial_state h1 fs) fs) as [st1|],
           (loop self (initial_state h2 fs) fs) as [st2|]; cbn in Hl |- *;
    try (apply Hl; by repeat split).
  destruct Hl as (Hh' & Hk & He & Hs); [by repeat split|].
  split; [|done]. unfold final_results, final_stats. by rewrite Hk, He, Hs.
Qed.

(** Both spellings are excluded, for the same reason. *)
Example rate_limiting_spellings :
  get_exclusion_reason (<["category" := VStr "Rate-Limiting"]> finding_sqli)
    = Ok (Some "excluded_category:rate_limiting") ∧
  get_exclusion_reason (<["category" := VStr "rate_limiting"]> finding_sqli)
    = Ok (Some "excluded_category:rate_limiting").
Proof. split; vm_compute; reflexivity. Qed.

Lemma same_category_spelling d c1 c2 :
  normalise c1 = normalise c2 →
  same_but_category (<["category" := VStr c1]> d) (<["category" := VStr c2]> d).
Proof.
  intros Hn. split.
  - unfold norm_category, dict_get. rewrite !lookup_insert_eq. cbn. by rewrite Hn.
  - intros key Hkey. by rewrite !lookup_insert_ne.
Qed.

(** The same finding under the categories [Rate-Limiting] and
    [rate_limiting]. *)
Lemma category_matching_normalised_witness :
  result_rel (λ r1 r2, r1.2 = r2.2 ∧ heap_rel r1.1 r2.1)
    (filter_findings default_filter
       {[ 1%positive := <["category" := VStr "Rate-Limiting"]> finding_sqli ]}
       [1%positive] 0 1)
    (filter_findings default_filter
       {[ 1%positive := <["category" := VStr "rate_limiting"]> finding_sqli ]}
       [1%positive] 0 1).
Proof.
  apply category_matching_normalised.
  apply heap_rel_insert; [intros l; rewrite lookup_empty; constructor|].
  apply same_category_spelling. reflexivity.
Defined.

Local Close Scope Z_scope.

(** ** The memory-safety rule *)

(** *** Strings *)

Lemma string_app_cons a s t : String a s +:+ t = String a (s +:+ t).
Proof. reflexivity. Qed.

Lemma string_app_nil t : "" +:+ t = t.
Proof. reflexivity. Qed.

Lemma take_drop n s : PyStr.take n s +:+ PyStr.drop n s = s.
Proof.
  revert s. induction n as [|n IH]; intros [|a s]; cbn; try done.
  rewrite string_app_cons. f_equal. apply IH.
Qed.

Lemma endswith_app s suf : PyStr.endswith s suf = true → ∃ pre, s = pre +:+ suf.
Proof.
  unfold PyStr.endswith. intros [_ H%String.eqb_eq]%andb_true_iff.
  exists (PyStr.take (String.length s - String.length suf) s).
  set (n := (String.length s - String.length suf)%nat) in *.
  transitivity (PyStr.take n s +:+ PyStr.drop n s); [symmetry; apply take_drop|].
  by f_equal.
Qed.

(** *** The pattern [\.(rs|go)$] *)

Ltac case_ifs :=
  repeat match goal with
         | |- context [if ?b then _ else _] => destruct b eqn:?
         end.

Lemma safe_lang_rs pre : is_Some (Re.search MEMORY_SAFE_LANGS (pre +:+ ".rs")).
Proof.
  induction pre as [|a pre IH]; [vm_compute; eauto|].
  rewrite string_app_cons. cbn [Re.search].
  destruct (Re.match_here MEMORY_SAFE_LANGS (String a (pre +:+ ".rs"))); [eauto|exact IH].
Qed.

Lemma safe_lang_here_py a pre :
  Re.match_here MEMORY_SAFE_LANGS (String a (pre +:+ ".py")) = None.
Proof.
  destruct pre as [|b [|c [|e [|f pre]]]];
    rewrite ?string_app_cons, ?string_app_nil; cbn; case_ifs; try reflexivity;
    vm_compute in *; discriminate.
Qed.

Lemma safe_lang_py pre : Re.search MEMORY_SAFE_LANGS (pre +:+ ".py") = None.
Proof.
  induction pre as [|a pre IH]; [vm_compute; reflexivity|].
  rewrite string_app_cons. cbn [Re.search]. by rewrite safe_lang_here_py.
Qed.

Lemma last_char_app pre suf : suf ≠ "" → last_char (pre +:+ suf) = last_char suf.
Proof.
  intros Hsuf. induction pre as [|a pre IH]; [done|].
  rewrite string_app_cons. cbn. rewrite IH.
  destruct suf as [|b suf]; [done|]. cbn. by destruct (last_char suf).
Qed.

Lemma endswith_last s suf1 suf2 :
  suf1 ≠ "" → suf2 ≠ "" → last_char suf1 ≠ last_char suf2 →
  PyStr.endswith s suf1 = true → PyStr.endswith s suf2 = false.
Proof.
  intros H1 H2 Hne [p1 ->]%endswith_app.
  destruct (PyStr.endswith (p1 +:+ suf1) suf2) eqn:E; [|done].
  apply endswith_app in E as [p2 E]. apply (f_equal last_char) in E.
  rewrite !last_char_app in E by done. done.
Qed.

Lemma py_not_documentation file :
  PyStr.endswith file ".py" = true →
  PyStr.endswith_any file [".md"; ".rst"; ".txt"; ".adoc"] = false.
Proof.
  intros H. unfold PyStr.endswith_any. cbn [existsb].
  rewrite !(endswith_last file ".py") by done. done.
Qed.

Lemma after_category_no_phrase desc file_path :
  matches_phrase_rule desc = false →
  after_category (VStr desc) file_path = memory_rule_tail (VStr desc) file_path.
Proof.
  unfold matches_phrase_rule, phrase_rules. cbn [existsb].
  rewrite !orb_false_iff. intros (H1 & H2 & H3 & H4 & H5 & H6 & H7 & H8 & _).
  unfold after_category. rewrite !rule_str, H1, H2, H3, H4, H5, H6, H7, H8. reflexivity.
Qed.

Lemma memory_reason_inv d :
  get_exclusion_reason d = Ok (Some "memory_safety_in_safe_language") →
  ∃ desc file,
    dict_get d "description" (VStr "") = VStr desc ∧
    dict_get d "file" (VStr "") = VStr file ∧
    is_Some (Re.search MEMORY_SAFETY_PATTERNS desc) ∧
    is_Some (Re.search MEMORY_SAFE_LANGS file).
Proof.
  rewrite get_exclusion_reason_unfold.
  destruct (dict_get d "category" (VStr "")); try discriminate.
  case_bool_decide as Hcat.
  { intros H. by injection H. }
  unfold after_category. intros H.
  repeat (apply rule_inv in H as (? & ? & [[_ ?] | [_ H]]); [discriminate|]).
  destruct (dict_get d "description" (VStr "")) as [| | | |desc| |]; try discriminate.
  cbn [re_search mbind result_bind] in H.
  destruct (bool_decide (is_Some (Re.search MEMORY_SAFETY_PATTERNS desc))) eqn:Hm1;
    cbn [andb] in H.
  - apply bool_decide_eq_true in Hm1.
    destruct (dict_get d "file" (VStr "")) as [| | | |file| |];
      cbn [re_search mbind result_bind] in H; try discriminate.
    destruct (bool_decide (is_Some (Re.search MEMORY_SAFE_LANGS file))) eqn:Hm2.
    { apply bool_decide_eq_true in Hm2. by exists desc, file. }
    cbn [_is_test_file str_method mbind result_bind] in H.
    repeat (match type of H with context [if ?b then _ else _] => destruct b end;
            try discriminate).
  - cbn [_is_test_file str_method mbind result_bind] in H.
    destruct (dict_get d "file" (VStr "")); try discriminate.
    cbn [_is_test_file str_method mbind result_bind] in H.
    repeat (match type of H with context [if ?b then _ else _] => destruct b end;
            try discriminate).
Qed.

(** C3, as amended: the memory-safety rule needs both conditions, and it is
    the tenth rule. For a finding that no earlier rule matches (its category
    is not an excluded one and its description matches none of the eight
    phrase patterns before) and whose description matches a memory-safety
    phrase: with a file ending in [.py] that is not a test file the finding is
    kept; with a file ending in [.rs] it is excluded with reason
    [memory_safety_in_safe_language]. And whenever that reason is returned,
    both the description pattern and the file pattern have matched. *)
Theorem memory_safety_rule_is_joint d desc file :
  d !! "description" = Some (VStr desc) →
  d !! "file" = Some (VStr file) →
  category_excluded d = Ok false →
  matches_phrase_rule desc = false →
  is_Some (Re.search MEMORY_SAFETY_PATTERNS desc) →
  (PyStr.endswith file ".py" = true → _is_test_file (VStr file) = Ok false →
     get_exclusion_reason d = Ok None) ∧
  (PyStr.endswith file ".rs" = true →
     get_exclusion_reason d = Ok (Some "memory_safety_in_safe_language")) ∧
  (∀ d', get_exclusion_reason d' = Ok (Some "memory_safety_in_safe_language") →
     ∃ desc' file',
       dict_get d' "description" (VStr "") = VStr desc' ∧
       dict_get d' "file" (VStr "") = VStr file' ∧
       is_Some (Re.search MEMORY_SAFETY_PATTERNS desc') ∧
       is_Some (Re.search MEMORY_SAFE_LANGS file')).
Proof.
  intros Hd Hf Hcat Hphr Hmem.
  assert (Hreason : get_exclusion_reason d = memory_rule_tail (VStr desc) (VStr file)).
  { rewrite get_exclusion_reason_norm. unfold category_excluded in Hcat.
    destruct (norm_category d) as [c|]; [|discriminate]. cbn in Hcat |- *.
    injection Hcat as ->. unfold dict_get. rewrite Hd, Hf.
    by apply after_category_no_phrase. }
  rewrite Hreason. unfold memory_rule_tail. cbn [re_search mbind result_bind].
  rewrite (bool_decide_eq_true_2 _ Hmem). cbn [andb re_search mbind result_bind].
  split; [|split; [|exact memory_reason_inv]].
  - intros Hpy Htest.
    assert (Re.search MEMORY_SAFE_LANGS file = None) as ->.
    { destruct (endswith_app _ _ Hpy) as [pre ->]. apply safe_lang_py. }
    rewrite (bool_decide_eq_false_2 (is_Some None)) by (by intros []).
    rewrite Htest. cbn [mbind result_bind str_method].
    by rewrite py_not_documentation.
  - intros [pre ->]%endswith_app.
    by rewrite (bool_decide_eq_true_2 _ (safe_lang_rs pre)).
Qed.

(** A buffer overflow reported in a Python file and in a Rust file. *)
Lemma memory_safety_rule_is_joint_witness :
  get_exclusion_reason (finding_overflow "buffer overflow in the parser" "src/parser.py")
    = Ok None ∧
  get_exclusion_reason (finding_overflow "buffer overflow in the parser" "src/parser.rs")
    = Ok (Some "memory_safety_in_safe_language").
Proof.
  split.
  - destruct (memory_safety_rule_is_joint
                (finding_overflow "buffer overflow in the parser" "src/parser.py")
                "buffer overflow in the parser" "src/parser.py") as (Hpy & _ & _).
    + reflexivity.
    + reflexivity.
    + reflexivity.
    + reflexivity.
    + vm_compute. eauto.
    + apply Hpy; reflexivity.
  - destruct (memory_safety_rule_is_joint
                (finding_overflow "buffer overflow in the parser" "src/parser.rs")
                "buffer overflow in the parser" "src/parser.rs") as (_ & Hrs & _).
    + reflexivity.
    + reflexivity.
    + reflexivity.
    + reflexivity.
    + vm_compute. eauto.
    + apply Hrs; reflexivity.
Defined.

(** The claim without the amendment fails: a description that matches a
    memory-safety phrase and an earlier phrase pattern is excluded by the
    earlier rule, in a [.py] file as in a [.rs] file. *)
Lemma memory_safety_claim_misses_earlier_rules :
  let desc := "buffer overflow enables denial of service" in
  is_Some (Re.search MEMORY_SAFETY_PATTERNS desc) ∧
  PyStr.endswith "src/parser.py" ".py" = true ∧
  _is_test_file (VStr "src/parser.py") = Ok false ∧
  PyStr.endswith_any "src/parser.py" [".md"; ".rst"; ".txt"; ".adoc"] = false ∧
  get_exclusion_reason (finding_overflow desc "src/parser.py") = Ok (Some "dos_pattern") ∧
  PyStr.endswith "src/parser.rs" ".rs" = true ∧
  get_exclusion_reason (finding_overflow desc "src/parser.rs") = Ok (Some "dos_pattern").
Proof. cbv zeta. split; [vm_compute; eauto|]. repeat split; vm_compute; reflexivity. Qed.

(** ** The bracket scan of the decoder *)

Lemma string_app_assoc s t u : (s +:+ t) +:+ u = s +:+ t +:+ u.
Proof. induction s as [|a s IH]; [done|]. rewrite !string_app_cons. by f_equal. Qed.

Lemma string_app_nil_r s : s +:+ "" = s.
Proof. induction s as [|a s IH]; [done|]. rewrite string_app_cons. by f_equal. Qed.

Lemma string_length_app s t :
  String.length (s +:+ t) = (String.length s + String.length t)%nat.
Proof. induction s as [|a s IH]; [done|]. rewrite string_app_cons. cbn. by f_equal. Qed.

Lemma string_app_snoc s a t : (s +:+ String a "") +:+ t = s +:+ String a t.
Proof. by rewrite string_app_assoc. Qed.

Lemma index_app pre a rest :
  PyStr.index (pre +:+ String a rest) (String.length pre) = Ok a.
Proof.
  unfold PyStr.index. induction pre as [|b pre IH]; [done|].
  rewrite string_app_cons. cbn. exact IH.
Qed.

Lemma drop_app pre s : PyStr.drop (String.length pre) (pre +:+ s) = s.
Proof. induction pre as [|b pre IH]; [by destruct s|]. rewrite string_app_cons. exact IH. Qed.

Lemma take_app s t : PyStr.take (String.length s) (s +:+ t) = s.
Proof.
  induction s as [|b s IH]; [by destruct t|]. rewrite string_app_cons. cbn. by f_equal.
Qed.

Lemma slice_app pre x post :
  PyStr.slice (pre +:+ x +:+ post) (String.length pre)
    (String.length pre + String.length x) = x.
Proof.
  unfold PyStr.slice. rewrite drop_app.
  replace (String.length pre + String.length x - String.length pre)%nat
    with (String.length x) by lia.
  apply take_app.
Qed.

Ltac app_norm :=
  repeat (rewrite string_app_assoc || rewrite string_app_cons || rewrite string_app_nil).

Ltac app_eq H := rewrite H; app_norm; reflexivity.

Ltac scan_simpl :=
  cbn [mbind result_bind escape_next in_string depth andb negb].

Section Scan.
Variable json_loads : string → result value.
Variables (text : string) (sc ec : ascii) (start : nat).
Hypothesis sc_ec : sc ≠ ec.
Hypothesis sc_quote : sc ≠ PyStr.dquote.
Hypothesis ec_quote : ec ≠ PyStr.dquote.

Abbreviation scan_from st pre rest :=
  (scan json_loads text sc ec start st (seq (String.length pre) (String.length rest))).

Lemma try_loads_eq {C} candidate (returned : bool * value → C) otherwise :
  try_loads json_loads candidate returned otherwise =
  match json_loads candidate with
  | Ok v => Ok (returned (true, v))
  | Raise JSONDecodeError => Ok otherwise
  | Raise e => Raise e
  end.
Proof. unfold try_loads. by destruct (json_loads candidate) as [v|[]]. Qed.

Lemma eqb_false a b : a ≠ b → Ascii.eqb a b = false.
Proof. by intros ?%Ascii.eqb_neq. Qed.

Lemma scan_cons st pre a rest :
  text = pre +:+ String a rest →
  scan_from st pre (String a rest) =
  c ← scan_body json_loads text sc ec start st (String.length pre);
  match c with
  | Continue st' => scan_from st' (pre +:+ String a "") rest
  | Break => Ok None
  | Return r => Ok (Some r)
  end.
Proof.
  intros _. cbn [String.length seq scan]. rewrite string_length_app. cbn [String.length].
  by rewrite Nat.add_1_r.
Qed.

Lemma scan_body_char st pre a rest :
  text = pre +:+ String a rest →
  scan_body json_loads text sc ec start st (String.length pre) =
  if escape_next st then
    Ok (Continue {| depth := depth st; in_string := in_string st; escape_next := false |})
  else if Ascii.eqb a PyStr.backslash && in_string st then
    Ok (Continue {| depth := depth st; in_string := in_string st; escape_next := true |})
  else if Ascii.eqb a PyStr.dquote && negb (escape_next st) then
    Ok (Continue {| depth := depth st; in_string := negb (in_string st);
                    escape_next := escape_next st |})
  else if in_string st then Ok (Continue st)
  else if Ascii.eqb a sc then
    Ok (Continue {| depth := (depth st + 1)%Z; in_string := in_string st;
                    escape_next := escape_next st |})
  else if Ascii.eqb a ec then
    if (depth st - 1 =? 0)%Z then
      try_loads json_loads (PyStr.slice text start (String.length pre + 1)) Return Break
    else Ok (Continue {| depth := (depth st - 1)%Z; in_string := in_string st;
                         escape_next := escape_next st |})
  else Ok (Continue st).
Proof. intros ->. unfold scan_body. rewrite index_app. reflexivity. Qed.

(** Inside a string literal nothing but the closing quote is structural. *)
Lemma scan_str_body body : str_body body → ∀ pre rest d,
  text = pre +:+ body +:+ rest →
  scan_from (mkScan d true false) pre (body +:+ rest) =
  scan_from (mkScan d true false) (pre +:+ body) rest.
Proof.
  induction 1 as [|a s Hq Hb _ IH|a s _ IH]; intros pre rest d Htext.
  - by rewrite string_app_nil_r.
  - rewrite string_app_cons in Htext |- *.
    rewrite (scan_cons _ _ _ _ Htext), (scan_body_char _ _ _ _ Htext); scan_simpl.
    rewrite (eqb_false _ _ Hq), (eqb_false _ _ Hb); scan_simpl.
    rewrite IH by app_eq Htext. by app_norm.
  - rewrite !string_app_cons in Htext |- *.
    rewrite (scan_cons _ _ _ _ Htext), (scan_body_char _ _ _ _ Htext); scan_simpl.
    rewrite Ascii.eqb_refl; scan_simpl.
    rewrite <- string_app_snoc in Htext.
    rewrite (scan_cons _ _ _ _ Htext), (scan_body_char _ _ _ _ Htext); scan_simpl.
    rewrite IH by app_eq Htext. by app_norm.
Qed.

(** Over balanced text the scan keeps its state: the depth never returns to
    0 inside, and quoted delimiters are not counted. *)
Lemma scan_balanced x : balanced sc ec x → ∀ pre rest d,
  text = pre +:+ x +:+ rest → (1 ≤ d)%Z →
  scan_from (mkScan d false false) pre (x +:+ rest) =
  scan_from (mkScan d false false) (pre +:+ x) rest.
Proof.
  induction 1 as [|a s Hs He Hq _ IH|body s Hbody _ IH|inner s _ IHi _ IHs];
    intros pre rest d Htext Hd.
  - by rewrite string_app_nil_r.
  - rewrite string_app_cons in Htext |- *.
    rewrite (scan_cons _ _ _ _ Htext), (scan_body_char _ _ _ _ Htext); scan_simpl.
    rewrite (eqb_false _ _ Hs), (eqb_false _ _ He), (eqb_false _ _ Hq), andb_false_r;
      scan_simpl.
    rewrite IH by (app_eq Htext || exact Hd). by app_norm.
  - rewrite string_app_cons, string_app_assoc, string_app_cons in Htext |- *.
    rewrite (scan_cons _ _ _ _ Htext), (scan_body_char _ _ _ _ Htext); scan_simpl.
    rewrite andb_false_r, Ascii.eqb_refl; scan_simpl.
    rewrite <- string_app_snoc in Htext.
    rewrite (scan_str_body body Hbody _ _ _ Htext).
    rewrite <- string_app_assoc in Htext.
    rewrite (scan_cons _ _ _ _ Htext), (scan_body_char _ _ _ _ Htext); scan_simpl.
    change (Ascii.eqb PyStr.dquote PyStr.backslash) with false.
    rewrite Ascii.eqb_refl; scan_simpl.
    rewrite <- string_app_snoc in Htext.
    rewrite IH by (app_eq Htext || exact Hd). by app_norm.
  - rewrite string_app_cons, string_app_assoc, string_app_cons in Htext |- *.
    rewrite (scan_cons _ _ _ _ Htext), (scan_body_char _ _ _ _ Htext); scan_simpl.
    rewrite (eqb_false _ _ sc_quote), Ascii.eqb_refl, andb_false_r; scan_simpl.
    rewrite <- string_app_snoc in Htext.
    rewrite (IHi _ _ _ Htext) by lia.
    rewrite <- string_app_assoc in Htext.
    rewrite (scan_cons _ _ _ _ Htext), (scan_body_char _ _ _ _ Htext); scan_simpl.
    rewrite (eqb_false _ _ ec_quote), andb_false_r; scan_simpl.
    rewrite (eqb_false ec sc) by done. rewrite Ascii.eqb_refl.
    destruct (d + 1 - 1 =? 0)%Z eqn:Hz; [lia|].
    replace (d + 1 - 1)%Z with d by lia. scan_simpl.
    rewrite <- string_app_snoc in Htext.
    rewrite IHs by (app_eq Htext || exact Hd). by app_norm.
Qed.

End Scan.

Section BracketPass.
Variable json_loads : string → result value.

Lemma scan_region sc ec pre inner post :
  sc ≠ ec → sc ≠ PyStr.dquote → ec ≠ PyStr.dquote →
  balanced sc ec inner →
  let text := pre +:+ region sc ec inner +:+ post in
  scan json_loads text sc ec (String.length pre) (mkScan 0 false false)
    (seq (String.length pre) (String.length text - String.length pre)) =
  match json_loads (region sc ec inner) with
  | Ok v => Ok (Some (true, v))
  | Raise JSONDecodeError => Ok None
  | Raise e => Raise e
  end.
Proof.
  intros Hse Hsq Heq Hbal text.
  assert (Htext : text = pre +:+ String sc (inner +:+ String ec post)).
  { unfold text, region. by app_norm. }
  replace (String.length text - String.length pre)%nat
    with (String.length (String sc (inner +:+ String ec post)))
    by (rewrite Htext, string_length_app; lia).
  rewrite (scan_cons _ _ _ _ _ _ _ _ _ Htext), (scan_body_char _ _ _ _ _ _ _ _ _ Htext).
  scan_simpl. rewrite (eqb_false _ _ Hsq), Ascii.eqb_refl, andb_false_r. scan_simpl.
  rewrite <- string_app_snoc in Htext.
  rewrite (scan_balanced json_loads text sc ec _ Hse Hsq Heq inner Hbal _ _ _ Htext) by lia.
  rewrite <- string_app_assoc in Htext.
  rewrite (scan_cons _ _ _ _ _ _ _ _ _ Htext), (scan_body_char _ _ _ _ _ _ _ _ _ Htext).
  scan_simpl. rewrite (eqb_false _ _ Heq), andb_false_r. scan_simpl.
  rewrite (eqb_false ec sc) by done. rewrite Ascii.eqb_refl.
  change (0 + 1 - 1 =? 0)%Z with true. cbv iota.
  rewrite try_loads_eq.
  replace (PyStr.slice text (String.length pre)
             (String.length ((pre +:+ String sc "") +:+ inner) + 1))
    with (region sc ec inner).
  { by destruct (json_loads (region sc ec inner)) as [v|[]]. }
  symmetry. unfold text.
  replace (String.length ((pre +:+ String sc "") +:+ inner) + 1)%nat
    with (String.length pre + String.length (region sc ec inner))%nat.
  { apply slice_app. }
  unfold region. rewrite !string_length_app. cbn [String.length].
  rewrite !string_length_app. cbn [String.length]. lia.
Qed.

Lemma startswith_char s a : PyStr.startswith s (String a "") =
  match s with String b _ => Ascii.eqb b a | EmptyString => false end.
Proof.
  destruct s as [|b s]; [done|]. cbn [PyStr.startswith].
  replace (PyStr.startswith s "") with true by (by destruct s). apply andb_true_r.
Qed.

Lemma find_char_app pre a rest i :
  PyStr.contains (String a "") pre = false →
  PyStr.find_from (String a "") (pre +:+ String a rest) i = (i + Z.of_nat (String.length pre))%Z.
Proof.
  revert i. induction pre as [|b pre IH]; intros i Hpre.
  - rewrite string_app_nil. cbn [PyStr.find_from String.length].
    rewrite startswith_char, Ascii.eqb_refl. lia.
  - rewrite string_app_cons. cbn [PyStr.contains] in Hpre.
    apply orb_false_iff in Hpre as [Hb Hpre]. cbn [PyStr.find_from].
    rewrite startswith_char in Hb |- *. rewrite Hb, IH by done. cbn [String.length]. lia.
Qed.

Lemma find_char_none s a :
  PyStr.contains (String a "") s = false → ∀ i, PyStr.find_from (String a "") s i = (-1)%Z.
Proof.
  induction s as [|b s IH]; intros Hs i; [done|].
  cbn [PyStr.contains] in Hs. apply orb_false_iff in Hs as [Hb Hs].
  cbn [PyStr.find_from]. rewrite Hb. by apply IH.
Qed.

(** The pass of strategy 3 for one pair of delimiters, on a text whose first
    opening delimiter starts a balanced region. *)
Lemma bracket_matching_region sc ec pairs pre inner post :
  sc ≠ ec → sc ≠ PyStr.dquote → ec ≠ PyStr.dquote →
  PyStr.contains (String sc "") pre = false →
  balanced sc ec inner →
  let text := pre +:+ region sc ec inner +:+ post in
  bracket_matching json_loads ((sc, ec) :: pairs) text =
  match json_loads (region sc ec inner) with
  | Ok v => Ok (Some (true, v))
  | Raise JSONDecodeError => bracket_matching json_loads pairs text
  | Raise e => Raise e
  end.
Proof.
  intros Hse Hsq Heq Hpre Hbal text. cbn [bracket_matching].
  assert (PyStr.find text (String sc "") = Z.of_nat (String.length pre)) as ->.
  { unfold PyStr.find, text, region. rewrite string_app_cons.
    rewrite find_char_app by done. apply Z.add_0_l. }
  destruct (Z.of_nat (String.length pre) =? -1)%Z eqn:Hz; [apply Z.eqb_eq in Hz; lia|].
  rewrite Nat2Z.id. unfold text. rewrite scan_region by done.
  by destruct (json_loads (region sc ec inner)) as [v|[]].
Qed.

Lemma bracket_matching_absent sc ec pairs text :
  PyStr.contains (String sc "") text = false →
  bracket_matching json_loads ((sc, ec) :: pairs) text = bracket_matching json_loads pairs text.
Proof.
  intros H. cbn [bracket_matching]. unfold PyStr.find. by rewrite find_char_none.
Qed.

End BracketPass.

(** ** The matcher, code fences and whitespace *)

(** *** Facts about the matcher *)

Section Matcher.
Context {A : Type} (ic dotall : bool).

Lemma step_inv ok s (k : string → option A) x :
  Re.step ok s k = Some x → ∃ a s', s = String a s' ∧ ok a = true ∧ k s' = Some x.
Proof.
  destruct s as [|a s']; [done|]. cbn. destruct (ok a) eqn:Hok; [|done]. eauto.
Qed.

End Matcher.

Lemma exec_lit_startswith {A} dotall o : ∀ s cap (k : string → option string → option A) x,
  Re.exec false dotall (Re.lit o) s cap k = Some x → PyStr.startswith s o = true.
Proof.
  induction o as [|c o IH]; intros s cap k x; [by destruct s|].
  cbn [Re.lit Re.exec]. intros (a & s' & -> & Ha & Hk)%step_inv.
  cbn [PyStr.startswith]. unfold Re.chr_matches in Ha. rewrite Ha. cbn. eauto.
Qed.

Lemma startswith_trans s o p :
  PyStr.startswith s o = true → PyStr.startswith o p = true → PyStr.startswith s p = true.
Proof.
  revert s o. induction p as [|c p IH]; intros s o; [by destruct s|].
  destruct o as [|b o]; [done|]. destruct s as [|a s]; [done|]. cbn.
  intros [Hab Hs]%andb_true_iff [Hbc Ho]%andb_true_iff.
  apply Ascii.eqb_eq in Hab as ->. rewrite Hbc. cbn. eauto.
Qed.

Lemma search_no_fence opening text :
  PyStr.startswith opening "```" = true →
  PyStr.contains "```" text = false →
  Re.search (Re.Pattern (fenced opening) false true) text = None.
Proof.
  intros Hop. induction text as [|a text IH]; cbn [PyStr.contains Re.search].
  - intros Hc. destruct (Re.match_here _ "") eqn:H; [|done].
    apply exec_lit_startswith in H. destruct opening; discriminate.
  - intros [Hs Hc]%orb_false_iff.
    destruct (Re.match_here _ (String a text)) eqn:H; [|auto].
    apply exec_lit_startswith in H.
    by rewrite (startswith_trans _ _ _ H Hop) in Hs.
Qed.

(** *** Whitespace *)

Lemma lstrip_nonspace pre a rest :
  PyStr.isspace a = false →
  ∃ b s, PyStr.lstrip (pre +:+ String a rest) = String b s ∧ PyStr.isspace b = false.
Proof.
  intros Ha. induction pre as [|c pre IH].
  - rewrite string_app_nil. cbn. rewrite Ha. eauto.
  - rewrite string_app_cons. cbn. destruct (PyStr.isspace c) eqn:Hc; eauto.
Qed.

Lemma rstrip_nonspace b s : PyStr.isspace b = false → PyStr.rstrip (String b s) ≠ "".
Proof. intros Hb. cbn. rewrite Hb. by destruct (PyStr.rstrip s). Qed.

Lemma strip_nonspace pre a rest :
  PyStr.isspace a = false → PyStr.is_empty (PyStr.strip (pre +:+ String a rest)) = false.
Proof.
  intros Ha. unfold PyStr.strip.
  destruct (lstrip_nonspace pre a rest Ha) as (b & s & -> & Hb).
  pose proof (rstrip_nonspace b s Hb). by destruct (PyStr.rstrip (String b s)).
Qed.


(** ** The first two strategies of the decoder *)

Section Strategies.
Variable json_loads : string → result value.

Lemma direct_parse_eq text :
  direct_parse json_loads text =
  match json_loads (PyStr.strip text) with
  | Ok v => Ok (Some (true, v))
  | Raise JSONDecodeError => Ok None
  | Raise e => Raise e
  end.
Proof. unfold direct_parse. apply try_loads_eq. Qed.

Lemma code_blocks_no_fence text :
  PyStr.contains "```" text = false →
  code_blocks json_loads code_block_patterns text = Ok None.
Proof.
  intros H. unfold code_block_patterns. cbn [code_blocks].
  by rewrite !search_no_fence.
Qed.

Lemma index_lt text i : i < String.length text → ∃ a, PyStr.index text i = Ok a.
Proof.
  unfold PyStr.index. revert i. induction text as [|b text IH]; intros i Hi; [cbn in Hi; lia|].
  destruct i as [|i]; cbn; [eauto|]. apply IH. cbn in Hi. lia.
Qed.

End Strategies.

Ltac plain_chars :=
  repeat (apply balanced_char; [done|done|done|]).

Ltac body_chars :=
  repeat (apply str_body_char; [done|done|]); apply str_body_nil.

(** * Further properties *)

(** ** The filter: the switch, the reasons and the breakdown *)

Local Open Scope Z_scope.

(** X1: a filter built with [use_hard_exclusions=False] returns every finding
    it is given, in input order and as the same objects, excludes none,
    leaves the heap as it was, and counts all of them as kept with an empty
    breakdown. It reads no finding, so this holds for any list. *)
Theorem disabled_filter_keeps_everything self h fs t0 t1 :
  use_hard_exclusions self = false →
  ∃ res stats,
    filter_findings self h fs t0 t1 = Ok (h, (true, res, stats)) ∧
    filtered_findings res = fs ∧
    excluded_findings res = [] ∧
    total_findings stats = Z.of_nat (length fs) ∧
    kept_findings stats = Z.of_nat (length fs) ∧
    hard_excluded stats = 0 ∧
    exclusion_breakdown stats = ∅.
Proof.
  intros Huse. eexists _, _. rewrite filter_findings_loop.
  rewrite loop_all_pass by (apply Forall_forall; intros l _; by left).
  cbn. done.
Qed.

(** With the switch off, the example scenario keeps the dos finding too. *)
Lemma disabled_filter_keeps_everything_witness :
  ∃ res stats,
    filter_findings disabled_filter sample_heap [1%positive; 2%positive] 0 1
      = Ok (sample_heap, (true, res, stats)) ∧
    filtered_findings res = [1%positive; 2%positive] ∧
    excluded_findings res = [].
Proof.
  destruct (disabled_filter_keeps_everything disabled_filter sample_heap
              [1%positive; 2%positive] 0 1) as (res & stats & Hr & Hk & He & _);
    [reflexivity|].
  exists res, stats. split; [exact Hr|]. split; [exact Hk|exact He].
Defined.

Ltac token :=
  unfold reason_tokens;
  repeat first [apply list_elem_of_here | apply list_elem_of_further].

(** X2: whenever [get_exclusion_reason] gives a reason, it is one of eleven
    fixed tokens or [excluded_category:] followed by a member of
    [EXCLUDED_CATEGORIES]: the keys of the breakdown come from a closed
    vocabulary. *)
Lemma get_exclusion_reason_known d r :
  get_exclusion_reason d = Ok (Some r) → known_reason r.
Proof.
  rewrite get_exclusion_reason_unfold.
  destruct (dict_get d "category" (VStr "")) as [| | | |c| |]; try discriminate.
  case_bool_decide as Hcat.
  { intros [= <-]. right. eauto. }
  unfold after_category. intros H. left.
  repeat (apply rule_inv in H as (? & ? & [[_ [= ->]] | [_ H]]);
          [token|]).
  destruct (dict_get d "description" (VStr "")) as [| | | |desc| |]; try discriminate.
  cbn [re_search mbind result_bind] in H.
  destruct (bool_decide (is_Some (Re.search MEMORY_SAFETY_PATTERNS desc)));
    cbn [andb] in H;
    (destruct (dict_get d "file" (VStr "")) as [| | | |file| |];
     cbn [re_search mbind result_bind _is_test_file str_method] in H; try discriminate);
    repeat (match type of H with context [if ?b then _ else _] => destruct b end;
            try discriminate; try (injection H as <-; token)).
Qed.

(** The reason of the dos finding. *)
Lemma get_exclusion_reason_known_witness : known_reason "excluded_category:dos".
Proof. apply (get_exclusion_reason_known finding_dos). vm_compute. reflexivity. Defined.

Lemma reason_of_lookup self h l d : h !! l = Some d → reason_of self h l = verdict self d.
Proof. unfold reason_of. by intros ->. Qed.

Lemma count_reason_skip self h l fs r :
  reason_of self h l ≠ Some r → count_reason self h (l :: fs) r = count_reason self h fs r.
Proof. intros H. unfold count_reason. by rewrite filter_cons_False. Qed.

Lemma count_reason_hit self h l fs r :
  reason_of self h l = Some r → count_reason self h (l :: fs) r = S (count_reason self h fs r).
Proof. intros H. unfold count_reason. by rewrite filter_cons_True. Qed.

Lemma loop_breakdown self h0 fs : ∀ st st',
  h0 ⊆ heap st → live h0 fs = true → loop self st fs = Ok st' →
  ∀ r, exclusion_breakdown (stats st') !! r =
       bucket_after (exclusion_breakdown (stats st) !! r) (count_reason self h0 fs r).
Proof.
  induction fs as [|l fs IH]; intros st st' Hsub Hlive Hloop r.
  - by injection Hloop as <-.
  - apply live_cons in Hlive as [[d0 Hl0] Hlive].
    cbn [loop mbind result_bind] in Hloop.
    destruct (loop_body self st l) as [st1|] eqn:Hbody; [|discriminate]. cbn in Hloop.
    assert (Hkeep : st1 = keep st l → verdict self d0 = None →
              exclusion_breakdown (stats st') !! r =
              bucket_after (exclusion_breakdown (stats st) !! r)
                (count_reason self h0 (l :: fs) r)).
    { intros -> Hv. rewrite count_reason_skip
        by (rewrite (reason_of_lookup _ _ _ _ Hl0), Hv; done).
      by rewrite (IH (keep st l) st' Hsub Hlive Hloop r). }
    apply loop_body_inv in Hbody as [[Huse ->] | [Huse (d & Hl & Hcase)]].
    + apply Hkeep; [done|by apply verdict_disabled].
    + assert (d = d0) as -> by (eapply lookup_weaken in Hl0; [|done]; congruence).
      destruct Hcase as [[Hr ->] | (r0 & Hr & ->)].
      * apply Hkeep; [done|by apply verdict_of_reason].
      * pose proof (verdict_of_reason self d0 _ Huse Hr) as Hv.
        pose proof (exclude_heap_subseteq st d0 r0) as Hgrow.
        rewrite (IH (exclude st d0 r0) st' (transitivity Hsub Hgrow) Hlive Hloop r).
        destruct (exclude_fields st d0 r0) as (_ & _ & _ & _ & _ & ->).
        destruct (decide (r = r0)) as [->|Hne].
        -- rewrite lookup_insert_eq, count_reason_hit
             by (by rewrite (reason_of_lookup _ _ _ _ Hl0)).
           unfold bucket_after, dict_get.
           destruct (count_reason self h0 fs r0);
             destruct (exclusion_breakdown (stats st) !! r0); cbn; f_equal; lia.
        -- rewrite lookup_insert_ne by done. rewrite count_reason_skip; [done|].
           rewrite (reason_of_lookup _ _ _ _ Hl0), Hv. congruence.
Qed.

(** X3: the breakdown that [filter_findings] returns maps each reason to the
    number of input findings excluded for that reason, and has no key for a
    reason that excluded none. *)
Theorem exclusion_breakdown_counts self h fs t0 t1 h' success res stats r :
  live h fs = true →
  filter_findings self h fs t0 t1 = Ok (h', (success, res, stats)) →
  exclusion_breakdown stats !! r =
    match count_reason self h fs r with
    | O => None
    | S n => Some (Z.of_nat (S n))
    end.
Proof.
  intros Hlive. rewrite filter_findings_loop.
  destruct (loop self (initial_state h fs) fs) as [st|] eqn:Hst; [|discriminate].
  intros [= <- <- <- <-]. cbn.
  rewrite (loop_breakdown self h fs (initial_state h fs) st) by done. cbn.
  rewrite lookup_empty. unfold bucket_after. destruct (count_reason self h fs r); [done|].
  cbn [default]. f_equal.
Qed.

(** The breakdown of the example scenario has one bucket, of one finding. *)
Lemma exclusion_breakdown_counts_witness :
  ∃ h' success res stats,
    filter_findings default_filter sample_heap [1%positive; 2%positive] 0 1
      = Ok (h', (success, res, stats)) ∧
    exclusion_breakdown stats !! "excluded_category:dos" = Some 1 ∧
    exclusion_breakdown stats !! "dos_pattern" = None.
Proof.
  destruct (filter_findings default_filter sample_heap [1%positive; 2%positive] 0 1)
    as [[h' [[success res] stats]]|] eqn:Hret; [|vm_compute in Hret; discriminate].
  exists h', success, res, stats. split; [reflexivity|]. split.
  - rewrite (exclusion_breakdown_counts default_filter sample_heap
               [1%positive; 2%positive] 0 1 h' success res stats
               "excluded_category:dos" eq_refl Hret).
    vm_compute. reflexivity.
  - rewrite (exclusion_breakdown_counts default_filter sample_heap
               [1%positive; 2%positive] 0 1 h' success res stats
               "dos_pattern" eq_refl Hret).
    vm_compute. reflexivity.
Defined.

(** ** The filter: concatenation and allocation *)

Lemma loop_judged_returns self h0 fs : ∀ st,
  h0 ⊆ heap st → Forall (judged self h0) fs → ∃ st', loop self st fs = Ok st'.
Proof.
  induction fs as [|l fs IH]; intros st Hsub Hj; [by eexists|].
  apply Forall_cons in Hj as [Hl Hj]. cbn [loop mbind result_bind].
  assert (∃ st1, loop_body self st l = Ok st1) as [st1 Hbody].
  { unfold loop_body, deref. destruct Hl as [-> | (d & r & Hd & Hr)]; [eauto|].
    destruct (use_hard_exclusions self); [|eauto].
    rewrite (lookup_weaken _ _ _ _ Hd Hsub). cbn [mbind result_bind]. rewrite Hr.
    cbn [mbind result_bind]. destruct r as [r|]; [|eauto]. destruct (PyStr.is_empty r); eauto. }
  rewrite Hbody. cbn. apply IH; [|done].
  apply loop_body_inv in Hbody as [[_ ->] | [_ (d' & _ & [[_ ->] | (r & _ & ->)])]];
    try done.
  etrans; [exact Hsub|apply exclude_heap_subseteq].
Qed.

Lemma initial_heap h fs : h ⊆ heap (initial_state h fs).
Proof. done. Qed.

Lemma live_app h xs ys : live h (xs ++ ys) = true ↔ live h xs = true ∧ live h ys = true.
Proof. unfold live. rewrite forallb_app. apply andb_true_iff. Qed.

Lemma count_reason_app self h xs ys r :
  count_reason self h (xs ++ ys) r
  = (count_reason self h xs r + count_reason self h ys r)%nat.
Proof. unfold count_reason. by rewrite filter_app, length_app. Qed.

Lemma bucket_value (b : gmap string Z) r n :
  b !! r = bucket_after None n → dict_get b r 0 = Z.of_nat n.
Proof. unfold dict_get. intros ->. by destruct n. Qed.

(** X4: filtering a concatenation is filtering the parts. If the call on
    [xs ++ ys] returns, so do the calls on [xs] and on [ys] from the same
    heap; the kept list is the concatenation of the two kept lists, and the
    number of excluded findings, the three counters and every bucket of the
    breakdown are the sums. *)
Theorem filter_findings_app self h xs ys t0 t1 h' success res stats :
  live h (xs ++ ys) = true →
  filter_findings self h (xs ++ ys) t0 t1 = Ok (h', (success, res, stats)) →
  ∃ h1 res1 stats1 h2 res2 stats2,
    filter_findings self h xs t0 t1 = Ok (h1, (true, res1, stats1)) ∧
    filter_findings self h ys t0 t1 = Ok (h2, (true, res2, stats2)) ∧
    filtered_findings res = filtered_findings res1 ++ filtered_findings res2 ∧
    length (excluded_findings res)
      = (length (excluded_findings res1) + length (excluded_findings res2))%nat ∧
    total_findings stats = total_findings stats1 + total_findings stats2 ∧
    kept_findings stats = kept_findings stats1 + kept_findings stats2 ∧
    hard_excluded stats = hard_excluded stats1 + hard_excluded stats2 ∧
    ∀ r, dict_get (exclusion_breakdown stats) r 0
         = dict_get (exclusion_breakdown stats1) r 0
           + dict_get (exclusion_breakdown stats2) r 0.
Proof.
  intros Hlive Hret. pose proof Hlive as [Hlx Hly]%live_app.
  rewrite filter_findings_loop in Hret.
  destruct (loop self (initial_state h (xs ++ ys)) (xs ++ ys)) as [st|] eqn:H12;
    [|discriminate].
  injection Hret as <- <- <- <-.
  pose proof (loop_spec self h (xs ++ ys) _ _ (initial_heap h _) Hlive H12)
    as (_ & _ & Hk & copies & He & Hc & _ & _ & _ & Ht & Hh & _ & _ & Hj).
  cbn in Hk, He, Ht, Hh. subst copies.
  apply Forall_app in Hj as [Hjx Hjy].
  destruct (loop_judged_returns self h xs (initial_state h xs)) as [st1 H1]; [done..|].
  destruct (loop_judged_returns self h ys (initial_state h ys)) as [st2 H2]; [done..|].
  pose proof (loop_spec self h xs _ _ (initial_heap h _) Hlx H1)
    as (_ & _ & Hk1 & c1 & He1 & Hc1 & _ & _ & _ & Ht1 & Hh1 & _).
  pose proof (loop_spec self h ys _ _ (initial_heap h _) Hly H2)
    as (_ & _ & Hk2 & c2 & He2 & Hc2 & _ & _ & _ & Ht2 & Hh2 & _).
  cbn in Hk1, He1, Ht1, Hh1, Hk2, He2, Ht2, Hh2. subst c1 c2.
  eexists _, _, _, _, _, _. rewrite !filter_findings_loop, H1, H2.
  split; [done|]. split; [done|]. cbn.
  assert (Hlen : length (excluded st) = (length (excluded st1) + length (excluded st2))%nat).
  { rewrite <- (Forall2_length _ _ _ Hc), <- (Forall2_length _ _ _ Hc1),
      <- (Forall2_length _ _ _ Hc2). by rewrite filter_app, length_app. }
  repeat split.
  - by rewrite Hk, Hk1, Hk2, filter_app.
  - done.
  - rewrite Ht, Ht1, Ht2, length_app. lia.
  - rewrite Hk, Hk1, Hk2, filter_app, length_app. lia.
  - rewrite Hh, Hh1, Hh2. lia.
  - intros r.
    rewrite (bucket_value _ r (count_reason self h (xs ++ ys) r)),
      (bucket_value _ r (count_reason self h xs r)),
      (bucket_value _ r (count_reason self h ys r)).
    + rewrite count_reason_app. lia.
    + by rewrite (loop_breakdown self h ys (initial_state h ys) st2).
    + by rewrite (loop_breakdown self h xs (initial_state h xs) st1).
    + by rewrite (loop_breakdown self h (xs ++ ys) (initial_state h (xs ++ ys)) st).
Qed.

(** The example scenario, one finding at a time. *)
Lemma filter_findings_app_witness :
  ∃ h' success res stats h1 res1 stats1 h2 res2 stats2,
    filter_findings default_filter sample_heap ([1%positive] ++ [2%positive]) 0 1
      = Ok (h', (success, res, stats)) ∧
    filter_findings default_filter sample_heap [1%positive] 0 1
      = Ok (h1, (true, res1, stats1)) ∧
    filter_findings default_filter sample_heap [2%positive] 0 1
      = Ok (h2, (true, res2, stats2)) ∧
    filtered_findings res = filtered_findings res1 ++ filtered_findings res2 ∧
    hard_excluded stats = hard_excluded stats1 + hard_excluded stats2.
Proof.
  destruct (filter_findings default_filter sample_heap ([1%positive] ++ [2%positive]) 0 1)
    as [[h' [[success res] stats]]|] eqn:Hret; [|vm_compute in Hret; discriminate].
  destruct (filter_findings_app default_filter sample_heap [1%positive] [2%positive] 0 1
              h' success res stats eq_refl Hret)
    as (h1 & res1 & stats1 & h2 & res2 & stats2 & H1 & H2 & Hk & _ & _ & _ & Hh & _).
  exists h', success, res, stats, h1, res1, stats1, h2, res2, stats2.
  split; [reflexivity|]. split; [exact H1|]. split; [exact H2|]. split; [exact Hk|exact Hh].
Defined.

(** X5: the objects that exist after a call are those that existed before it
    and the entries of [excluded_findings], one new object for each; nothing
    else is allocated. *)
Theorem filter_findings_allocates_copies_only self h fs t0 t1 h' success res stats :
  live h fs = true →
  filter_findings self h fs t0 t1 = Ok (h', (success, res, stats)) →
  dom h' = dom h ∪ list_to_set (excluded_findings res) ∧
  size h' = (size h + length (excluded_findings res))%nat.
Proof.
  intros Hlive Hret.
  destruct (filter_findings_inv _ _ _ _ _ _ _ _ _ Hlive Hret)
    as (st & -> & _ & -> & -> & Hpost).
  destruct Hpost as (_ & _ & _ & copies & He & _ & Hf & Hnd & Hdom & _).
  cbn in He, Hf, Hdom. subst copies. cbn. split; [done|].
  rewrite <- !size_dom, Hdom, size_union.
  - by rewrite size_list_to_set.
  - intros c Hc [l Hl]%elem_of_list_to_set%list_elem_of_lookup.
    eapply Forall_lookup_1 in Hf; [|exact Hl]. by apply not_elem_of_dom in Hf.
Qed.

(** The example scenario leaves three objects: the two findings and one copy. *)
Lemma filter_findings_allocates_copies_only_witness :
  ∃ h' success res stats,
    filter_findings default_filter sample_heap [1%positive; 2%positive] 0 1
      = Ok (h', (success, res, stats)) ∧
    size h' = (size sample_heap + length (excluded_findings res))%nat.
Proof.
  destruct (filter_findings default_filter sample_heap [1%positive; 2%positive] 0 1)
    as [[h' [[success res] stats]]|] eqn:Hret; [|vm_compute in Hret; discriminate].
  exists h', success, res, stats. split; [reflexivity|].
  apply (filter_findings_allocates_copies_only default_filter sample_heap
           [1%positive; 2%positive] 0 1 h' success res stats eq_refl Hret).
Defined.

(** ** The filter: the fields it reads *)

Section Simulation.
Variable R : gmap string value → gmap string value → Prop.
Hypothesis R_reason : ∀ d1 d2, R d1 d2 → get_exclusion_reason d1 = get_exclusion_reason d2.
Hypothesis R_tag : ∀ d1 d2 r,
  R d1 d2 → R (<["exclusion_reason" := VStr r]> d1) (<["exclusion_reason" := VStr r]> d2).

Lemma heap_sim_dom h1 h2 : heap_sim R h1 h2 → dom h1 = dom h2.
Proof.
  intros H. apply set_eq. intros l. rewrite !elem_of_dom.
  specialize (H l). destruct H; split; intros [? ?]; eauto; discriminate.
Qed.

Lemma heap_sim_insert h1 h2 l d1 d2 :
  heap_sim R h1 h2 → R d1 d2 → heap_sim R (<[l := d1]> h1) (<[l := d2]> h2).
Proof.
  intros H Hd l'. destruct (decide (l = l')) as [->|].
  - rewrite !lookup_insert_eq. by constructor.
  - rewrite !lookup_insert_ne by done. apply H.
Qed.

Lemma loop_body_simulation self st1 st2 l :
  state_sim R st1 st2 →
  result_rel (state_sim R) (loop_body self st1 l) (loop_body self st2 l).
Proof.
  intros (Hh & Hk & He & Hs). unfold loop_body, deref.
  assert (Hkeep : state_sim R (keep st1 l) (keep st2 l)).
  { unfold keep, state_sim. cbn. by rewrite Hk. }
  destruct (use_hard_exclusions self); [|exact Hkeep].
  destruct (Hh l) as [d1 d2 Hd|]; cbn [mbind result_bind]; [|done].
  rewrite (R_reason d1 d2 Hd).
  destruct (get_exclusion_reason d2) as [[r|]|]; cbn [mbind result_bind result_rel]; [| |done].
  - destruct (PyStr.is_empty r); [exact Hkeep|].
    split; [|by rewrite !(proj1 (exclude_fields _ _ _)),
                      !(proj1 (proj2 (exclude_fields _ _ _))), Hk, He, (heap_sim_dom _ _ Hh);
                unfold exclude; cbn; rewrite Hs].
    rewrite !exclude_heap, (heap_sim_dom _ _ Hh).
    by apply heap_sim_insert, R_tag.
  - exact Hkeep.
Qed.

Lemma loop_simulation self fs : ∀ st1 st2,
  state_sim R st1 st2 → result_rel (state_sim R) (loop self st1 fs) (loop self st2 fs).
Proof.
  induction fs as [|l fs IH]; intros st1 st2 Hst; [exact Hst|].
  cbn [loop mbind result_bind]. pose proof (loop_body_simulation self st1 st2 l Hst) as Hb.
  destruct (loop_body self st1 l), (loop_body self st2 l); cbn in Hb |- *; try done.
  by apply IH.
Qed.

Lemma filter_findings_simulation self h1 h2 fs t0 t1 :
  heap_sim R h1 h2 →
  result_rel (λ r1 r2, r1.2 = r2.2 ∧ heap_sim R r1.1 r2.1)
    (filter_findings self h1 fs t0 t1) (filter_findings self h2 fs t0 t1).
Proof.
  intros Hh. rewrite !filter_findings_loop.
  pose proof (loop_simulation self fs (initial_state h1 fs) (initial_state h2 fs)) as Hl.
  destruct (loop self (initial_state h1 fs) fs) as [st1|],
           (loop self (initial_state h2 fs) fs) as [st2|]; cbn in Hl |- *;
    try (apply Hl; by repeat split).
  destruct Hl as (Hh' & Hk & He & Hs); [by repeat split|].
  split; [|done]. unfold final_results, final_stats. by rewrite Hk, He, Hs.
Qed.

End Simulation.

Lemma same_rule_fields_reason d1 d2 :
  same_rule_fields d1 d2 → get_exclusion_reason d1 = get_exclusion_reason d2.
Proof.
  intros (Hc & Hd & Hf). rewrite !get_exclusion_reason_unfold. unfold dict_get.
  by rewrite Hc, Hd, Hf.
Qed.

Lemma same_rule_fields_tag d1 d2 r :
  same_rule_fields d1 d2 →
  same_rule_fields (<["exclusion_reason" := VStr r]> d1) (<["exclusion_reason" := VStr r]> d2).
Proof. intros (Hc & Hd & Hf). unfold same_rule_fields. by rewrite !lookup_insert_ne. Qed.

(** X6: the filter reads only the fields [category], [description] and
    [file]. Two heaps whose findings agree on these three fields give the
    same kept list, the same excluded locations and the same statistics (or
    the same exception), and the heaps after the calls agree in the same
    way. *)
Theorem other_fields_are_ignored self h1 h2 fs t0 t1 :
  heap_sim same_rule_fields h1 h2 →
  result_rel (λ r1 r2, r1.2 = r2.2 ∧ heap_sim same_rule_fields r1.1 r2.1)
    (filter_findings self h1 fs t0 t1) (filter_findings self h2 fs t0 t1).
Proof.
  apply filter_findings_simulation;
    [exact same_rule_fields_reason|exact same_rule_fields_tag].
Qed.

(** The dos finding with and without a severity. *)
Lemma other_fields_are_ignored_witness :
  result_rel (λ r1 r2, r1.2 = r2.2 ∧ heap_sim same_rule_fields r1.1 r2.1)
    (filter_findings default_filter
       {[ 1%positive := <["severity" := VStr "HIGH"]> finding_dos ]} [1%positive] 0 1)
    (filter_findings default_filter dos_only_heap [1%positive] 0 1).
Proof.
  apply other_fields_are_ignored. intros l.
  destruct (decide (l = 1%positive)) as [->|Hl].
  - unfold dos_only_heap. rewrite !lookup_singleton_eq. constructor.
    unfold same_rule_fields. by rewrite !lookup_insert_ne.
  - unfold dos_only_heap. rewrite !lookup_singleton_ne by done. constructor.
Defined.

Local Close Scope Z_scope.

(** ** Test files and memory-safe languages *)

Lemma lower_app s t : PyStr.lower (s +:+ t) = PyStr.lower s +:+ PyStr.lower t.
Proof. induction s as [|a s IH]; [done|]. rewrite string_app_cons. cbn. by rewrite IH. Qed.

Lemma startswith_app s p : PyStr.startswith (p +:+ s) p = true.
Proof.
  induction p as [|a p IH]; [by destruct s|]. rewrite string_app_cons. cbn.
  by rewrite Ascii.eqb_refl.
Qed.

Lemma startswith_inv s p : PyStr.startswith s p = true → ∃ t, s = p +:+ t.
Proof.
  revert s. induction p as [|a p IH]; intros s; [by exists s|].
  destruct s as [|b s]; [done|]. cbn. intros [->%Ascii.eqb_eq [t ->]%IH]%andb_true_iff.
  by exists t.
Qed.

Lemma contains_startswith p s : PyStr.startswith s p = true → PyStr.contains p s = true.
Proof. intros H. destruct s; cbn [PyStr.contains]; by rewrite H. Qed.

Lemma contains_app pre p post : PyStr.contains p (pre +:+ p +:+ post) = true.
Proof.
  induction pre as [|a pre IH].
  - rewrite string_app_nil. apply contains_startswith, startswith_app.
  - rewrite string_app_cons. cbn [PyStr.contains]. rewrite IH. apply orb_true_r.
Qed.

Lemma contains_inv p s : PyStr.contains p s = true → ∃ pre post, s = pre +:+ p +:+ post.
Proof.
  induction s as [|a s IH]; cbn [PyStr.contains].
  - rewrite orb_false_r. intros [t Ht]%startswith_inv. by exists "", t.
  - intros [[t Ht]%startswith_inv | [pre [post ->]]%IH]%orb_true_iff.
    + by exists "", t.
    + by exists (String a pre), post.
Qed.

Lemma lower_split s x y :
  PyStr.lower s = x +:+ y → ∃ s1 s2, s = s1 +:+ s2 ∧ PyStr.lower s1 = x ∧ PyStr.lower s2 = y.
Proof.
  revert s. induction x as [|a x IH]; intros s Hs.
  - by exists "", s.
  - destruct s as [|b s]; [done|]. rewrite string_app_cons in Hs. cbn in Hs.
    injection Hs as Hb Hs. apply IH in Hs as (s1 & s2 & -> & H1 & H2).
    exists (String b s1), s2. cbn. by rewrite Hb, H1.
Qed.

Lemma is_test_file_markers file :
  _is_test_file (VStr file)
  = Ok (existsb (λ p, PyStr.contains p (PyStr.lower file)) test_markers).
Proof. reflexivity. Qed.

(** X7: [_is_test_file] answers [True] exactly for the paths that contain,
    in any case, one of the nine markers of its list. *)
Theorem test_file_iff_marker file :
  _is_test_file (VStr file) = Ok true ↔
  ∃ pre mid post, file = pre +:+ mid +:+ post ∧ PyStr.lower mid ∈ test_markers.
Proof.
  rewrite is_test_file_markers. split.
  - intros H. assert (existsb (λ p, PyStr.contains p (PyStr.lower file)) test_markers = true)
      as (p & Hp & Hc)%existsb_exists by congruence.
    apply contains_inv in Hc as (x & y & Hc).
    apply lower_split in Hc as (pre & rest & -> & _ & Hrest).
    apply lower_split in Hrest as (mid & post & -> & Hmid & _).
    exists pre, mid, post. split; [done|]. rewrite Hmid. by apply list_elem_of_In.
  - intros (pre & mid & post & -> & Hmid). f_equal. apply existsb_exists.
    exists (PyStr.lower mid). split; [by apply list_elem_of_In|].
    rewrite !lower_app. apply contains_app.
Qed.

Lemma search_suffix p s m :
  Re.search p s = Some m → ∃ pre s', s = pre +:+ s' ∧ Re.match_here p s' = Some m.
Proof.
  induction s as [|a s IH]; cbn [Re.search].
  - destruct (Re.match_here p "") eqn:H; [|done]. intros [= ->]. by exists "", "".
  - destruct (Re.match_here p (String a s)) eqn:H.
    + intros [= ->]. by exists "", (String a s).
    + intros (pre & s' & -> & Hm)%IH. by exists (String a pre), s'.
Qed.

Lemma search_at p pre s :
  is_Some (Re.match_here p s) → is_Some (Re.search p (pre +:+ s)).
Proof.
  intros Hs. induction pre as [|a pre IH].
  - rewrite string_app_nil. destruct s; cbn [Re.search]; by destruct Hs as [m ->].
  - rewrite string_app_cons. cbn [Re.search].
    by destruct (Re.match_here p (String a (pre +:+ s))).
Qed.

Lemma at_eol_end tail : tail = "" ∨ tail = newline_string → Re.at_eol tail = true.
Proof. intros [-> | ->]; [done|]. apply Ascii.eqb_refl. Qed.

Lemma safe_lang_here ext tail :
  safe_ext ext → Re.at_eol tail = true →
  is_Some (Re.match_here MEMORY_SAFE_LANGS (ext +:+ tail)).
Proof.
  intros Hext Htail.
  destruct ext as [|a [|b [|c [|e ext]]]]; try (destruct Hext; discriminate).
  rewrite !string_app_cons, string_app_nil.
  cbn. destruct Hext as [[= Ha Hb Hc] | [= Ha Hb Hc]]; rewrite Ha, Hb, Hc, Htail; cbn; eauto.
Qed.

(** X8: [MEMORY_SAFE_LANGS] matches every path that ends with [.rs] or
    [.go], in any letter case, where a single newline after the extension
    still counts as the end of the path. *)
Theorem memory_safe_lang_matches pre ext tail :
  PyStr.lower ext = ".rs" ∨ PyStr.lower ext = ".go" →
  tail = "" ∨ tail = newline_string →
  is_Some (Re.search MEMORY_SAFE_LANGS (pre +:+ ext +:+ tail)).
Proof.
  intros Hext Htail. apply search_at, safe_lang_here; [exact Hext|].
  by apply at_eol_end.
Qed.

(** A Rust source with its extension in capitals and a newline after it. *)
Lemma memory_safe_lang_matches_witness :
  is_Some (Re.search MEMORY_SAFE_LANGS ("src/Main" +:+ ".RS" +:+ newline_string)).
Proof.
  apply (memory_safe_lang_matches "src/Main" ".RS" newline_string).
  - left. reflexivity.
  - right. reflexivity.
Defined.

(** ** The description patterns *)

Section PhraseRuns.
Context {A : Type}.

Lemma exec_phrase_app q : ∀ m t cap (k : string → option string → option A),
  phrase_matches q m = true →
  Re.exec true false (Re.phrase q) (m +:+ t) cap k = k t cap.
Proof.
  induction q as [|c q IH]; intros [|a m] t cap k; cbn [phrase_matches]; try done.
  intros [Ha Hm]%andb_true_iff. rewrite string_app_cons. cbn [Re.phrase Re.exec].
  destruct (Ascii.eqb c "."); cbn [Re.exec Re.step];
    [change (Re.dot_matches false a) with (negb (Ascii.eqb a PyStr.newline))
    |change (Re.chr_matches true c a)
       with (Ascii.eqb (PyStr.lower_char a) (PyStr.lower_char c))];
    rewrite Ha; by apply IH.
Qed.

Lemma exec_any_of_some r rs r' s cap (k : string → option string → option A) :
  r' ∈ r :: rs → is_Some (Re.exec true false r' s cap k) →
  is_Some (Re.exec true false (Re.any_of r rs) s cap k).
Proof.
  revert r. induction rs as [|r2 rs IH]; intros r Hin Hs; cbn [Re.any_of Re.exec].
  - apply elem_of_cons in Hin as [->|Hin]; [done|]. inversion Hin.
  - destruct (Re.exec true false r s cap k) eqn:H1; [eauto|].
    apply elem_of_cons in Hin as [->|Hin]; [rewrite H1 in Hs; by destruct Hs|].
    by apply IH.
Qed.

End PhraseRuns.

(** An instance of a phrase at the start of a text is matched there. *)
Lemma match_phrase_here p ps q m post :
  q ∈ p :: ps → phrase_matches q m = true →
  is_Some (Re.match_here (Re.phrases_ic p ps) (m +:+ post)).
Proof.
  intros Hq Hm. unfold Re.match_here, Re.phrases_ic. cbn [Re.regex Re.IGNORECASE Re.DOTALL].
  apply (exec_any_of_some _ _ (Re.phrase q)).
  - change (Re.phrase p :: map Re.phrase ps) with (map Re.phrase (p :: ps)).
    apply list_elem_of_fmap. eauto.
  - rewrite exec_phrase_app by done. eauto.
Qed.

(** X9: a description pattern (alternatives of letters and dots, compiled
    with [re.IGNORECASE]) finds a match in every text that contains an
    instance of one of its phrases: the letters of the phrase in any case,
    and one character that is not a newline for each dot. *)
Theorem phrase_instance_matches p ps s :
  phrase_occurs (p :: ps) s → is_Some (Re.search (Re.phrases_ic p ps) s).
Proof.
  intros (pre & m & post & q & -> & Hq & Hm).
  apply search_at. by apply (match_phrase_here p ps q).
Qed.

(** The first phrase of [DOS_PATTERNS], capitalised and with hyphens. *)
Lemma phrase_instance_matches_witness :
  is_Some (Re.search DOS_PATTERNS ("A " +:+ "Denial-Of-Service" +:+ " risk")).
Proof.
  apply (phrase_instance_matches "denial.of.service"
           ["dos.attack"; "resource.exhaust"; "cpu.exhaust";
            "memory.exhaust"; "bandwidth.exhaust"; "disk.exhaust"]).
  exists "A ", "Denial-Of-Service", " risk", "denial.of.service".
  split; [reflexivity|]. split; [apply list_elem_of_here|reflexivity].
Defined.

(** X10: a finding whose category is a [str] that is not excluded after
    normalisation and whose description is a [str] that contains an instance
    of one of the seven phrases of [DOS_PATTERNS] is excluded with the reason
    [dos_pattern], whatever its file is. *)
Theorem dos_phrase_excludes d c s :
  norm_category d = Ok c →
  c ∉ EXCLUDED_CATEGORIES →
  dict_get d "description" (VStr "") = VStr s →
  phrase_occurs dos_phrases s →
  get_exclusion_reason d = Ok (Some "dos_pattern").
Proof.
  intros Hc Hcat Hd (pre & m & post & q & -> & Hq & Hm).
  rewrite get_exclusion_reason_unfold. unfold norm_category in Hc.
  destruct (dict_get d "category" (VStr "")) as [| | | |c'| |]; try discriminate.
  injection Hc as <-. rewrite bool_decide_eq_false_2 by done.
  unfold after_category. rewrite Hd, rule_str.
  rewrite bool_decide_eq_true_2; [done|].
  apply search_at. by apply (match_phrase_here _ _ q).
Qed.

(** The sqli finding of the example scenario, described as a denial of
    service. *)
Lemma dos_phrase_excludes_witness :
  get_exclusion_reason
    (<["description" := VStr ("A " +:+ "Denial-Of-Service" +:+ " risk")]> finding_sqli)
  = Ok (Some "dos_pattern").
Proof.
  apply (dos_phrase_excludes _ "sqli" ("A " +:+ "Denial-Of-Service" +:+ " risk")).
  - reflexivity.
  - vm_compute. intros H. discriminate H.
  - reflexivity.
  - exists "A ", "Denial-Of-Service", " risk", "denial.of.service".
    split; [reflexivity|]. split; [apply list_elem_of_here|reflexivity].
Defined.

(** ** The decoder: padding and failure *)

Lemma lstrip_space ws s : all_space ws = true → PyStr.lstrip (ws +:+ s) = PyStr.lstrip s.
Proof.
  induction ws as [|a ws IH]; [done|]. cbn. intros [Ha Hws]%andb_true_iff.
  rewrite string_app_cons. cbn. rewrite Ha. auto.
Qed.

Lemma rstrip_all_space ws : all_space ws = true → PyStr.rstrip ws = "".
Proof.
  induction ws as [|a ws IH]; [done|]. cbn. intros [Ha Hws]%andb_true_iff.
  by rewrite IH, Ha.
Qed.

Lemma rstrip_space s ws : all_space ws = true → PyStr.rstrip (s +:+ ws) = PyStr.rstrip s.
Proof.
  intros Hws. induction s as [|a s IH].
  - rewrite string_app_nil. by apply rstrip_all_space.
  - rewrite string_app_cons. cbn. by rewrite IH.
Qed.

Lemma lstrip_all_space ws : all_space ws = true → PyStr.lstrip ws = "".
Proof.
  induction ws as [|a ws IH]; [done|]. cbn. intros [Ha Hws]%andb_true_iff.
  rewrite Ha. auto.
Qed.

Lemma strip_space_r s ws : all_space ws = true → PyStr.strip (s +:+ ws) = PyStr.strip s.
Proof.
  intros Hws. unfold PyStr.strip. induction s as [|a s IH].
  - rewrite string_app_nil. by rewrite lstrip_all_space.
  - rewrite string_app_cons. cbn [PyStr.lstrip]. destruct (PyStr.isspace a); [exact IH|].
    rewrite <- string_app_cons. by apply rstrip_space.
Qed.

Lemma strip_padding ws1 s ws2 :
  all_space ws1 = true → all_space ws2 = true →
  PyStr.strip (ws1 +:+ s +:+ ws2) = PyStr.strip s.
Proof.
  intros H1 H2. unfold PyStr.strip at 1. rewrite lstrip_space by done.
  by apply strip_space_r.
Qed.

Section DecoderExtras.
Variable json_loads : string → result value.

(** X11: whitespace around a document is ignored: if the text between the
    padding, once stripped, is a non-empty string that [json.loads] accepts,
    the decoder returns its value by the direct strategy. *)
Theorem decode_ignores_padding ws1 doc ws2 v :
  all_space ws1 = true → all_space ws2 = true →
  PyStr.strip doc ≠ "" →
  json_loads (PyStr.strip doc) = Ok v →
  parse_json_with_fallbacks json_loads (ws1 +:+ doc +:+ ws2) = Ok (true, v).
Proof.
  intros H1 H2 Hne Hv. unfold parse_json_with_fallbacks.
  rewrite direct_parse_eq, strip_padding, Hv by done.
  assert (PyStr.is_empty (PyStr.strip doc) = false) as -> by (by destruct (PyStr.strip doc)).
  rewrite orb_false_r.
  assert (PyStr.is_empty (ws1 +:+ doc +:+ ws2) = false) as ->; [|done].
  destruct (ws1 +:+ doc +:+ ws2) eqn:E; [|done].
  exfalso. apply Hne. rewrite <- (strip_padding ws1 doc ws2 H1 H2), E. done.
Qed.

(** X12: a text that [json.loads] rejects and that holds no code fence, no
    opening brace and no opening square bracket is decoded to
    [(False, None)]. *)
Theorem decode_fails_without_candidates text :
  json_loads (PyStr.strip text) = Raise JSONDecodeError →
  PyStr.contains "```" text = false →
  PyStr.contains "{" text = false →
  PyStr.contains "[" text = false →
  parse_json_with_fallbacks json_loads text = Ok (false, VNone).
Proof.
  intros Hd Hf Hb1 Hb2. unfold parse_json_with_fallbacks.
  destruct (_ || _); [done|].
  rewrite direct_parse_eq, Hd. cbn [mbind result_bind].
  rewrite code_blocks_no_fence by done. cbn [mbind result_bind].
  by rewrite !bracket_matching_absent.
Qed.

(** X13: the bracket scan tries one candidate for each kind of delimiter. If
    the region opened by the first brace of the text is balanced and
    [json.loads] rejects it, then (with no fence and no square bracket in the
    text) the decoder fails, whatever follows the region. *)
Theorem decode_does_not_backtrack pre inner post :
  PyStr.contains "{" pre = false →
  balanced "{" "}" inner →
  json_loads (region "{" "}" inner) = Raise JSONDecodeError →
  PyStr.contains "[" (pre +:+ region "{" "}" inner +:+ post) = false →
  json_loads (PyStr.strip (pre +:+ region "{" "}" inner +:+ post)) = Raise JSONDecodeError →
  PyStr.contains "```" (pre +:+ region "{" "}" inner +:+ post) = false →
  parse_json_with_fallbacks json_loads (pre +:+ region "{" "}" inner +:+ post)
  = Ok (false, VNone).
Proof.
  intros Hpre Hbal Hnone Hsq Hd Hf. unfold parse_json_with_fallbacks.
  destruct (_ || _); [done|].
  rewrite direct_parse_eq, Hd. cbn [mbind result_bind].
  rewrite code_blocks_no_fence by done. cbn [mbind result_bind].
  rewrite bracket_matching_region by done. rewrite Hnone.
  by rewrite bracket_matching_absent.
Qed.

End DecoderExtras.

(** A document between a space and a newline. *)
Lemma decode_ignores_padding_witness :
  parse_json_with_fallbacks sample_loads (" " +:+ doc_a_1 +:+ newline_string)
  = Ok (true, VDict [("a", VInt 1)]).
Proof.
  apply (decode_ignores_padding sample_loads " " doc_a_1 newline_string);
    [reflexivity|reflexivity|discriminate|reflexivity].
Defined.

(** Prose without a fence or a bracket. *)
Lemma decode_fails_without_candidates_witness :
  parse_json_with_fallbacks sample_loads "no findings" = Ok (false, VNone).
Proof. apply decode_fails_without_candidates; reflexivity. Defined.

(** A region that is not JSON, followed by a document: the document is not
    looked for. *)
Lemma decode_does_not_backtrack_witness :
  parse_json_with_fallbacks sample_loads
    ("see " +:+ region "{" "}" "x" +:+ (" then " +:+ doc_a_1))
  = Ok (false, VNone).
Proof.
  apply (decode_does_not_backtrack sample_loads "see " "x" (" then " +:+ doc_a_1));
    [reflexivity|plain_chars; apply balanced_nil|reflexivity..].
Defined.

(** ** The decoder: regions that never close *)

Section Unclosed.
Variable json_loads : string → result value.
Variables (text : string) (sc ec : ascii) (start : nat).
Hypothesis sc_ec : sc ≠ ec.
Hypothesis sc_quote : sc ≠ PyStr.dquote.
Hypothesis ec_quote : ec ≠ PyStr.dquote.

Lemma scan_open_body body : open_body body → ∀ pre d,
  text = pre +:+ body →
  scan json_loads text sc ec start (mkScan d true false)
    (seq (String.length pre) (String.length body)) = Ok None.
Proof.
  intros [b Hb|b Hb] pre d Htext.
  - rewrite <- (string_app_nil_r b) in Htext |- * at 1.
    by rewrite (scan_str_body json_loads text sc ec start b Hb pre "" d Htext).
  - rewrite (scan_str_body json_loads text sc ec start b Hb pre _ d Htext).
    rewrite <- string_app_assoc in Htext.
    rewrite (scan_cons _ _ _ _ _ _ _ _ _ Htext), (scan_body_char _ _ _ _ _ _ _ _ _ Htext).
    scan_simpl. rewrite Ascii.eqb_refl. scan_simpl. done.
Qed.

Lemma scan_unclosed x : unclosed sc ec x → ∀ pre d,
  text = pre +:+ x → (1 ≤ d)%Z →
  scan json_loads text sc ec start (mkScan d false false)
    (seq (String.length pre) (String.length x)) = Ok None.
Proof.
  induction 1 as [b Hb|b s Hb _ IH|b body Hb Hbody]; intros pre d Htext Hd.
  - rewrite <- (string_app_nil_r b) in Htext |- * at 1.
    by rewrite (scan_balanced json_loads text sc ec start sc_ec sc_quote ec_quote
                  b Hb pre "" d Htext Hd).
  - rewrite (scan_balanced json_loads text sc ec start sc_ec sc_quote ec_quote
               b Hb pre _ d Htext Hd).
    rewrite <- string_app_assoc in Htext.
    rewrite (scan_cons _ _ _ _ _ _ _ _ _ Htext), (scan_body_char _ _ _ _ _ _ _ _ _ Htext).
    scan_simpl. rewrite (eqb_false _ _ sc_quote), Ascii.eqb_refl, andb_false_r. scan_simpl.
    rewrite <- string_app_snoc in Htext. apply IH; [exact Htext|lia].
  - rewrite (scan_balanced json_loads text sc ec start sc_ec sc_quote ec_quote
               b Hb pre _ d Htext Hd).
    rewrite <- string_app_assoc in Htext.
    rewrite (scan_cons _ _ _ _ _ _ _ _ _ Htext), (scan_body_char _ _ _ _ _ _ _ _ _ Htext).
    scan_simpl. rewrite andb_false_r, Ascii.eqb_refl. scan_simpl.
    rewrite <- string_app_snoc in Htext. by apply scan_open_body.
Qed.

End Unclosed.

Section UnclosedPass.
Variable json_loads : string → result value.

Lemma bracket_matching_unclosed sc ec pairs pre x :
  sc ≠ ec → sc ≠ PyStr.dquote → ec ≠ PyStr.dquote →
  PyStr.contains (String sc "") pre = false →
  unclosed sc ec x →
  bracket_matching json_loads ((sc, ec) :: pairs) (pre +:+ String sc x)
  = bracket_matching json_loads pairs (pre +:+ String sc x).
Proof.
  intros Hse Hsq Heq Hpre Hx. set (text := pre +:+ String sc x). cbn [bracket_matching].
  assert (PyStr.find text (String sc "") = Z.of_nat (String.length pre)) as ->.
  { unfold PyStr.find, text. rewrite find_char_app by done. apply Z.add_0_l. }
  destruct (Z.of_nat (String.length pre) =? -1)%Z eqn:Hz; [apply Z.eqb_eq in Hz; lia|].
  rewrite Nat2Z.id.
  replace (String.length text - String.length pre)%nat
    with (String.length (String sc x))
    by (unfold text; rewrite string_length_app; lia).
  assert (Htext : text = pre +:+ String sc x) by done.
  rewrite (scan_cons _ _ _ _ _ _ _ _ _ Htext), (scan_body_char _ _ _ _ _ _ _ _ _ Htext).
  scan_simpl. rewrite (eqb_false _ _ Hsq), Ascii.eqb_refl, andb_false_r. scan_simpl.
  rewrite <- string_app_snoc in Htext.
  by rewrite (scan_unclosed json_loads text sc ec _ Hse Hsq Heq x Hx _ _ Htext) by lia.
Qed.

(** X14: a region that never closes gives no candidate. If the text after
    the first brace ends inside the region, inside a nested region or inside
    a string literal, then (with no fence and no square bracket in the text)
    the decoder fails. *)
Theorem decode_fails_on_unclosed_region pre x :
  PyStr.contains "{" pre = false →
  unclosed "{" "}" x →
  PyStr.contains "[" (pre +:+ String "{" x) = false →
  json_loads (PyStr.strip (pre +:+ String "{" x)) = Raise JSONDecodeError →
  PyStr.contains "```" (pre +:+ String "{" x) = false →
  parse_json_with_fallbacks json_loads (pre +:+ String "{" x) = Ok (false, VNone).
Proof.
  intros Hpre Hx Hsq Hd Hf. unfold parse_json_with_fallbacks.
  destruct (_ || _); [done|].
  rewrite direct_parse_eq, Hd. cbn [mbind result_bind].
  rewrite code_blocks_no_fence by done. cbn [mbind result_bind].
  rewrite bracket_matching_unclosed by done.
  by rewrite bracket_matching_absent.
Qed.

End UnclosedPass.

(** An object cut off inside its second string. *)
Lemma decode_fails_on_unclosed_region_witness :
  parse_json_with_fallbacks sample_loads
    ("Result: " +:+ String "{" (quoted "a" +:+ ": " +:+ String PyStr.dquote "}{"))
  = Ok (false, VNone).
Proof.
  apply (decode_fails_on_unclosed_region sample_loads "Result: "
           (quoted "a" +:+ ": " +:+ String PyStr.dquote "}{")); try reflexivity.
  apply (unclosed_string _ _ (quoted "a" +:+ ": ") "}{").
  - apply (balanced_string _ _ "a" ": "); [body_chars|]. plain_chars. apply balanced_nil.
  - apply open_body_chars. body_chars.
Defined.

(** ** The decoder: code fences *)

(** *** Splitting at the whitespace that [strip] removes *)

Lemma lstrip_split s : ∃ ws, s = ws +:+ PyStr.lstrip s ∧ all_space ws = true.
Proof.
  induction s as [|a s (ws & IH & Hws)]; [by exists ""|]. cbn [PyStr.lstrip].
  destruct (PyStr.isspace a) eqn:Ha; [|by exists ""].
  exists (String a ws). rewrite string_app_cons, <- IH. cbn. by rewrite Ha.
Qed.

Lemma rstrip_split s : ∃ ws, s = PyStr.rstrip s +:+ ws ∧ all_space ws = true.
Proof.
  induction s as [|a s (ws & IH & Hws)]; [by exists ""|]. cbn [PyStr.rstrip].
  destruct (PyStr.rstrip s) as [|b r] eqn:Hr.
  - rewrite string_app_nil in IH. subst ws.
    destruct (PyStr.isspace a) eqn:Ha.
    + exists (String a s). rewrite string_app_nil. cbn. by rewrite Ha.
    + exists s. by rewrite string_app_cons, string_app_nil.
  - exists ws. by rewrite string_app_cons, <- IH.
Qed.

Lemma lstrip_head s a r : PyStr.lstrip s = String a r → PyStr.isspace a = false.
Proof.
  induction s as [|b s IH]; [done|]. cbn. destruct (PyStr.isspace b) eqn:Hb; [done|].
  by intros [= <- _].
Qed.

Lemma rstrip_cons a s :
  PyStr.isspace a = false → PyStr.rstrip (String a s) = String a (PyStr.rstrip s).
Proof. intros Ha. cbn. rewrite Ha. by destruct (PyStr.rstrip s). Qed.

Lemma rstrip_ends_nonspace s : ends_nonspace (PyStr.rstrip s).
Proof.
  induction s as [|a s IH]; intros s1 s2.
  - destruct s1; [rewrite string_app_nil; by intros <-|by rewrite string_app_cons].
  - cbn [PyStr.rstrip]. destruct (PyStr.rstrip s) as [|b r] eqn:Hr.
    + destruct (PyStr.isspace a) eqn:Ha.
      * destruct s1; [rewrite string_app_nil; by intros <-|by rewrite string_app_cons].
      * destruct s1 as [|c s1].
        -- rewrite string_app_nil. intros <- _. cbn. by rewrite Ha.
        -- rewrite string_app_cons. intros [= <- E].
           destruct s1; [rewrite string_app_nil in E; by subst|by rewrite string_app_cons in E].
    + destruct s1 as [|c s1].
      * rewrite string_app_nil. intros <- _.
        change (PyStr.isspace a && all_space (String b r) = false).
        rewrite (IH "" (String b r)); [apply andb_false_r|by rewrite string_app_nil|done].
      * rewrite string_app_cons. intros [= <- E]. by apply (IH s1 s2).
Qed.

(** [s] is leading whitespace, [s.strip()], trailing whitespace; and
    [s.strip()] neither begins nor ends with whitespace. *)
Lemma strip_split s :
  ∃ ws0 ws1, s = ws0 +:+ PyStr.strip s +:+ ws1 ∧
    all_space ws0 = true ∧ all_space ws1 = true ∧
    ends_nonspace (PyStr.strip s) ∧
    (∀ a r, PyStr.strip s = String a r → PyStr.isspace a = false).
Proof.
  destruct (lstrip_split s) as (ws0 & Hs & H0).
  destruct (rstrip_split (PyStr.lstrip s)) as (ws1 & Hl & H1).
  exists ws0, ws1. unfold PyStr.strip. rewrite <- Hl, <- Hs.
  do 3 (split; [done|]). split; [apply rstrip_ends_nonspace|].
  intros a r. destruct (PyStr.lstrip s) as [|b l] eqn:El; [done|].
  rewrite (rstrip_cons b l (lstrip_head _ _ _ El)). intros [= <- _].
  exact (lstrip_head _ _ _ El).
Qed.

(** *** Runs of the matcher on a known input *)

Section MatcherRuns.
Context {A : Type}.

Lemma exec_lit_app dotall o : ∀ s cap (k : string → option string → option A),
  Re.exec false dotall (Re.lit o) (o +:+ s) cap k = k s cap.
Proof.
  induction o as [|c o IH]; intros s cap k; [by rewrite string_app_nil|].
  rewrite string_app_cons. cbn [Re.lit Re.exec Re.step]. unfold Re.chr_matches.
  rewrite Ascii.eqb_refl. apply IH.
Qed.

Lemma greedy_split s (k : string → option A) x :
  Re.greedy PyStr.isspace s k = Some x →
  ∃ s1 s2, s = s1 +:+ s2 ∧ all_space s1 = true ∧ k s2 = Some x.
Proof.
  induction s as [|a s IH]; cbn [Re.greedy].
  - intros Hk. by exists "", "".
  - destruct (PyStr.isspace a) eqn:Ha; [|intros Hk; by exists "", (String a s)].
    destruct (Re.greedy PyStr.isspace s k) eqn:Hg.
    + intros [= ->]. destruct (IH eq_refl) as (s1 & s2 & -> & H1 & Hk).
      exists (String a s1), s2. rewrite string_app_cons. cbn. by rewrite Ha.
    + intros Hk. by exists "", (String a s).
Qed.

(** Greedy whitespace in front of a character that is none is taken whole. *)
Lemma greedy_space ws s (k : string → option A) x :
  all_space ws = true →
  (∀ a r, s = String a r → PyStr.isspace a = false) →
  k s = Some x →
  Re.greedy PyStr.isspace (ws +:+ s) k = Some x.
Proof.
  intros Hws Hs Hk. induction ws as [|a ws IH].
  - rewrite string_app_nil. destruct s as [|b r]; [done|]. cbn.
    by rewrite (Hs b r eq_refl).
  - rewrite string_app_cons. cbn in Hws |- *.
    apply andb_true_iff in Hws as [-> Hws]. by rewrite IH.
Qed.

Lemma lazy_here p s (k : string → option A) x : k s = Some x → Re.lazy p s k = Some x.
Proof. intros Hk. destruct s; cbn; by rewrite Hk. Qed.

(** The lazy star moves on while the continuation fails. *)
Lemma lazy_skip p s rest (k : string → option A) :
  (∀ a, p a = true) →
  (∀ s1 s2, s = s1 +:+ s2 → s2 ≠ "" → k (s2 +:+ rest) = None) →
  Re.lazy p (s +:+ rest) k = Re.lazy p rest k.
Proof.
  intros Hp. induction s as [|a s IH]; intros Hk; [by rewrite string_app_nil|].
  rewrite string_app_cons. cbn [Re.lazy]. rewrite <- string_app_cons.
  rewrite (Hk "" (String a s)); [|by rewrite string_app_nil|done].
  rewrite Hp. apply IH. intros s1 s2 -> Hs2.
  apply (Hk (String a s1) s2); [by rewrite string_app_cons|done].
Qed.

End MatcherRuns.

Lemma search_here p s m : Re.match_here p s = Some m → Re.search p s = Some m.
Proof. intros H. destruct s; cbn; by rewrite H. Qed.

Lemma search_skip p pre rest :
  (∀ s1 s2, pre = s1 +:+ s2 → s2 ≠ "" → Re.match_here p (s2 +:+ rest) = None) →
  Re.search p (pre +:+ rest) = Re.search p rest.
Proof.
  induction pre as [|a pre IH]; intros Hk; [by rewrite string_app_nil|].
  rewrite string_app_cons. cbn [Re.search]. rewrite <- string_app_cons.
  rewrite (Hk "" (String a pre)); [|by rewrite string_app_nil|done].
  apply IH. intros s1 s2 -> Hs2.
  apply (Hk (String a s1) s2); [by rewrite string_app_cons|done].
Qed.

Lemma search_absent opening text :
  PyStr.contains opening text = false →
  Re.search (Re.Pattern (fenced opening) false true) text = None.
Proof.
  induction text as [|a text IH]; cbn [PyStr.contains Re.search].
  - rewrite orb_false_r. intros Hs. destruct (Re.match_here _ "") eqn:H; [|done].
    apply exec_lit_startswith in H. congruence.
  - intros [Hs Hc]%orb_false_iff.
    destruct (Re.match_here _ (String a text)) eqn:H; [|auto].
    apply exec_lit_startswith in H. congruence.
Qed.

(** *** Fences *)

Lemma startswith_cons a s b p :
  PyStr.startswith (String a s) (String b p) = Ascii.eqb a b && PyStr.startswith s p.
Proof. done. Qed.

Lemma fence_free_split s s1 s2 rest :
  fence_free s = true → s = s1 +:+ s2 → s2 ≠ "" →
  PyStr.startswith (s2 +:+ rest) "```" = false.
Proof.
  unfold fence_free. intros Hs -> Hs2.
  destruct (PyStr.startswith (s2 +:+ rest) "```") eqn:E; [|done].
  rewrite string_app_assoc in Hs.
  assert (PyStr.startswith (s2 +:+ "``") "```" = true) as [t Ht]%startswith_inv.
  { destruct s2 as [|a s2]; [done|]. rewrite string_app_cons in E |- *.
    rewrite startswith_cons in E |- *. apply andb_true_iff in E as [-> E]. cbn [andb].
    destruct s2 as [|b s2]; [reflexivity|]. rewrite string_app_cons in E |- *.
    rewrite startswith_cons in E |- *. apply andb_true_iff in E as [-> E]. cbn [andb].
    destruct s2 as [|c s2]; [reflexivity|]. rewrite string_app_cons in E |- *.
    rewrite startswith_cons in E |- *. apply andb_true_iff in E as [-> E].
    by destruct (s2 +:+ "``"). }
  rewrite Ht, contains_app in Hs. done.
Qed.

(** A suffix that is whitespace up to a point has passed the end of a text
    that does not end with whitespace. *)
Lemma space_prefix d r s1 s2 :
  ends_nonspace d → d ≠ "" → d +:+ r = s1 +:+ s2 → all_space s1 = true →
  ∃ d', d' ≠ "" ∧ d = s1 +:+ d' ∧ s2 = d' +:+ r.
Proof.
  revert d. induction s1 as [|a s1 IH]; intros d Hd Hne E Hs1.
  - rewrite string_app_nil in E. exists d. by rewrite string_app_nil.
  - destruct d as [|b d]; [done|]. rewrite !string_app_cons in E.
    injection E as -> E. cbn in Hs1. apply andb_true_iff in Hs1 as [Ha Hs1].
    destruct (decide (d = "")) as [->|Hd'].
    + specialize (Hd "" (String a "")). rewrite string_app_nil in Hd.
      specialize (Hd eq_refl ltac:(done)). cbn in Hd. by rewrite Ha in Hd.
    + destruct (IH d) as (d' & ? & -> & ->); [|done..|].
      * intros t1 t2 -> Ht2. apply (Hd (String a t1) t2); [by rewrite string_app_cons|done].
      * exists d'. by rewrite string_app_cons.
Qed.

Lemma all_space_app s t : all_space (s +:+ t) = all_space s && all_space t.
Proof.
  induction s as [|a s IH]; [done|]. rewrite string_app_cons. cbn.
  by rewrite IH, andb_assoc.
Qed.

Lemma take_length_sub s t :
  PyStr.take (String.length (s +:+ t) - String.length t) (s +:+ t) = s.
Proof.
  rewrite string_length_app.
  replace (String.length s + String.length t - String.length t)%nat
    with (String.length s) by lia.
  apply take_app.
Qed.

(** [\s*```] fails inside a fence-free body that does not end with
    whitespace. *)
Lemma closing_fails {A} pre d ws post cap (k : string → option string → option A) :
  fence_free (pre +:+ d +:+ ws) = true → ends_nonspace d → d ≠ "" →
  Re.greedy PyStr.isspace (d +:+ ws +:+ "```" +:+ post)
    (λ s, Re.exec false true (Re.lit "```") s cap k) = None.
Proof.
  intros Hf Hd Hne.
  destruct (Re.greedy _ _ _) as [x|] eqn:Hg; [exfalso|done].
  apply greedy_split in Hg as (s1 & s2 & E & Hs1 & Hk).
  apply exec_lit_startswith in Hk.
  destruct (space_prefix _ _ _ _ Hd Hne E Hs1) as (d' & Hd' & -> & ->).
  rewrite <- string_app_assoc in Hk.
  rewrite (fence_free_split _ (pre +:+ s1) (d' +:+ ws) _ Hf) in Hk; [done| |].
  - by rewrite !string_app_assoc.
  - destruct d'; [done|by rewrite string_app_cons].
Qed.

Lemma match_fenced opening body post :
  fence_free body = true →
  Re.match_here (Re.Pattern (fenced opening) false true)
    (opening +:+ body +:+ "```" +:+ post)
  = Some (Re.Match (Some (PyStr.strip body))).
Proof.
  intros Hf. unfold Re.match_here, fenced.
  cbn [Re.regex Re.IGNORECASE Re.DOTALL Re.exec]. rewrite exec_lit_app.
  destruct (strip_split body) as (ws0 & ws1 & Hb & H0 & H1 & Hend & Hhead).
  destruct (PyStr.strip body) as [|a doc] eqn:Hdoc.
  - rewrite string_app_nil in Hb.
    assert (Hws : all_space body = true) by (by rewrite Hb, all_space_app, H0, H1).
    apply greedy_space; [done|by intros ? ? [= <- _]|].
    apply lazy_here. rewrite (greedy_space "" ("```" +:+ post) _ (Re.Match (Some "")));
      [done|done|by intros ? ? [= <- _]|].
    rewrite exec_lit_app. by rewrite Nat.sub_diag.
  - rewrite Hb at 1. rewrite !string_app_assoc.
    apply greedy_space; [done|by intros ? ? [= <- _]; eauto|].
    rewrite lazy_skip.
    + apply lazy_here.
      rewrite (greedy_space ws1 ("```" +:+ post) _ (Re.Match (Some (String a doc))));
        [done|done|by intros ? ? [= <- _]|].
      rewrite exec_lit_app. by rewrite take_length_sub.
    + intros c. by destruct (PyStr.isspace c).
    + intros d1 d2 Hd Hd2. apply (closing_fails (ws0 +:+ d1)); [..|done].
      * by rewrite !string_app_assoc, <- (string_app_assoc d1), <- Hd, <- Hb.
      * intros t1 t2 -> Ht2. apply (Hend (d1 +:+ t1) t2); [|done].
        by rewrite Hd, string_app_assoc.
Qed.

Lemma fenced_text_nonempty pre rest :
  let text := pre +:+ String "`" rest in
  PyStr.is_empty text || PyStr.is_empty (PyStr.strip text) = false.
Proof.
  cbv zeta. rewrite (strip_nonspace pre "`" rest) by done.
  by destruct pre.
Qed.

Lemma search_fenced opening pre body post :
  PyStr.startswith opening "```" = true →
  fence_free pre = true → fence_free body = true →
  Re.search (Re.Pattern (fenced opening) false true)
    (pre +:+ opening +:+ body +:+ "```" +:+ post)
  = Some (Re.Match (Some (PyStr.strip body))).
Proof.
  intros Hop Hpre Hbody. rewrite search_skip; [by apply search_here, match_fenced|].
  intros s1 s2 Hs Hs2. destruct (Re.match_here _ _) as [m|] eqn:Hm; [exfalso|done].
  apply exec_lit_startswith in Hm. apply (startswith_trans _ _ _ Hm) in Hop.
  by rewrite (fence_free_split _ _ _ _ Hpre Hs Hs2) in Hop.
Qed.

Lemma rstrip_fixed s : ends_nonspace s → PyStr.rstrip s = s.
Proof.
  induction s as [|a s IH]; [done|]. intros Hs. cbn [PyStr.rstrip]. rewrite IH.
  - destruct s; [|done]. specialize (Hs "" (String a "") eq_refl ltac:(done)).
    cbn in Hs. rewrite andb_true_r in Hs. by rewrite Hs.
  - intros t1 t2 -> Ht2. apply (Hs (String a t1) t2); [by rewrite string_app_cons|done].
Qed.

Lemma strip_strip s : PyStr.strip (PyStr.strip s) = PyStr.strip s.
Proof.
  destruct (strip_split s) as (_ & _ & _ & _ & _ & Hend & Hhead).
  unfold PyStr.strip at 1. destruct (PyStr.strip s) as [|a r]; [done|].
  cbn [PyStr.lstrip]. rewrite (Hhead a r eq_refl). by apply rstrip_fixed.
Qed.

Ltac text_nonempty pre rest :=
  match goal with
  | |- context [?a || ?b] =>
      assert (a || b = false) as -> by apply (fenced_text_nonempty pre rest)
  end.

Section Fences.
Variable json_loads : string → result value.

(** X15: a block tagged [json] is decoded from its content. If no triple
    backtick begins before the opening fence or inside the block, and the
    stripped content of the block is accepted by [json.loads], the decoder
    returns its value, whatever precedes the block and follows it. *)
Theorem decode_json_fence pre body post v :
  fence_free pre = true → fence_free body = true →
  json_loads (PyStr.strip (pre +:+ "```json" +:+ body +:+ "```" +:+ post)) = Raise JSONDecodeError →
  json_loads (PyStr.strip body) = Ok v →
  parse_json_with_fallbacks json_loads (pre +:+ "```json" +:+ body +:+ "```" +:+ post)
  = Ok (true, v).
Proof.
  intros Hpre Hbody Hd Hv. unfold parse_json_with_fallbacks.
  text_nonempty pre ("``json" +:+ body +:+ "```" +:+ post).
  rewrite direct_parse_eq, Hd. cbn [mbind result_bind].
  unfold code_block_patterns. cbn [code_blocks].
  rewrite search_fenced by done. unfold group1_strip. cbn [Re.group1 mbind result_bind].
  rewrite try_loads_eq. cbn [mbind result_bind].
  by rewrite strip_strip, Hv.
Qed.

(** X16: the same for a block without a tag, in a text that holds no
    fence tagged [json]. *)
Theorem decode_plain_fence pre body post v :
  fence_free pre = true → fence_free body = true →
  PyStr.contains "```json" (pre +:+ "```" +:+ body +:+ "```" +:+ post) = false →
  json_loads (PyStr.strip (pre +:+ "```" +:+ body +:+ "```" +:+ post)) = Raise JSONDecodeError →
  json_loads (PyStr.strip body) = Ok v →
  parse_json_with_fallbacks json_loads (pre +:+ "```" +:+ body +:+ "```" +:+ post)
  = Ok (true, v).
Proof.
  intros Hpre Hbody Htag Hd Hv. unfold parse_json_with_fallbacks.
  text_nonempty pre ("``" +:+ body +:+ "```" +:+ post).
  rewrite direct_parse_eq, Hd. cbn [mbind result_bind].
  unfold code_block_patterns. cbn [code_blocks].
  rewrite search_absent by done.
  rewrite search_fenced by done. unfold group1_strip. cbn [Re.group1 mbind result_bind].
  rewrite try_loads_eq. cbn [mbind result_bind].
  by rewrite strip_strip, Hv.
Qed.

End Fences.

(** A tagged block between two lines of prose. *)
Lemma decode_json_fence_witness :
  parse_json_with_fallbacks sample_loads
    (("Findings:" +:+ newline_string) +:+ "```json" +:+
     (newline_string +:+ doc_a_1 +:+ newline_string) +:+ "```" +:+ " done")
  = Ok (true, VDict [("a", VInt 1)]).
Proof.
  apply (decode_json_fence sample_loads ("Findings:" +:+ newline_string)
           (newline_string +:+ doc_a_1 +:+ newline_string) " done"); reflexivity.
Defined.

(** The same block without the tag. *)
Lemma decode_plain_fence_witness :
  parse_json_with_fallbacks sample_loads
    (("Findings:" +:+ newline_string) +:+ "```" +:+
     (newline_string +:+ doc_a_1 +:+ newline_string) +:+ "```" +:+ " done")
  = Ok (true, VDict [("a", VInt 1)]).
Proof.
  apply (decode_plain_fence sample_loads ("Findings:" +:+ newline_string)
           (newline_string +:+ doc_a_1 +:+ newline_string) " done"); reflexivity.
Defined.

Lemma fence_free_tag body : fence_free body = true → fence_free ("json" +:+ body) = true.
Proof.
  unfold fence_free. intros H. rewrite !string_app_cons, string_app_nil.
  cbn [PyStr.contains PyStr.startswith]. by destruct (PyStr.contains _ _).
Qed.

Section FenceFallThrough.
Variable json_loads : string → result value.

(** X17: a block whose content is rejected is not the end. If the content
    of a tagged block is not JSON, with or without the tag in front, and the
    first brace of the text opens a balanced region inside the block that
    [json.loads] accepts, the decoder returns the value of that region. *)
Theorem decode_falls_through_fence pre before inner after post v :
  let body := before +:+ region "{" "}" inner +:+ after in
  let text := pre +:+ "```json" +:+ body +:+ "```" +:+ post in
  fence_free pre = true → fence_free body = true →
  json_loads (PyStr.strip text) = Raise JSONDecodeError →
  json_loads (PyStr.strip body) = Raise JSONDecodeError →
  json_loads (PyStr.strip ("json" +:+ body)) = Raise JSONDecodeError →
  PyStr.contains "{" (pre +:+ "```json" +:+ before) = false →
  balanced "{" "}" inner →
  json_loads (region "{" "}" inner) = Ok v →
  parse_json_with_fallbacks json_loads text = Ok (true, v).
Proof.
  intros body text Hpre Hbody Hd Hb1 Hb2 Hbrace Hbal Hv.
  assert (Htext : text = (pre +:+ "```json" +:+ before) +:+ region "{" "}" inner
                         +:+ (after +:+ "```" +:+ post)).
  { unfold text, body. by rewrite !string_app_assoc. }
  assert (H1 : Re.search (Re.Pattern (fenced "```json") false true) text
               = Some (Re.Match (Some (PyStr.strip body))))
    by (by apply search_fenced).
  assert (H2 : Re.search (Re.Pattern (fenced "```") false true) text
               = Some (Re.Match (Some (PyStr.strip ("json" +:+ body)))))
    by (apply (search_fenced "```" pre ("json" +:+ body) post);
        [done|done|by apply fence_free_tag]).
  unfold parse_json_with_fallbacks.
  text_nonempty pre ("``json" +:+ body +:+ "```" +:+ post).
  rewrite direct_parse_eq, Hd. cbn [mbind result_bind].
  unfold code_block_patterns. cbn [code_blocks]. rewrite H1, H2.
  unfold group1_strip. cbn [Re.group1 mbind result_bind].
  rewrite !try_loads_eq, !strip_strip, Hb1. cbn [mbind result_bind].
  rewrite ?try_loads_eq, ?strip_strip, Hb2. cbn [mbind result_bind].
  rewrite Htext, bracket_matching_region by done. by rewrite Hv.
Qed.

End FenceFallThrough.

(** A tagged block whose object is followed by a remark: the block is not
    JSON, the object is found by its braces. *)
Lemma decode_falls_through_fence_witness :
  parse_json_with_fallbacks sample_loads
    ("Findings:" +:+ "```json" +:+
     (newline_string +:+ region "{" "}" (quoted "a" +:+ ": 1") +:+ " (one)") +:+
     "```" +:+ " done")
  = Ok (true, VDict [("a", VInt 1)]).
Proof.
  apply (decode_falls_through_fence sample_loads "Findings:" newline_string
           (quoted "a" +:+ ": 1") " (one)" " done"); try reflexivity.
  apply (balanced_string _ _ "a" ": 1"); [body_chars|]. plain_chars. apply balanced_nil.
Defined.

(** ** The decoder: soundness *)

Lemma occurs_in_refl s : occurs_in s s.
Proof. exists "", "". by rewrite string_app_nil, string_app_nil_r. Qed.

Lemma occurs_in_trans a b c : occurs_in a b → occurs_in b c → occurs_in a c.
Proof.
  intros (p1 & q1 & ->) (p2 & q2 & ->). exists (p2 +:+ p1), (q1 +:+ q2).
  by rewrite !string_app_assoc.
Qed.

Lemma occurs_in_strip s : occurs_in (PyStr.strip s) s.
Proof. destruct (strip_split s) as (ws0 & ws1 & Hs & _). by exists ws0, ws1. Qed.

Lemma occurs_in_slice s a b : occurs_in (PyStr.slice s a b) s.
Proof.
  exists (PyStr.take a s), (PyStr.drop (b - a) (PyStr.drop a s)). unfold PyStr.slice.
  by rewrite (take_drop (b - a)), take_drop.
Qed.

Section MatcherSplits.
Context {A : Type}.

Lemma lazy_split p s (k : string → option A) x :
  Re.lazy p s k = Some x → ∃ s1 s2, s = s1 +:+ s2 ∧ k s2 = Some x.
Proof.
  induction s as [|a s IH]; cbn [Re.lazy].
  - destruct (k "") eqn:Hk; [|done]. intros [= ->]. by exists "", "".
  - destruct (k (String a s)) eqn:Hk; [intros [= ->]; by exists "", (String a s)|].
    destruct (p a); [|done]. intros (s1 & s2 & -> & Hx)%IH.
    by exists (String a s1), s2.
Qed.

Lemma exec_lit_split dotall o : ∀ s cap (k : string → option string → option A) x,
  Re.exec false dotall (Re.lit o) s cap k = Some x →
  ∃ t, s = o +:+ t ∧ k t cap = Some x.
Proof.
  induction o as [|c o IH]; intros s cap k x; cbn [Re.lit Re.exec].
  - intros Hk. by exists s.
  - intros (a & s' & -> & Ha & (t & -> & Hk)%IH)%step_inv.
    unfold Re.chr_matches in Ha. apply Ascii.eqb_eq in Ha as ->. by exists t.
Qed.

End MatcherSplits.

(** What a fence pattern captures is a part of the text. *)
Lemma fenced_group1_occurs_in opening text m :
  Re.search (Re.Pattern (fenced opening) false true) text = Some m →
  ∃ g, Re.group1 m = Some g ∧ occurs_in g text.
Proof.
  intros (pre & s & -> & H)%search_suffix. unfold Re.match_here, fenced in H.
  cbn [Re.regex Re.IGNORECASE Re.DOTALL Re.exec] in H.
  apply exec_lit_split in H as (s1 & -> & H).
  apply greedy_split in H as (ws0 & s2 & -> & _ & H).
  apply lazy_split in H as (g & s3 & -> & H).
  apply greedy_split in H as (ws1 & s4 & -> & _ & H).
  apply exec_lit_split in H as (s5 & -> & [= <-]).
  exists g. split; [cbn; by rewrite take_length_sub|].
  exists (pre +:+ opening +:+ ws0), (ws1 +:+ "```" +:+ s5). by rewrite !string_app_assoc.
Qed.

Section Soundness.
Variable json_loads : string → result value.

Lemma code_blocks_traced openings text :
  traced json_loads text (code_blocks json_loads (map fenced openings) text).
Proof.
  induction openings as [|o openings IH]; cbn [map code_blocks]; [done|].
  destruct (Re.search _ text) as [m|] eqn:Hm; [|exact IH].
  destruct (fenced_group1_occurs_in _ _ _ Hm) as (g & Hg & Hsub).
  assert (Hstrip : occurs_in (PyStr.strip g) text)
    by (eapply occurs_in_trans; [apply occurs_in_strip|done]).
  unfold group1_strip. rewrite Hg. cbn [mbind result_bind].
  rewrite try_loads_eq.
  destruct (json_loads (PyStr.strip g)) as [v|e] eqn:Hv.
  - cbn. eauto 6.
  - destruct e; cbn [mbind result_bind traced]; first [exact IH | eauto].
Qed.

Lemma scan_traced text sc ec start range : ∀ st,
  Forall (λ i, i < String.length text) range →
  traced json_loads text (scan json_loads text sc ec start st range).
Proof.
  induction range as [|i range IH]; intros st Hr; [done|].
  apply Forall_cons in Hr as [Hi Hr]. cbn [scan]. unfold scan_body.
  destruct (index_lt text i Hi) as [a ->]. cbn [mbind result_bind].
  repeat match goal with
         | |- context [if ?b then _ else _] => destruct b
         end;
    cbn [mbind result_bind]; try (by apply IH).
  rewrite try_loads_eq.
  pose proof (occurs_in_slice text start (i + 1)) as Hslice.
  destruct (json_loads _) as [v|e] eqn:Hv.
  - cbn. eauto 6.
  - destruct e; cbn [mbind result_bind traced]; first [done | eauto].
Qed.

Lemma bracket_matching_traced pairs text :
  traced json_loads text (bracket_matching json_loads pairs text).
Proof.
  induction pairs as [|[sc ec] pairs IH]; cbn [bracket_matching]; [done|].
  destruct (_ =? _)%Z; [exact IH|].
  set (start := Z.to_nat _).
  pose proof (scan_traced text sc ec start (seq start (String.length text - start))
                (mkScan 0 false false)) as Hs.
  destruct (scan _ _ _ _ _ _ _) as [[x|]|e]; cbn [mbind result_bind];
    [|exact IH|]; apply Hs, Forall_seq; intros j Hj; lia.
Qed.

(** Every run of the decoder ends in one of the three ways. *)
Lemma decode_traced text :
  decoded json_loads text (parse_json_with_fallbacks json_loads text).
Proof.
  unfold parse_json_with_fallbacks. destruct (_ || _); [done|].
  rewrite direct_parse_eq.
  pose proof (occurs_in_strip text) as Hstrip.
  destruct (json_loads (PyStr.strip text)) as [v1|e1] eqn:H1; [cbn; eauto|].
  destruct e1; cbn [mbind result_bind decoded]; try (split; [done|eauto]).
  pose proof (code_blocks_traced ["```json"; "```"] text) as H2.
  change (map fenced ["```json"; "```"]) with code_block_patterns in H2.
  destruct (code_blocks _ _ _) as [[x|]|e2]; cbn [mbind result_bind traced] in H2 |- *;
    [destruct H2 as (c & v & -> & ? & ?); cbn; eauto| |exact H2].
  pose proof (bracket_matching_traced [("{"%char, "}"%char); ("["%char, "]"%char)] text)
    as H3.
  destruct (bracket_matching _ _ _) as [[x|]|e3]; cbn [mbind result_bind traced] in H3 |- *;
    [destruct H3 as (c & v & -> & ? & ?); cbn; eauto|done|exact H3].
Qed.

(** X18: a success is never made up: when the decoder returns
    [(True, v)], [v] is what [json.loads] gives for some contiguous part of
    the text. *)
Theorem decode_sound text v :
  parse_json_with_fallbacks json_loads text = Ok (true, v) →
  ∃ c, occurs_in c text ∧ json_loads c = Ok v.
Proof.
  intros Hret. pose proof (decode_traced text) as H.
  rewrite Hret in H. exact H.
Qed.

End Soundness.

(** The value decoded from prose around an object is the value of a part of
    the text. *)
Lemma decode_sound_witness :
  ∃ c, occurs_in c ("Result: " +:+ doc_a_1 +:+ " done") ∧
       sample_loads c = Ok (VDict [("a", VInt 1)]).
Proof.
  apply (decode_sound sample_loads ("Result: " +:+ doc_a_1 +:+ " done")). reflexivity.
Defined.

(** ** The decoder: what it returns and what it raises *)

Section Outcomes.
Variable json_loads : string → result value.


End Outcomes.




(** ** The decoder: the region it recovers *)

Section Regions.
Variable json_loads : string → result value.

Lemma bracket_matching_brace_fails pairs text :
  brace_pass_fails json_loads text →
  bracket_matching json_loads (("{"%char, "}"%char) :: pairs) text
  = bracket_matching json_loads pairs text.
Proof.
  intros [Hno | pre x -> Hpre Hx | pre inner post -> Hpre Hbal Hrej].
  - by apply bracket_matching_absent.
  - by apply bracket_matching_unclosed.
  - rewrite bracket_matching_region by done. by rewrite Hrej.
Qed.

(** C2, as amended: a text that is neither directly parseable nor fenced, and
    that contains a balanced bracketed region (delimiters inside its string
    literals not counted) which parses, decodes to the value of that region,
    provided that the opening delimiter of the region is the first occurrence
    of that character in the text, quoted or not; and, for a region in square
    brackets, that the pass over braces finds nothing: the text has no
    opening brace, or the region that its first brace opens never closes, or
    that region is balanced and rejected by [json.loads]. *)
Theorem decode_recovers_region sc ec pre inner post v :
  (sc, ec) = ("{"%char, "}"%char) ∨
    ((sc, ec) = ("["%char, "]"%char) ∧
     brace_pass_fails json_loads (pre +:+ region sc ec inner +:+ post)) →
  balanced sc ec inner →
  json_loads (region sc ec inner) = Ok v →
  PyStr.contains (String sc "") pre = false →
  json_loads (PyStr.strip (pre +:+ region sc ec inner +:+ post)) = Raise JSONDecodeError →
  PyStr.contains "```" (pre +:+ region sc ec inner +:+ post) = false →
  parse_json_with_fallbacks json_loads (pre +:+ region sc ec inner +:+ post) = Ok (true, v).
Proof.
  intros Hpair Hbal Hv Hpre Hdirect Hfence.
  set (text := pre +:+ region sc ec inner +:+ post) in *.
  assert (Hsc : PyStr.isspace sc = false) by (by destruct Hpair as [[= -> _] | [[= -> _] _]]).
  unfold parse_json_with_fallbacks.
  assert (PyStr.is_empty (PyStr.strip text) = false) as Hne.
  { unfold text, region. rewrite string_app_cons. by apply strip_nonspace. }
  rewrite Hne, orb_false_r.
  assert (PyStr.is_empty text = false) as ->.
  { destruct text; [discriminate Hne|done]. }
  rewrite direct_parse_eq, Hdirect. cbn [mbind result_bind].
  rewrite code_blocks_no_fence by done. cbn [mbind result_bind].
  destruct Hpair as [[= -> ->] | [[= -> ->] Hfails]].
  - unfold text. rewrite bracket_matching_region by done. by rewrite Hv.
  - rewrite bracket_matching_brace_fails by exact Hfails.
    unfold text. rewrite bracket_matching_region by done. by rewrite Hv.
Qed.

End Regions.

(** *** The premise on braces is the weakest *)

Lemma open_body_char a s :
  a ≠ PyStr.dquote → a ≠ PyStr.backslash → open_body s → open_body (String a s).
Proof.
  intros Hq Hb [body Hs|body Hs].
  - apply open_body_chars. by apply str_body_char.
  - rewrite <- string_app_cons. apply open_body_backslash. by apply str_body_char.
Qed.

Lemma open_body_escape a s : open_body s → open_body (String PyStr.backslash (String a s)).
Proof.
  intros [body Hs|body Hs].
  - apply open_body_chars. by apply str_body_escape.
  - rewrite <- !string_app_cons. apply open_body_backslash. by apply str_body_escape.
Qed.

(** The characters after an opening quote either hold the closing quote or
    do not. *)
Lemma str_body_cases n : ∀ s, String.length s < n →
  open_body s ∨ ∃ body rest, str_body body ∧ s = body +:+ String PyStr.dquote rest.
Proof.
  induction n as [|n IH]; intros s Hn; [lia|].
  destruct s as [|a s]; [left; apply open_body_chars, str_body_nil|].
  cbn [String.length] in Hn.
  destruct (decide (a = PyStr.dquote)) as [->|Hq].
  { right. exists "", s. split; [apply str_body_nil|done]. }
  destruct (decide (a = PyStr.backslash)) as [->|Hb].
  - destruct s as [|b s].
    { left. apply (open_body_backslash ""), str_body_nil. }
    cbn [String.length] in Hn.
    destruct (IH s) as [Ho | (body & rest & Hbody & ->)]; [lia| |].
    + left. by apply open_body_escape.
    + right. exists (String PyStr.backslash (String b body)), rest.
      split; [by apply str_body_escape|done].
  - destruct (IH s) as [Ho | (body & rest & Hbody & ->)]; [lia| |].
    + left. by apply open_body_char.
    + right. exists (String a body), rest. split; [by apply str_body_char|done].
Qed.

Section Classification.
Variables sc ec : ascii.

Lemma balanced_app b s : balanced sc ec b → balanced sc ec s → balanced sc ec (b +:+ s).
Proof.
  intros Hb Hs. induction Hb as [|a b ? ? ? _ IH|body b ? _ IH|inner b ? _ _ IH].
  - by rewrite string_app_nil.
  - rewrite string_app_cons. by apply balanced_char.
  - rewrite string_app_cons, string_app_assoc, string_app_cons. by apply balanced_string.
  - rewrite string_app_cons, string_app_assoc, string_app_cons. by apply balanced_nest.
Qed.

Lemma unclosed_prepend b s :
  balanced sc ec b → unclosed sc ec s → unclosed sc ec (b +:+ s).
Proof.
  intros Hb [b' Hb'|b' s' Hb' Hs'|b' body Hb' Hbody].
  - by apply unclosed_end, balanced_app.
  - rewrite <- string_app_assoc. apply unclosed_nested; [by apply balanced_app|done].
  - rewrite <- string_app_assoc. apply unclosed_string; [by apply balanced_app|done].
Qed.

(** The text after an opening delimiter either closes it or does not. *)
Lemma region_cases n : ∀ x, String.length x < n →
  unclosed sc ec x ∨ ∃ inner post, balanced sc ec inner ∧ x = inner +:+ String ec post.
Proof.
  induction n as [|n IH]; intros x Hn; [lia|].
  destruct x as [|a x]; [left; apply unclosed_end, balanced_nil|].
  cbn [String.length] in Hn.
  destruct (decide (a = PyStr.dquote)) as [->|Hq].
  { destruct (str_body_cases (S (String.length x)) x) as [Ho | (body & rest & Hbody & ->)];
      [lia| |].
    - left. by apply (unclosed_string _ _ "" x); [apply balanced_nil|].
    - rewrite string_length_app in Hn. cbn [String.length] in Hn.
      assert (Hq : balanced sc ec (String PyStr.dquote (body +:+ String PyStr.dquote "")))
        by (apply balanced_string; [done|apply balanced_nil]).
      destruct (IH rest) as [Hu | (inner & post & Hinner & ->)]; [lia| |].
      + left. apply (unclosed_prepend _ _ Hq) in Hu.
        by rewrite string_app_cons, string_app_assoc, string_app_cons, string_app_nil in Hu.
      + right. exists (String PyStr.dquote (body +:+ String PyStr.dquote inner)), post.
        split; [by apply balanced_string|].
        by rewrite string_app_cons, string_app_assoc, string_app_cons. }
  destruct (decide (a = ec)) as [->|He].
  { right. exists "", x. split; [apply balanced_nil|done]. }
  destruct (decide (a = sc)) as [->|Hs].
  - destruct (IH x) as [Hu | (inner & post & Hinner & ->)]; [lia| |].
    + left. by apply (unclosed_nested _ _ "" x); [apply balanced_nil|].
    + rewrite string_length_app in Hn. cbn [String.length] in Hn.
      assert (Hr : balanced sc ec (String sc (inner +:+ String ec "")))
        by (apply balanced_nest; [done|apply balanced_nil]).
      destruct (IH post) as [Hu | (inner2 & post2 & Hinner2 & ->)]; [lia| |].
      * left. apply (unclosed_prepend _ _ Hr) in Hu.
        by rewrite string_app_cons, string_app_assoc, string_app_cons, string_app_nil in Hu.
      * right. exists (String sc (inner +:+ String ec inner2)), post2.
        split; [by apply balanced_nest|].
        by rewrite string_app_cons, string_app_assoc, string_app_cons.
  - destruct (IH x) as [Hu | (inner & post & Hinner & ->)]; [lia| |].
    + left. apply (unclosed_prepend (String a "")) in Hu; [done|].
      apply balanced_char; [done..|apply balanced_nil].
    + right. exists (String a inner), post. split; [by apply balanced_char|done].
Qed.

End Classification.

Lemma contains_char_split a s :
  PyStr.contains (String a "") s = true →
  ∃ pre x, s = pre +:+ String a x ∧ PyStr.contains (String a "") pre = false.
Proof.
  induction s as [|b s IH]; [done|]. cbn [PyStr.contains]. rewrite startswith_char.
  destruct (Ascii.eqb_spec b a) as [->|Hb].
  - intros _. by exists "", s.
  - intros (pre & x & -> & Hpre)%IH. exists (String b pre), x. split; [done|].
    cbn [PyStr.contains]. rewrite startswith_char, Hpre.
    by destruct (Ascii.eqb_spec b a).
Qed.

(** When the pass over braces finds something, it is the region that the
    first brace of the text opens, and [json.loads] accepts that region or
    raises on it: the decoder does not reach the square brackets. *)
Lemma brace_pass_cases json_loads text :
  brace_pass_fails json_loads text ∨
  ∃ pre inner post,
    text = pre +:+ region "{" "}" inner +:+ post ∧
    PyStr.contains "{" pre = false ∧
    balanced "{" "}" inner ∧
    bracket_matching json_loads [("{"%char, "}"%char); ("["%char, "]"%char)] text
    = match json_loads (region "{" "}" inner) with
      | Ok v => Ok (Some (true, v))
      | Raise e => Raise e
      end ∧
    json_loads (region "{" "}" inner) ≠ Raise JSONDecodeError.
Proof.
  destruct (PyStr.contains "{" text) eqn:Hc; [|left; by apply no_brace].
  apply contains_char_split in Hc as (pre & x & -> & Hpre).
  destruct (region_cases "{" "}" (S (String.length x)) x)
    as [Hu | (inner & post & Hinner & ->)]; [lia| |].
  { left. by apply (unclosed_brace _ _ pre x). }
  assert (Htext : pre +:+ String "{" (inner +:+ String "}" post)
                  = pre +:+ region "{" "}" inner +:+ post).
  { unfold region. by rewrite string_app_cons, string_app_assoc, string_app_cons. }
  rewrite Htext.
  destruct (json_loads (region "{" "}" inner)) as [v|e] eqn:Hv.
  - right. exists pre, inner, post. rewrite bracket_matching_region, Hv by done. done.
  - destruct (decide (e = JSONDecodeError)) as [->|He].
    + left. by apply (rejected_brace _ _ pre inner post).
    + right. exists pre, inner, post. rewrite bracket_matching_region, Hv by done.
      split; [done|]. split; [done|]. split; [done|]. split; [by destruct e|congruence].
Qed.

(** An object between two pieces of prose, its second string holding a
    closing and an opening brace; an array after prose that quotes an opening
    brace, which the pass over braces takes for a region that never closes;
    and an array after a region in braces that is not JSON. *)
Lemma decode_recovers_region_witness :
  parse_json_with_fallbacks sample_loads ("Result: " +:+ doc_a_braces +:+ " done")
    = Ok (true, VDict [("a", VStr "}{")]) ∧
  parse_json_with_fallbacks array_loads
    (("say " +:+ quoted "{" +:+ " then ") +:+ region "[" "]" "1, 2" +:+ "")
    = Ok (true, VList [VInt 1; VInt 2]) ∧
  parse_json_with_fallbacks array_loads
    ("note {bad} list " +:+ region "[" "]" "1, 2" +:+ "")
    = Ok (true, VList [VInt 1; VInt 2]).
Proof.
  split; [|split].
  - apply (decode_recovers_region sample_loads "{" "}" "Result: "
             (quoted "a" +:+ ": " +:+ quoted "}{") " done").
    + left. reflexivity.
    + apply (balanced_string _ _ "a" (": " +:+ quoted "}{")); [body_chars|].
      apply balanced_char; [done..|]. apply balanced_char; [done..|].
      apply (balanced_string _ _ "}{" ""); [body_chars|]. apply balanced_nil.
    + reflexivity.
    + reflexivity.
    + reflexivity.
    + reflexivity.
  - apply (decode_recovers_region array_loads "[" "]"
             ("say " +:+ quoted "{" +:+ " then ") "1, 2" "").
    + right. split; [reflexivity|].
      apply (unclosed_brace _ _ ("say " +:+ String PyStr.dquote "")
               (String PyStr.dquote " then [1, 2]")); [reflexivity|reflexivity|].
      apply (unclosed_string _ _ "" " then [1, 2]"); [apply balanced_nil|].
      apply open_body_chars. body_chars.
    + plain_chars. apply balanced_nil.
    + reflexivity.
    + reflexivity.
    + reflexivity.
    + reflexivity.
  - apply (decode_recovers_region array_loads "[" "]" "note {bad} list " "1, 2" "").
    + right. split; [reflexivity|].
      apply (rejected_brace _ _ "note " "bad" " list [1, 2]");
        [reflexivity|reflexivity| |reflexivity].
      plain_chars. apply balanced_nil.
    + plain_chars. apply balanced_nil.
    + reflexivity.
    + reflexivity.
    + reflexivity.
    + reflexivity.
Defined.

(** The claim without the amendment fails, for either kind of region.
    The text [say "{" then {"a": 1}] is prose followed by one balanced region
    that parses; the only other brace sits inside a string literal of the
    prose. The scan starts at that quoted brace, takes the closing quote of
    the literal for an opening one, and never sees the depth return to 0: the
    decoder fails.
    The text [Result: ["{}"] done] is one balanced region in square brackets
    between two pieces of prose without a bracket; its only braces sit inside
    a string literal of the region. The pass over braces comes first, starts
    at the quoted brace and hands [{}] to [json.loads]: the decoder returns
    the empty object, not the array. *)
Lemma quoted_brace_defeats_recovery :
  (let pre := "say " +:+ quoted "{" +:+ " then " in
   let inner := quoted "a" +:+ ": 1" in
   let text := pre +:+ region "{" "}" inner +:+ "" in
   prose pre ∧ prose "" ∧
   balanced "{" "}" inner ∧
   sample_loads (region "{" "}" inner) = Ok (VDict [("a", VInt 1)]) ∧
   sample_loads (PyStr.strip text) = Raise JSONDecodeError ∧
   PyStr.contains "```" text = false ∧
   parse_json_with_fallbacks sample_loads text = Ok (false, VNone)) ∧
  (let pre := "Result: " in
   let inner := quoted "{}" in
   let post := " done" in
   let text := pre +:+ region "[" "]" inner +:+ post in
   prose pre ∧ prose post ∧
   balanced "[" "]" inner ∧
   PyStr.contains "[" pre = false ∧
   array_loads (region "[" "]" inner) = Ok (VList [VStr "{}"]) ∧
   array_loads (PyStr.strip text) = Raise JSONDecodeError ∧
   PyStr.contains "```" text = false ∧
   parse_json_with_fallbacks array_loads text = Ok (true, VDict [])).
Proof.
  cbv zeta. split; repeat split; try reflexivity.
  - do 4 (apply prose_char; [done..|]).
    apply (prose_string "{" " then "); [body_chars|].
    do 6 (apply prose_char; [done..|]). apply prose_nil.
  - apply prose_nil.
  - apply (balanced_string _ _ "a" ": 1"); [body_chars|]. plain_chars. apply balanced_nil.
  - do 8 (apply prose_char; [done..|]). apply prose_nil.
  - do 5 (apply prose_char; [done..|]). apply prose_nil.
  - apply (balanced_string _ _ "{}" ""); [body_chars|]. apply balanced_nil.
Qed.
